(** * pkavid: the desktop video compositing thread of [app.py]

    A shallow embedding of [get_monitors], [find_workerw],
    [create_bmi_header] and [VideoPlayerThread.run] together with the
    properties of the rendering session that follow from the code.

    Python integers are unbounded and are modelled by [Z]; frame rates are
    taken to be integers and the clock to be rational.  The dictionaries
    [monitor_config] and [caps] keep their insertion order and are modelled
    by association lists.  The calls into win32gui / win32ui / gdi32 / cv2 and
    the two Qt signals are recorded in a trace of events.

    The answers of the collaborators come from an environment record: the
    windows of the desktop, the displays, which files decode, which reads
    fail, whether a present fails, when the control thread clears
    [self.running], and what the clock shows.  A call can raise where the
    code handles its failure or where it acquires a resource ([GetWindowDC],
    [CreateDCFromHandle], [CreateCompatibleDC], [CreateCompatibleBitmap],
    [BitBlt]); the remaining calls -- fills, stretches, colour conversion,
    decoder reads and seeks, and every release -- return normally in the
    model.  The message [find_workerw] posts to the program manager is not
    modelled; the window list is the one that exists after it. *)

From Stdlib Require Import ZArith List String Bool Lia QArith Permutation DecimalString.
Import ListNotations.
Local Open Scope string_scope.
Local Open Scope list_scope.
Local Open Scope Z_scope.

Set Implicit Arguments.

(** ** Data *)

(** [RECT] of the ctypes declaration. *)
Record RECT := { left : Z; top : Z; right : Z; bottom : Z }.

(** One display as the operating system enumerates it: the arguments of the
    [EnumDisplayMonitors] callback and the fields of [GetMonitorInfo] that
    the code reads. *)
Record display := {
  hMonitor : Z;
  lprcMonitor : RECT;
  info_Flags : option Z;
  info_Device : option string
}.

(** The dictionary built for each monitor by [get_monitors]. *)
Record monitor := {
  handle : Z;
  x : Z;
  y : Z;
  width : Z;
  height : Z;
  is_primary : bool;
  device : string
}.

(** A decoded frame: rows of (b, g, r) triples; after [cv2.cvtColor] rows of
    (b, g, r, a) quadruples. *)
Definition bgr : Type := Z * Z * Z.
Definition bgra : Type := Z * Z * Z * Z.
Definition frame : Type := list (list bgr).
Definition frame4 : Type := list (list bgra).

(** What a video file decodes to; a path that cannot be decoded has no such
    record.  The native rate is kept as a whole number; a file with a
    fractional rate is outside the model. *)
Record video := {
  frames : list frame;
  frame_width : Z;
  frame_height : Z;
  native_fps : Z
}.

(** One value of [monitor_config]: every key may be missing. *)
Record config := {
  video_path : option string;
  monitor_info : option monitor;
  cfg_fps : option Z
}.

(** One value of [caps]. *)
Record cap_data := {
  cap : nat;
  info : monitor;
  fps : Z
}.

(** Python exceptions that the modelled code can meet. *)
Inductive exn :=
| ValueError (msg : string)
| KeyError (key : string)
| ZeroDivisionError (msg : string)
| NameError (msg : string)
| Win32Error (msg : string).

Definition str_exn (e : exn) : string :=
  match e with
  | ValueError m => m
  | KeyError k => String.append "'" (String.append k "'")
  | ZeroDivisionError m => m
  | NameError m => m
  | Win32Error m => m
  end.

(** A top-level window in Z order, with the classes of its children. *)
Record window := {
  hwnd : Z;
  class_name : string;
  children : list (Z * string)
}.

(** The two [PyCDC] objects of a session and the state of the [PyCBitmap]. *)
Inductive dc_obj := MfcDC | SaveDC.
Inductive pybitmap := Detached | Attached.

(** The header built by [create_bmi_header], field by field. *)
Record bmi_header := {
  biSize : Z;
  biWidth : Z;
  biHeight : Z;
  biPlanes : Z;
  biBitCount : Z;
  biCompression : Z;
  biSizeImage : Z;
  biXPelsPerMeter : Z;
  biYPelsPerMeter : Z;
  biClrUsed : Z;
  biClrImportant : Z
}.

(** Calls to the collaborators, in the order the thread makes them. *)
Inductive event :=
| EvError (msg : string)
| EvFpsUpdated (v : Z)
| EvGetWindowDC (w dc : Z)
| EvCreateDCFromHandle (dc : Z)
| EvCreateCompatibleDC
| EvCreateBitmap
| EvCreateCompatibleBitmap (w h : Z)
| EvSelectObject
| EvVideoCapture (c : nat) (path : string) (opened : bool)
| EvRead (c : nat) (ret : bool)
| EvSetPos (c : nat) (pos : nat)
| EvFillSolidRect (l t r b : Z) (color : Z)
| EvStretchDIBits (dx dy dw dh sx sy sw sh : Z) (bits : list Z) (hdr : bmi_header)
| EvBitBlt (w h : Z) (ok : bool)
| EvPrint (msg : string)
| EvWaitKey (ms : Z)
| EvRelease (c : nat)
| EvDeleteDC (d : dc_obj)
| EvReleaseDC (w dc : Z)
| EvDeleteObject (b : pybitmap).

(** The environment of one session: what the operating system, the file
    system, the decoder, the clock and the control thread answer. *)
Record env := {
  windows : list window;
  displays : list display;
  window_dc : Z;
  window_dc_fault : option exn;
  dc_from_handle_fault : option exn;
  compatible_dc_fault : option exn;
  compatible_bitmap_fault : option exn;
  videos : string -> option video;
  read_fault : nat -> bool;
  bitblt_fault : nat -> option exn;
  running : nat -> bool;
  clock : nat -> Q
}.

(** ** Pure functions of the source *)

(** [get_monitors]: one dictionary per enumerated display. *)
Definition get_monitors (ds : list display) : list monitor :=
  map (fun d =>
         let rect := lprcMonitor d in
         {| handle := hMonitor d;
            x := left rect;
            y := top rect;
            width := right rect - left rect;
            height := bottom rect - top rect;
            is_primary := match info_Flags d with
                          | Some f => f =? 1
                          | None => false
                          end;
            device := match info_Device d with
                      | Some n => n
                      | None => "Unknown"
                      end |}) ds.

(** [FindWindowEx(parent, 0, cls, None)] on the children of one window. *)
Definition find_child (cls : string) (w : window) : Z :=
  match find (fun c => String.eqb (snd c) cls) (children w) with
  | Some c => fst c
  | None => 0
  end.

(** [FindWindowEx(0, after, cls, None)]: the first top-level window of class
    [cls] that follows [after] in Z order, 0 when there is none. *)
Fixpoint find_after (ws : list window) (after : Z) (cls : string) : Z :=
  match ws with
  | [] => 0
  | w :: rest =>
      if hwnd w =? after then
        match find (fun v => String.eqb (class_name v) cls) rest with
        | Some v => hwnd v
        | None => 0
        end
      else find_after rest after cls
  end.

(** [find_workerw]: the enumeration callback appends, for every WorkerW that
    holds the icon view, the WorkerW that follows it; the first one found is
    returned, [None] when the list stayed empty. *)
Definition find_workerw (ws : list window) : option Z :=
  let hwnds :=
    flat_map (fun w =>
                if String.eqb (class_name w) "WorkerW" then
                  if negb (find_child "SHELLDLL_DefView" w =? 0) then
                    [find_after ws (hwnd w) "WorkerW"]
                  else []
                else []) ws in
  match hwnds with
  | h :: _ => Some h
  | [] => None
  end.

(** [create_bmi_header]. *)
Definition create_bmi_header (width height : Z) : bmi_header :=
  {| biSize := 40;
     biWidth := width;
     biHeight := - height;
     biPlanes := 1;
     biBitCount := 32;
     biCompression := 0;
     biSizeImage := width * height * 4;
     biXPelsPerMeter := 0;
     biYPelsPerMeter := 0;
     biClrUsed := 0;
     biClrImportant := 0 |}.

(** Python's [min] and [max] of a sequence: no value on the empty one. *)
Definition py_min (l : list Z) : option Z :=
  match l with
  | [] => None
  | a :: t => Some (fold_left Z.min t a)
  end.

Definition py_max (l : list Z) : option Z :=
  match l with
  | [] => None
  | a :: t => Some (fold_left Z.max t a)
  end.

(** The geometry of the composition surface. *)
Record geometry := {
  min_x : Z;
  min_y : Z;
  total_width : Z;
  total_height : Z
}.

(** The exceptions of [min] and [max] on an empty sequence, with the text
    CPython gives them. *)
Definition empty_min : exn := ValueError "min() arg is an empty sequence".
Definition empty_max : exn := ValueError "max() arg is an empty sequence".

(** Lines 103-106 of [run]: the four generator expressions, each of which
    raises on an empty monitor list. *)
Definition bounding_box (monitors : list monitor) : exn + geometry :=
  match py_min (map x monitors) with
  | None => inl empty_min
  | Some mx =>
      match py_min (map y monitors) with
      | None => inl empty_min
      | Some my =>
          match py_max (map (fun m => x m + width m - mx) monitors) with
          | None => inl empty_max
          | Some tw =>
              match py_max (map (fun m => y m + height m - my) monitors) with
              | None => inl empty_max
              | Some th =>
                  inr {| min_x := mx; min_y := my;
                         total_width := tw; total_height := th |}
              end
          end
      end
  end.

(** [win32api.RGB]. *)
Definition RGB (r g b : Z) : Z :=
  Z.lor (Z.lor (Z.land r 255) (Z.shiftl (Z.land g 255) 8))
        (Z.shiftl (Z.land b 255) 16).

(** [cv2.cvtColor(frame, cv2.COLOR_BGR2BGRA)]: an opaque alpha channel is
    appended to every pixel. *)
Definition cvtColor_BGR2BGRA (f : frame) : frame4 :=
  map (map (fun p : bgr => let '(b, g, r) := p in (b, g, r, 255))) f.

(** [frame.tobytes()]: row-major, four bytes per pixel. *)
Definition tobytes (f : frame4) : list Z :=
  flat_map (flat_map (fun p : bgra => let '(b, g, r, a) := p in [b; g; r; a])) f.

(** Truth value of an integer handle that may be [None]. *)
Definition truthy (h : option Z) : bool :=
  match h with
  | Some v => negb (v =? 0)
  | None => false
  end.

(** Truth value of [config['video_path']] guarded by the membership test. *)
Definition path_of (c : config) : option string :=
  match video_path c with
  | Some p => if String.eqb p "" then None else Some p
  | None => None
  end.

(** Assignment [d[k] = v] on an insertion-ordered dictionary. *)
Fixpoint dict_set {V : Type} (d : list (string * V)) (k : string) (v : V)
  : list (string * V) :=
  match d with
  | [] => [(k, v)]
  | (k', v') :: rest =>
      if String.eqb k' k then (k, v) :: rest else (k', v') :: dict_set rest k v
  end.

(** ** The composition surface and the desktop

    A drawing surface is a map from pixel coordinates to a COLORREF.  The
    three GDI calls the thread makes are given their SRCCOPY meaning on the
    bitmap of size [total_width] x [total_height] selected into [save_dc];
    writes are clipped to that bitmap. *)
Definition surface : Type := Z -> Z -> Z.

Definition in_rect (px py rx ry rw rh : Z) : bool :=
  (rx <=? px) && (px <? rx + rw) && (ry <=? py) && (py <? ry + rh).

Definition in_bounds (g : geometry) (px py : Z) : bool :=
  in_rect px py 0 0 (total_width g) (total_height g).

(** [FillSolidRect((l, t, r, b), color)]. *)
Definition fill_solid_rect (g : geometry) (l t r b color : Z) (s : surface)
  : surface :=
  fun px py =>
    if in_rect px py l t (r - l) (b - t) && in_bounds g px py then color
    else s px py.

(** The pixel at column [sx], row [sy] of a top-down 32-bit DIB whose rows
    are [w] pixels long. *)
Definition dib_pixel (bits : list Z) (w sx sy : Z) : Z :=
  let off := Z.to_nat (4 * (sy * w + sx)) in
  RGB (nth (off + 2) bits 0) (nth (off + 1) bits 0) (nth off bits 0).

(** [StretchDIBits] with SRCCOPY: every pixel of the destination rectangle
    takes the colour of the source pixel it scales back to; no pixel outside
    the destination rectangle is written. *)
Definition stretch_dibits (g : geometry) (dx dy dw dh sx sy sw sh : Z)
           (bits : list Z) (hdr : bmi_header) (s : surface) : surface :=
  fun px py =>
    if in_rect px py dx dy dw dh && in_bounds g px py then
      dib_pixel bits (biWidth hdr)
                (sx + (px - dx) * sw / dw) (sy + (py - dy) * sh / dh)
    else s px py.

(** [BitBlt((0, 0), (w, h), src, (0, 0), SRCCOPY)]. *)
Definition bit_blt (w h : Z) (src dst : surface) : surface :=
  fun px py => if in_rect px py 0 0 w h then src px py else dst px py.

(** ** State of a session *)

(** A [cv2.VideoCapture] object: the decoded file when it is open, and the
    position of the next frame. *)
Record decoder := {
  dec_video : option video;
  dec_pos : nat
}.

(** The local variables of [run] that its [finally] block reads, the trace
    of calls made so far, and the state of the collaborators. *)
Record state := {
  caps : list (string * cap_data);
  save_dc : option dc_obj;
  mfc_dc : option dc_obj;
  hwnd_dc : option Z;
  bmp : option pybitmap;
  worker_w : option Z;
  trace : list event;
  decoders : list decoder;
  canvas : surface;
  desktop : surface;
  reads : nat;
  clock_calls : nat;
  ticks : nat
}.

Definition init_state : state :=
  {| caps := []; save_dc := None; mfc_dc := None; hwnd_dc := None;
     bmp := None; worker_w := None; trace := []; decoders := [];
     canvas := fun _ _ => 0; desktop := fun _ _ => 0;
     reads := 0; clock_calls := 0; ticks := 0 |}.

Definition set_caps (v : list (string * cap_data)) (s : state) : state :=
  {| caps := v; save_dc := save_dc s; mfc_dc := mfc_dc s;
     hwnd_dc := hwnd_dc s; bmp := bmp s; worker_w := worker_w s;
     trace := trace s; decoders := decoders s; canvas := canvas s;
     desktop := desktop s; reads := reads s; clock_calls := clock_calls s;
     ticks := ticks s |}.

Definition set_save_dc (v : option dc_obj) (s : state) : state :=
  {| caps := caps s; save_dc := v; mfc_dc := mfc_dc s;
     hwnd_dc := hwnd_dc s; bmp := bmp s; worker_w := worker_w s;
     trace := trace s; decoders := decoders s; canvas := canvas s;
     desktop := desktop s; reads := reads s; clock_calls := clock_calls s;
     ticks := ticks s |}.

Definition set_mfc_dc (v : option dc_obj) (s : state) : state :=
  {| caps := caps s; save_dc := save_dc s; mfc_dc := v;
     hwnd_dc := hwnd_dc s; bmp := bmp s; worker_w := worker_w s;
     trace := trace s; decoders := decoders s; canvas := canvas s;
     desktop := desktop s; reads := reads s; clock_calls := clock_calls s;
     ticks := ticks s |}.

Definition set_hwnd_dc (v : option Z) (s : state) : state :=
  {| caps := caps s; save_dc := save_dc s; mfc_dc := mfc_dc s;
     hwnd_dc := v; bmp := bmp s; worker_w := worker_w s;
     trace := trace s; decoders := decoders s; canvas := canvas s;
     desktop := desktop s; reads := reads s; clock_calls := clock_calls s;
     ticks := ticks s |}.

Definition set_bmp (v : option pybitmap) (s : state) : state :=
  {| caps := caps s; save_dc := save_dc s; mfc_dc := mfc_dc s;
     hwnd_dc := hwnd_dc s; bmp := v; worker_w := worker_w s;
     trace := trace s; decoders := decoders s; canvas := canvas s;
     desktop := desktop s; reads := reads s; clock_calls := clock_calls s;
     ticks := ticks s |}.

Definition set_worker_w (v : option Z) (s : state) : state :=
  {| caps := caps s; save_dc := save_dc s; mfc_dc := mfc_dc s;
     hwnd_dc := hwnd_dc s; bmp := bmp s; worker_w := v;
     trace := trace s; decoders := decoders s; canvas := canvas s;
     desktop := desktop s; reads := reads s; clock_calls := clock_calls s;
     ticks := ticks s |}.

Definition set_trace (v : list event) (s : state) : state :=
  {| caps := caps s; save_dc := save_dc s; mfc_dc := mfc_dc s;
     hwnd_dc := hwnd_dc s; bmp := bmp s; worker_w := worker_w s;
     trace := v; decoders := decoders s; canvas := canvas s;
     desktop := desktop s; reads := reads s; clock_calls := clock_calls s;
     ticks := ticks s |}.

Definition set_decoders (v : list decoder) (s : state) : state :=
  {| caps := caps s; save_dc := save_dc s; mfc_dc := mfc_dc s;
     hwnd_dc := hwnd_dc s; bmp := bmp s; worker_w := worker_w s;
     trace := trace s; decoders := v; canvas := canvas s;
     desktop := desktop s; reads := reads s; clock_calls := clock_calls s;
     ticks := ticks s |}.

Definition set_canvas (v : surface) (s : state) : state :=
  {| caps := caps s; save_dc := save_dc s; mfc_dc := mfc_dc s;
     hwnd_dc := hwnd_dc s; bmp := bmp s; worker_w := worker_w s;
     trace := trace s; decoders := decoders s; canvas := v;
     desktop := desktop s; reads := reads s; clock_calls := clock_calls s;
     ticks := ticks s |}.

Definition set_desktop (v : surface) (s : state) : state :=
  {| caps := caps s; save_dc := save_dc s; mfc_dc := mfc_dc s;
     hwnd_dc := hwnd_dc s; bmp := bmp s; worker_w := worker_w s;
     trace := trace s; decoders := decoders s; canvas := canvas s;
     desktop := v; reads := reads s; clock_calls := clock_calls s;
     ticks := ticks s |}.

Definition set_reads (v : nat) (s : state) : state :=
  {| caps := caps s; save_dc := save_dc s; mfc_dc := mfc_dc s;
     hwnd_dc := hwnd_dc s; bmp := bmp s; worker_w := worker_w s;
     trace := trace s; decoders := decoders s; canvas := canvas s;
     desktop := desktop s; reads := v; clock_calls := clock_calls s;
     ticks := ticks s |}.

Definition set_clock_calls (v : nat) (s : state) : state :=
  {| caps := caps s; save_dc := save_dc s; mfc_dc := mfc_dc s;
     hwnd_dc := hwnd_dc s; bmp := bmp s; worker_w := worker_w s;
     trace := trace s; decoders := decoders s; canvas := canvas s;
     desktop := desktop s; reads := reads s; clock_calls := v;
     ticks := ticks s |}.

Definition set_ticks (v : nat) (s : state) : state :=
  {| caps := caps s; save_dc := save_dc s; mfc_dc := mfc_dc s;
     hwnd_dc := hwnd_dc s; bmp := bmp s; worker_w := worker_w s;
     trace := trace s; decoders := decoders s; canvas := canvas s;
     desktop := desktop s; reads := reads s; clock_calls := clock_calls s;
     ticks := v |}.

(** ** The monad of the thread body

    A computation either returns, raises a Python exception, or is still
    inside the playback loop when the observation ends ([Busy]). *)
Inductive outcome (A : Type) :=
| Ok (a : A)
| Raise (e : exn)
| Busy.
Arguments Ok {A} a.
Arguments Raise {A} e.
Arguments Busy {A}.

Definition M (A : Type) : Type := state -> outcome A * state.

Definition ret {A : Type} (a : A) : M A := fun s => (Ok a, s).

Definition bind {A B : Type} (m : M A) (k : A -> M B) : M B :=
  fun s =>
    match m s with
    | (Ok a, s') => k a s'
    | (Raise e, s') => (Raise e, s')
    | (Busy, s') => (Busy, s')
    end.

Definition raise {A : Type} (e : exn) : M A := fun s => (Raise e, s).

Definition get {A : Type} (f : state -> A) : M A := fun s => (Ok (f s), s).

Definition modify (f : state -> state) : M unit := fun s => (Ok tt, f s).

(** The trace is kept newest event first. *)
Definition emit (ev : event) : M unit :=
  modify (fun s => set_trace (ev :: trace s) s).

Definition may_fail (f : option exn) : M unit :=
  match f with
  | Some e => raise e
  | None => ret tt
  end.

Declare Scope run_scope.
Delimit Scope run_scope with run.
Notation "v <- m ;; k" := (bind m (fun v => k))
  (at level 100, m at next level, right associativity) : run_scope.
Notation "m ;; k" := (bind m (fun _ => k))
  (at level 100, right associativity) : run_scope.
Local Open Scope run_scope.

Definition is_some {A : Type} (o : option A) : bool :=
  match o with
  | Some _ => true
  | None => false
  end.

Fixpoint list_update {A : Type} (l : list A) (i : nat) (v : A) : list A :=
  match l, i with
  | [], _ => []
  | _ :: t, O => v :: t
  | a :: t, S j => a :: list_update t j v
  end.

Definition could_not_find : string := "Could not find WorkerW window".
Definition could_not_open (path : string) : string :=
  String.append "Could not open video: " path.
Definition bitblt_error (e : exn) : string :=
  String.append "Error in BitBlt operation: " (str_exn e).
Definition black : Z := RGB 0 0 0.

(** ** [VideoPlayerThread.run] *)
Section Session.

Variable E : env.
Variable monitor_config : list (string * config).

(** *** cv2 *)

(** [cv2.VideoCapture(path)]: a fresh capture object, open when the file
    decodes. *)
Definition video_capture (path : string) : M nat :=
  fun s =>
    let c := List.length (decoders s) in
    let d := {| dec_video := videos E path; dec_pos := 0 |} in
    (Ok c,
     set_trace (EvVideoCapture c path (is_some (videos E path)) :: trace s)
               (set_decoders (decoders s ++ [d]) s)).

Definition is_opened (c : nat) : M bool :=
  get (fun s => match nth_error (decoders s) c with
                | Some d => is_some (dec_video d)
                | None => false
                end).

(** What [cap.read()] returns in state [s]: the frame at the current
    position, unless the capture is closed, the position is past the last
    frame, or the decoder fails on this call. *)
Definition next_frame (c : nat) (s : state) : option frame :=
  match nth_error (decoders s) c with
  | Some d =>
      match dec_video d with
      | Some v =>
          if read_fault E (reads s) then None
          else nth_error (frames v) (dec_pos d)
      | None => None
      end
  | None => None
  end.

Definition advance (c : nat) (s : state) : state :=
  match nth_error (decoders s) c with
  | Some d =>
      set_decoders
        (list_update (decoders s) c
           {| dec_video := dec_video d; dec_pos := S (dec_pos d) |}) s
  | None => s
  end.

(** [ret, frame = cap.read()]. *)
Definition cap_read (c : nat) : M (option frame) :=
  fun s =>
    match next_frame c s with
    | Some f =>
        (Ok (Some f),
         set_trace (EvRead c true :: trace s)
                   (set_reads (S (reads s)) (advance c s)))
    | None =>
        (Ok None,
         set_trace (EvRead c false :: trace s) (set_reads (S (reads s)) s))
    end.

(** [cap.set(cv2.CAP_PROP_POS_FRAMES, pos)]. *)
Definition cap_set_pos (c : nat) (pos : nat) : M unit :=
  fun s =>
    let s' := match nth_error (decoders s) c with
              | Some d =>
                  set_decoders
                    (list_update (decoders s) c
                       {| dec_video := dec_video d; dec_pos := pos |}) s
              | None => s
              end in
    (Ok tt, set_trace (EvSetPos c pos :: trace s) s').

(** [cap.get(prop)] as a whole number.  The width and the height are read
    through [int] (lines 144-145).  The native rate is read as it is (line
    122): the model follows it for a file whose rate is a whole number, and
    no property below depends on the value read. *)
Definition cap_get (prop : video -> Z) (c : nat) : M Z :=
  get (fun s => match nth_error (decoders s) c with
                | Some d => match dec_video d with
                            | Some v => prop v
                            | None => 0
                            end
                | None => 0
                end).

(** [cap.release()]. *)
Definition cap_release (c : nat) : M unit :=
  fun s =>
    let s' := match nth_error (decoders s) c with
              | Some d =>
                  set_decoders
                    (list_update (decoders s) c
                       {| dec_video := None; dec_pos := dec_pos d |}) s
              | None => s
              end in
    (Ok tt, set_trace (EvRelease c :: trace s) s').

(** [time.time()]. *)
Definition time_time : M Q :=
  fun s => (Ok (clock E (clock_calls s)),
            set_clock_calls (S (clock_calls s)) s).

(** *** Lines 112-125: opening the sources *)
Fixpoint open_sources (items : list (string * config)) (fps : option Z)
  : M (option Z) :=
  match items with
  | [] => ret fps
  | (monitor_id, config) :: rest =>
      match path_of config with
      | Some path =>
          cap <- video_capture path ;;
          opened <- is_opened cap ;;
          if opened : bool then
            info <- match monitor_info config with
                    | Some i => ret i
                    | None => raise (KeyError "monitor_info")
                    end ;;
            modify (fun s =>
              set_caps (dict_set (caps s) monitor_id
                          {| cap := cap; info := info;
                             fps := match cfg_fps config with
                                    | Some f => f
                                    | None => 30
                                    end |}) s) ;;
            fps' <- cap_get native_fps cap ;;
            emit (EvFpsUpdated fps') ;;
            open_sources rest (Some fps')
          else
            emit (EvError (could_not_open path)) ;;
            open_sources rest fps
      | None => open_sources rest fps
      end
  end.

(** *** Lines 131-157: one source of one tick *)

(** Lines 143-157. *)
Definition blit (g : geometry) (c : nat) (monitor : monitor) (f : frame)
  : M unit :=
  let frame := cvtColor_BGR2BGRA f in
  video_width <- cap_get frame_width c ;;
  video_height <- cap_get frame_height c ;;
  let bits := tobytes frame in
  let hdr := create_bmi_header video_width video_height in
  modify (fun s =>
    set_canvas (stretch_dibits g (x monitor - min_x g) (y monitor - min_y g)
                               (width monitor) (height monitor)
                               0 0 video_width video_height bits hdr
                               (canvas s)) s) ;;
  emit (EvStretchDIBits (x monitor - min_x g) (y monitor - min_y g)
                        (width monitor) (height monitor)
                        0 0 video_width video_height bits hdr).

(** The body of the [for] loop; it returns the value it leaves in the
    variable [fps]. *)
Definition draw_source (g : geometry) (data : cap_data) : M Z :=
  let c := cap data in
  let monitor := info data in
  let fps := fps data in
  r <- cap_read c ;;
  r <- match r with
       | Some f => ret (Some f)
       | None => cap_set_pos c 0 ;; cap_read c
       end ;;
  match r with
  | None => ret fps
  | Some f => blit g c monitor f ;; ret fps
  end.

Fixpoint draw_sources (g : geometry) (items : list (string * cap_data))
         (fps : option Z) : M (option Z) :=
  match items with
  | [] => ret fps
  | (_, data) :: rest =>
      fps' <- draw_source g data ;;
      draw_sources g rest (Some fps')
  end.

(** Reading the local variable [fps]. *)
Definition load_fps (fps : option Z) : M Z :=
  match fps with
  | Some f => ret f
  | None => raise (NameError "fps")
  end.

(** Lines 159-168: the present, whose failure is printed and swallowed. *)
Definition present (g : geometry) : M unit :=
  fun s =>
    match bitblt_fault E (ticks s) with
    | Some e =>
        (Ok tt,
         set_trace (EvPrint (bitblt_error e)
                      :: EvBitBlt (total_width g) (total_height g) false
                      :: trace s) s)
    | None =>
        (Ok tt,
         set_trace (EvBitBlt (total_width g) (total_height g) true :: trace s)
                   (set_desktop (bit_blt (total_width g) (total_height g)
                                         (canvas s) (desktop s)) s))
    end.

(** Line 175: [cv2.waitKey(int(1000 / fps))]; the quotient is truncated
    towards zero. *)
Definition pace (fps : option Z) : M unit :=
  f <- load_fps fps ;;
  if f =? 0 then raise (ZeroDivisionError "division by zero")
  else emit (EvWaitKey (Z.quot 1000 f)).

(** Lines 129-175: one iteration of the [while] loop; [ticks] counts the
    iterations entered. *)
Definition tick (g : geometry) (last_time : Q) (fps : option Z)
  : M (Q * option Z) :=
  modify (fun s => set_ticks (S (ticks s)) s) ;;
  modify (fun s =>
    set_canvas (fill_solid_rect g 0 0 (total_width g) (total_height g)
                                black (canvas s)) s) ;;
  emit (EvFillSolidRect 0 0 (total_width g) (total_height g) black) ;;
  items <- get caps ;;
  fps <- draw_sources g items fps ;;
  present g ;;
  now <- time_time ;;
  last_time <- (if Qle_bool 1 (now - last_time) then
                  t <- time_time ;;
                  f <- load_fps fps ;;
                  emit (EvFpsUpdated f) ;;
                  ret t
                else ret last_time) ;;
  pace fps ;;
  ret (last_time, fps).

(** Line 128: [while self.running and caps]; [fuel] bounds the number of
    iterations that are observed. *)
Fixpoint playback (fuel : nat) (g : geometry) (last_time : Q)
         (fps : option Z) : M unit :=
  fun s =>
    if running E (ticks s) && negb (List.length (caps s) =? 0)%nat then
      match fuel with
      | O => (Busy, s)
      | S fuel' =>
          bind (tick g last_time fps)
               (fun r => playback fuel' g (fst r) (snd r)) s
      end
    else (Ok tt, s).

(** Lines 98-110: the drawing resources. *)
Definition acquire : M geometry :=
  worker <- get worker_w ;;
  may_fail (window_dc_fault E) ;;
  emit (EvGetWindowDC (match worker with Some w => w | None => 0 end)
                      (window_dc E)) ;;
  modify (set_hwnd_dc (Some (window_dc E))) ;;
  may_fail (dc_from_handle_fault E) ;;
  emit (EvCreateDCFromHandle (window_dc E)) ;;
  modify (set_mfc_dc (Some MfcDC)) ;;
  may_fail (compatible_dc_fault E) ;;
  emit EvCreateCompatibleDC ;;
  modify (set_save_dc (Some SaveDC)) ;;
  g <- match bounding_box (get_monitors (displays E)) with
       | inl e => raise e
       | inr g => ret g
       end ;;
  emit EvCreateBitmap ;;
  modify (set_bmp (Some Detached)) ;;
  may_fail (compatible_bitmap_fault E) ;;
  emit (EvCreateCompatibleBitmap (total_width g) (total_height g)) ;;
  modify (set_bmp (Some Attached)) ;;
  emit EvSelectObject ;;
  ret g.

(** Lines 92-175: the [try] block. *)
Definition try_block (fuel : nat) : M unit :=
  modify (set_worker_w (find_workerw (windows E))) ;;
  worker <- get worker_w ;;
  if negb (truthy worker) then
    emit (EvError could_not_find)
  else
    g <- acquire ;;
    fps <- open_sources monitor_config None ;;
    last_time <- time_time ;;
    playback fuel g last_time fps.

(** Lines 180-190: the [finally] block. *)
Fixpoint release_all (items : list (string * cap_data)) : M unit :=
  match items with
  | [] => ret tt
  | (_, data) :: rest => cap_release (cap data) ;; release_all rest
  end.

Definition finally_block : M unit :=
  items <- get caps ;;
  release_all items ;;
  sdc <- get save_dc ;;
  (if is_some sdc then emit (EvDeleteDC SaveDC) else ret tt) ;;
  mdc <- get mfc_dc ;;
  (if is_some mdc then emit (EvDeleteDC MfcDC) else ret tt) ;;
  hdc <- get hwnd_dc ;;
  worker <- get worker_w ;;
  (if truthy hdc && truthy worker then
     emit (EvReleaseDC (match worker with Some w => w | None => 0 end)
                       (match hdc with Some d => d | None => 0 end))
   else ret tt) ;;
  b <- get bmp ;;
  match b with
  | Some h => emit (EvDeleteObject h)
  | None => ret tt
  end.

(** [run]: the [try] block, the catch-all handler of lines 177-178 and the
    [finally] block.  While the loop is still being observed ([Busy]) the
    [finally] block has not run. *)
Definition run (fuel : nat) : outcome unit * state :=
  match try_block fuel init_state with
  | (Ok _, s) => finally_block s
  | (Raise e, s) => (emit (EvError (str_exn e)) ;; finally_block) s
  | (Busy, s) => (Busy, s)
  end.

End Session.

(** The thread body has returned. *)
Definition finished (r : outcome unit * state) : bool :=
  match fst r with
  | Ok _ => true
  | _ => false
  end.

(** The events of a run in the order they happened. *)
Definition history (r : outcome unit * state) : list event :=
  rev (trace (snd r)).

(** ** The bounding box *)

(** The greatest and the least element of a list, as the specification
    words them. *)
Definition is_max (l : list Z) (v : Z) : Prop :=
  In v l /\ forall u, In u l -> u <= v.

Definition is_min (l : list Z) (v : Z) : Prop :=
  In v l /\ forall u, In u l -> v <= u.


(** ** Accounting of resources over a trace *)

(** The drawing resources of a session: the window device context, the
    [PyCDC] wrapped around it, the memory device context and the bitmap. *)
Inductive resource := WindowDC | WrappedDC | MemoryDC | Bitmap.

Definition acquires (r : resource) (ev : event) : bool :=
  match r, ev with
  | WindowDC, EvGetWindowDC _ dc => negb (dc =? 0)
  | WrappedDC, EvCreateDCFromHandle _ => true
  | MemoryDC, EvCreateCompatibleDC => true
  | Bitmap, EvCreateCompatibleBitmap _ _ => true
  | _, _ => false
  end.

Definition releases (r : resource) (ev : event) : bool :=
  match r, ev with
  | WindowDC, EvReleaseDC _ _ => true
  | WrappedDC, EvDeleteDC MfcDC => true
  | MemoryDC, EvDeleteDC SaveDC => true
  | Bitmap, EvDeleteObject Attached => true
  | _, _ => false
  end.

Definition count (p : event -> bool) (tr : list event) : nat :=
  List.length (filter p tr).

Definition acquired (r : resource) (tr : list event) : nat :=
  count (acquires r) tr.

Definition released (r : resource) (tr : list event) : nat :=
  count (releases r) tr.

Definition is_release (c : nat) (ev : event) : bool :=
  match ev with
  | EvRelease c' => Nat.eqb c c'
  | _ => false
  end.

(** How often [release()] was called on capture [c]. *)
Definition release_count (c : nat) (tr : list event) : nat :=
  count (is_release c) tr.

Definition is_error (ev : event) : bool :=
  match ev with
  | EvError _ => true
  | _ => false
  end.

(** The resource a state of [run] still holds, read off the variables its
    [finally] block tests. *)
Definition held (r : resource) (s : state) : bool :=
  match r with
  | WindowDC => truthy (hwnd_dc s) && truthy (worker_w s)
  | WrappedDC => is_some (mfc_dc s)
  | MemoryDC => is_some (save_dc s)
  | Bitmap => match bmp s with
              | Some Attached => true
              | _ => false
              end
  end.

(** The capture objects registered in [caps]. *)
Definition cap_ids (d : list (string * cap_data)) : list nat :=
  map (fun kv => cap (snd kv)) d.

(** ** Sessions *)

(** One start of the thread: its environment, the configuration snapshot it
    was given, and for how many iterations the loop is observed. *)
Record session := {
  s_env : env;
  s_config : list (string * config);
  s_fuel : nat
}.

Definition run_session (x : session) : outcome unit * state :=
  run (s_env x) (s_config x) (s_fuel x).

(** The control thread clears [self.running] within the observed
    iterations. *)
Definition stop_requested (x : session) : Prop :=
  exists n, (n <= s_fuel x)%nat /\ running (s_env x) n = false.

(** A session that reaches its end: one that is stopped, or one whose thread
    body has returned for any other reason. *)
Definition session_ends (x : session) : Prop :=
  stop_requested x \/ finished (run_session x) = true.

(** The events of sessions run one after the other. *)
Definition cycles (l : list session) : list event :=
  flat_map (fun x => history (run_session x)) l.

(** An assignment is valid when its path is non-empty and the file opens. *)
Definition valid_assignment (E : env) (c : config) : bool :=
  match path_of c with
  | Some p => is_some (videos E p)
  | None => false
  end.

Definition no_valid_assignment (E : env) (cfg : list (string * config)) : bool :=
  forallb (fun kc => negb (valid_assignment E (snd kc))) cfg.

Definition names_a_video (cfg : list (string * config)) : bool :=
  existsb (fun kc => is_some (path_of (snd kc))) cfg.

(** Start-up succeeds: the worker window is found and lines 98-110 raise
    nothing. *)
Definition startup_ok (E : env) : bool :=
  truthy (find_workerw (windows E)) &&
  match fst (acquire E (set_worker_w (find_workerw (windows E)) init_state)) with
  | Ok _ => true
  | _ => false
  end.

(** ** Invariants of computations *)

(** [m] keeps the state property [I], whatever its outcome. *)
Definition maintains {A : Type} (I : state -> Prop) (m : M A) : Prop :=
  forall s, I s -> I (snd (m s)).

(** [s] holds the same drawing resources as [s0]: the five variables of the
    [finally] block and the numbers of acquisitions and releases agree. *)
Definition same_resources (s0 s : state) : Prop :=
  save_dc s = save_dc s0 /\ mfc_dc s = mfc_dc s0 /\ hwnd_dc s = hwnd_dc s0 /\
  bmp s = bmp s0 /\ worker_w s = worker_w s0 /\
  forall r, acquired r (trace s) = acquired r (trace s0) /\
            released r (trace s) = released r (trace s0).

(** Every resource held is accounted for by one acquisition, and nothing
    has been released yet. *)
Definition resources_accounted (s : state) : Prop :=
  forall r, released r (trace s) = O /\
            acquired r (trace s) = if held r s then 1%nat else O.

(** [m] never leaves the observation open. *)
Definition never_busy {A : Type} (m : M A) : Prop :=
  forall s, fst (m s) <> Busy.

(** The calls the [finally] block makes after the captures are released,
    newest first, as a function of the variables it tests. *)
Definition release_events (s : state) : list event :=
  (match bmp s with
   | Some h => [EvDeleteObject h]
   | None => []
   end) ++
  (if truthy (hwnd_dc s) && truthy (worker_w s) then
     [EvReleaseDC (match worker_w s with Some w => w | None => 0 end)
                  (match hwnd_dc s with Some d => d | None => 0 end)]
   else []) ++
  (if is_some (mfc_dc s) then [EvDeleteDC MfcDC] else []) ++
  (if is_some (save_dc s) then [EvDeleteDC SaveDC] else []).

(** Events of the playback loop proper. *)
Definition loop_event (ev : event) : bool :=
  match ev with
  | EvRead _ _ | EvSetPos _ _ | EvFillSolidRect _ _ _ _ _
  | EvStretchDIBits _ _ _ _ _ _ _ _ _ _ | EvBitBlt _ _ _ | EvPrint _
  | EvWaitKey _ | EvFpsUpdated _ => true
  | _ => false
  end.

(** Events that create or release a capture. *)
Definition source_event (ev : event) : bool :=
  match ev with
  | EvVideoCapture _ _ _ | EvRelease _ => true
  | _ => false
  end.

(** From [s0] to [s] no capture was created, registered or released. *)
Definition same_sources (s0 s : state) : Prop :=
  caps s = caps s0 /\
  List.length (decoders s) = List.length (decoders s0) /\
  exists evs, trace s = evs ++ trace s0 /\
              forall ev, In ev evs -> source_event ev = false.

(** What holds of the captures while the [try] block runs: those in [caps]
    are distinct objects that exist, one that failed to open is not in
    [caps], and nothing has been released. *)
Definition caps_sound (s : state) : Prop :=
  NoDup (cap_ids (caps s)) /\
  (forall c, In c (cap_ids (caps s)) -> (c < List.length (decoders s))%nat) /\
  (forall c p o, In (EvVideoCapture c p o) (trace s) ->
                 (c < List.length (decoders s))%nat) /\
  (forall c p, In (EvVideoCapture c p false) (trace s) ->
               ~ In c (cap_ids (caps s)) /\
               In (EvError (could_not_open p)) (trace s)) /\
  (forall c, release_count c (trace s) = O).

(** Every capture that opened is in [caps]. *)
Definition all_registered (s : state) : Prop :=
  forall c p, In (EvVideoCapture c p true) (trace s) ->
              In c (cap_ids (caps s)).

(** A configuration as the application writes it: the keys of the
    dictionary are distinct and every assignment that names a video carries
    its monitor. *)
Definition complete_config (cfg : list (string * config)) : Prop :=
  NoDup (map fst cfg) /\
  forall k c, In (k, c) cfg -> path_of c <> None -> monitor_info c <> None.

(** ** Concrete sessions

    A desktop whose shell has created the worker window, two monitors side by
    side, a two-frame clip, and configurations over them. *)
Definition desktop_windows : list window :=
  [ {| hwnd := 100; class_name := "Progman"; children := [] |};
    {| hwnd := 200; class_name := "WorkerW";
       children := [(201, "SHELLDLL_DefView")] |};
    {| hwnd := 300; class_name := "WorkerW"; children := [] |} ].

Definition two_displays : list display :=
  [ {| hMonitor := 65537;
       lprcMonitor := {| left := 0; top := 0; right := 4; bottom := 3 |};
       info_Flags := Some 1; info_Device := Some "DISPLAY1" |};
    {| hMonitor := 65539;
       lprcMonitor := {| left := -3; top := 1; right := 0; bottom := 3 |};
       info_Flags := Some 0; info_Device := Some "DISPLAY2" |} ].

Definition clip : video :=
  {| frames := [ [[(10, 20, 30); (11, 21, 31)]];
                 [[(40, 50, 60); (41, 51, 61)]] ];
     frame_width := 2; frame_height := 1; native_fps := 25 |}.

(** A file that opens but holds no frame. *)
Definition empty_clip : video :=
  {| frames := []; frame_width := 2; frame_height := 1; native_fps := 25 |}.

Definition files (p : string) : option video :=
  if String.eqb p "clip.mp4" then Some clip
  else if String.eqb p "empty.mp4" then Some empty_clip
  else None.

(** The control thread stops the session at the fourth test of the flag. *)
Definition desktop_env : env :=
  {| windows := desktop_windows;
     displays := two_displays;
     window_dc := 77;
     window_dc_fault := None;
     dc_from_handle_fault := None;
     compatible_dc_fault := None;
     compatible_bitmap_fault := None;
     videos := files;
     read_fault := fun _ => false;
     bitblt_fault := fun _ => None;
     running := fun n => (n <? 3)%nat;
     clock := fun n => Qmake (Z.of_nat n) 2 |}.

Definition primary_monitor : monitor :=
  {| handle := 65537; x := 0; y := 0; width := 4; height := 3;
     is_primary := true; device := "DISPLAY1" |}.

Definition secondary_monitor : monitor :=
  {| handle := 65539; x := -3; y := 1; width := 3; height := 2;
     is_primary := false; device := "DISPLAY2" |}.

Definition assignment (path : string) (m : monitor) (rate : Z) : config :=
  {| video_path := Some path; monitor_info := Some m; cfg_fps := Some rate |}.

Definition mixed_config : list (string * config) :=
  [ ("monitor_65537", assignment "clip.mp4" primary_monitor 24);
    ("monitor_65539", assignment "missing.mp4" secondary_monitor 60) ].

Definition mixed_session : session :=
  {| s_env := desktop_env; s_config := mixed_config; s_fuel := 5 |}.

(** No assignment at all. *)
Definition idle_session : session :=
  {| s_env := desktop_env; s_config := []; s_fuel := 5 |}.

(** The only assignment names a file that does not open. *)
Definition missing_session : session :=
  {| s_env := desktop_env;
     s_config := [("monitor_65539",
                   assignment "missing.mp4" secondary_monitor 60)];
     s_fuel := 5 |}.

(** A desktop on which the shell has no worker window. *)
Definition bare_env : env :=
  {| windows := [ {| hwnd := 100; class_name := "Progman"; children := [] |} ];
     displays := two_displays;
     window_dc := 77;
     window_dc_fault := None;
     dc_from_handle_fault := None;
     compatible_dc_fault := None;
     compatible_bitmap_fault := None;
     videos := files;
     read_fault := fun _ => false;
     bitblt_fault := fun _ => None;
     running := fun _ => true;
     clock := fun n => Qmake (Z.of_nat n) 2 |}.

(** A desktop on which no monitor is enumerated. *)
Definition headless_env : env :=
  {| windows := desktop_windows;
     displays := [];
     window_dc := 77;
     window_dc_fault := None;
     dc_from_handle_fault := None;
     compatible_dc_fault := None;
     compatible_bitmap_fault := None;
     videos := files;
     read_fault := fun _ => false;
     bitblt_fault := fun _ => None;
     running := fun _ => true;
     clock := fun n => Qmake (Z.of_nat n) 2 |}.

Definition headless_session : session :=
  {| s_env := headless_env; s_config := mixed_config; s_fuel := 5 |}.

(** ** The claims as the specification words them, where the code differs *)

Definition reports_error (r : outcome unit * state) : Prop :=
  exists msg, In (EvError msg) (history r).

(** "Starting a session with zero valid assignments must fail to start (no
    tick ever runs) and must report an error." *)
Definition idle_start_reported (x : session) : Prop :=
  no_valid_assignment (s_env x) (s_config x) = true ->
  ticks (snd (run_session x)) = O /\
  reports_error (run_session x) /\
  finished (run_session x) = true.

(** "[close()] ... must be called exactly once whether the source ran to
    completion or errored during open." *)
Definition every_source_released_once (x : session) : Prop :=
  forall c p o,
    In (EvVideoCapture c p o) (history (run_session x)) ->
    release_count c (history (run_session x)) = 1%nat.

(** "If the OS call returns zero monitors, downstream code must treat the
    bounding box as degenerate (zero width/height) ... rather than
    crashing": nothing is raised and the box has no extent. *)
Definition degenerate_box (monitors : list monitor) : Prop :=
  monitors = [] ->
  exists g, bounding_box monitors = inr g /\
            total_width g = 0 /\ total_height g = 0.

Definition creates_bitmap (ev : event) : bool :=
  match ev with
  | EvCreateBitmap | EvCreateCompatibleBitmap _ _ | EvSelectObject => true
  | _ => false
  end.

(** The value the [for] loop of a tick leaves in the variable [fps]. *)
Definition last_fps (items : list (string * cap_data)) (fps0 : option Z)
  : option Z :=
  fold_left (fun _ kv => Some (fps (snd kv))) items fps0.

(** Events of the [for] loop of a tick. *)
Definition draw_event (ev : event) : bool :=
  match ev with
  | EvRead _ _ | EvSetPos _ _ | EvStretchDIBits _ _ _ _ _ _ _ _ _ _ => true
  | _ => false
  end.

(** Events of a tick after its present. *)
Definition pace_event (ev : event) : bool :=
  match ev with
  | EvPrint _ | EvFpsUpdated _ | EvWaitKey _ => true
  | _ => false
  end.

(** The frame the body of the [for] loop ends up with: the one of the first
    read, or else the one of the read retried after the seek to frame 0. *)
Definition frame_to_draw (E : env) (c : nat) (s : state) : option frame :=
  match next_frame E c s with
  | Some f => Some f
  | None => next_frame E c (snd (cap_set_pos c 0 (snd (cap_read E c s))))
  end.

(** A state in which capture 0 has run past the last frame of [clip]. *)
Definition at_end_of_clip : state :=
  set_decoders [ {| dec_video := Some clip; dec_pos := 2 |} ]
    (set_caps [("monitor_65537",
                {| cap := 0; info := primary_monitor; fps := 24 |})]
              init_state).

Definition desktop_geometry : geometry :=
  {| min_x := -3; min_y := 0; total_width := 7; total_height := 3 |}.

(** The pixel lies in the destination rectangle of some entry of [caps]. *)
Definition covered (g : geometry) (items : list (string * cap_data))
           (px py : Z) : bool :=
  existsb (fun kv =>
             in_rect px py (x (info (snd kv)) - min_x g)
                     (y (info (snd kv)) - min_y g)
                     (width (info (snd kv))) (height (info (snd kv))))
          items.

(** A state in which capture 0 decodes a file without frames. *)
Definition on_empty_clip : state :=
  set_decoders [ {| dec_video := Some empty_clip; dec_pos := 0 |} ]
    (set_caps [("monitor_65537",
                {| cap := 0; info := primary_monitor; fps := 24 |})]
              init_state).

(** An assignment that names a video but carries no monitor. *)
Definition orphan_session : session :=
  {| s_env := desktop_env;
     s_config := [("monitor_65537",
                   {| video_path := Some "clip.mp4"; monitor_info := None;
                      cfg_fps := Some 30 |})];
     s_fuel := 5 |}.

(** ** Further vocabulary: the locator, the frames, the loop *)

(** The test of the enumeration callback of [find_workerw]: a window of
    class WorkerW that has a SHELLDLL_DefView child. *)
Definition holds_icon_view (w : window) : bool :=
  String.eqb (class_name w) "WorkerW" &&
  negb (find_child "SHELLDLL_DefView" w =? 0).

(** The first window of class WorkerW among [rest], 0 when there is none. *)
Definition next_workerw (rest : list window) : Z :=
  match find (fun v => String.eqb (class_name v) "WorkerW") rest with
  | Some v => hwnd v
  | None => 0
  end.

(** A frame of [h] rows of [w] pixels. *)
Definition frame_has_size {P : Type} (f : list (list P)) (w h : nat) : Prop :=
  List.length f = h /\ Forall (fun row => List.length row = w) f.


(** The rectangle of a display, as the operating system reports it. *)
Definition display_left (d : display) : Z := left (lprcMonitor d).
Definition display_top (d : display) : Z := top (lprcMonitor d).
Definition display_right (d : display) : Z := right (lprcMonitor d).
Definition display_bottom (d : display) : Z := bottom (lprcMonitor d).

(** What lines 112-125 store in [caps] for one assignment: its key, its
    monitor and its rate, 30 when the rate is missing. *)
Definition registered_entry (E : env) (kc : string * config)
  : list (string * monitor * Z) :=
  match path_of (snd kc) with
  | Some p =>
      match videos E p, monitor_info (snd kc) with
      | Some _, Some i =>
          [(fst kc, i, match cfg_fps (snd kc) with Some f => f | None => 30 end)]
      | _, _ => []
      end
  | None => []
  end.

Definition cap_view (kv : string * cap_data) : string * monitor * Z :=
  (fst kv, info (snd kv), fps (snd kv)).





Definition is_signal (ev : event) : bool :=
  match ev with
  | EvError _ | EvFpsUpdated _ => true
  | _ => false
  end.

(** Calls of the [finally] block. *)
Definition final_event (ev : event) : bool :=
  match ev with
  | EvRelease _ | EvDeleteDC _ | EvReleaseDC _ _ | EvDeleteObject _ => true
  | _ => false
  end.

(** [n] turns of the body of the [for] loop on one source. *)
Fixpoint draw_repeatedly (E : env) (g : geometry) (data : cap_data) (n : nat)
         (s : state) : state :=
  match n with
  | O => s
  | S k => draw_repeatedly E g data k (snd (draw_source E g data s))
  end.

(** The state in which the [for] loop of a tick starts: the tick is counted
    and the surface is filled (lines 128-129). *)
Definition tick_start (g : geometry) (s : state) : state :=
  set_trace (EvFillSolidRect 0 0 (total_width g) (total_height g) black
               :: trace s)
    (set_canvas (fill_solid_rect g 0 0 (total_width g) (total_height g) black
                                 (canvas s))
       (set_ticks (S (ticks s)) s)).

(** Lines 159-175 of a tick: what follows its [for] loop. *)
Definition tick_tail (E : env) (g : geometry) (last_time : Q)
           (fps : option Z) : M (Q * option Z) :=
  (present E g ;;
   now <- time_time E ;;
   last_time <- (if Qle_bool 1 (now - last_time) then
                   t <- time_time E ;;
                   f <- load_fps fps ;;
                   emit (EvFpsUpdated f) ;;
                   ret t
                 else ret last_time) ;;
   pace fps ;;
   ret (last_time, fps))%run.

(** The state a tick makes of the one its [for] loop ends in, when the
    present succeeds or fails, a second has passed or not, and the rate is
    [f]. *)
Definition presented (E : env) (g : geometry) (s2 : state) : state :=
  match bitblt_fault E (ticks s2) with
  | Some e =>
      set_trace (EvPrint (bitblt_error e)
                   :: EvBitBlt (total_width g) (total_height g) false
                   :: trace s2) s2
  | None =>
      set_trace (EvBitBlt (total_width g) (total_height g) true :: trace s2)
                (set_desktop (bit_blt (total_width g) (total_height g)
                                      (canvas s2) (desktop s2)) s2)
  end.

(** At least one second has passed since [last_time] when the tick looks at
    the clock. *)
Definition second_elapsed (E : env) (last_time : Q) (s : state) : bool :=
  Qle_bool 1 (clock E (clock_calls s) - last_time).

(** No call of the [finally] block has been made yet. *)
Definition no_final (s : state) : Prop :=
  forall ev, In ev (trace s) -> final_event ev = false.

(** A source whose configured rate is zero. *)
Definition zero_rate_state : state :=
  set_decoders [ {| dec_video := Some clip; dec_pos := 0 |} ]
    (set_caps [("monitor_65537",
                {| cap := 0; info := primary_monitor; fps := 0 |})]
              init_state).

(** A desktop on which every present fails. *)
Definition flaky_env : env :=
  {| windows := desktop_windows;
     displays := two_displays;
     window_dc := 77;
     window_dc_fault := None;
     dc_from_handle_fault := None;
     compatible_dc_fault := None;
     compatible_bitmap_fault := None;
     videos := files;
     read_fault := fun _ => false;
     bitblt_fault := fun _ => Some (Win32Error "BitBlt failed");
     running := fun n => (n <? 3)%nat;
     clock := fun n => Qmake (Z.of_nat n) 2 |}.

(** A desktop on which the bitmap cannot be created. *)
Definition cramped_env : env :=
  {| windows := desktop_windows;
     displays := two_displays;
     window_dc := 77;
     window_dc_fault := None;
     dc_from_handle_fault := None;
     compatible_dc_fault := None;
     compatible_bitmap_fault := Some (Win32Error "CreateCompatibleBitmap failed");
     videos := files;
     read_fault := fun _ => false;
     bitblt_fault := fun _ => None;
     running := fun n => (n <? 3)%nat;
     clock := fun n => Qmake (Z.of_nat n) 2 |}.

(** A state in which capture 0 stands at the first frame of [clip]. *)
Definition at_start_of_clip : state :=
  set_decoders [ {| dec_video := Some clip; dec_pos := 0 |} ]
    (set_caps [("monitor_65537",
                {| cap := 0; info := primary_monitor; fps := 24 |})]
              init_state).

(** ** The configuration window: [LiveWallpaperManager]

    The part of the window that decides what is configured and what is
    written to the configuration file: [init_ui] as far as it creates the
    per-monitor widgets and connects the rate combo boxes, [select_video],
    [update_fps], [save_config] and [load_config].  Layout, buttons and the
    live-rate labels are left out.  The file dialog's answer is an argument;
    the configuration file is the value it holds, [None] while it does not
    exist; a combo box emits [currentIndexChanged] when, and only when, its
    index changes, and its slot runs at once. *)

(** [str] and [int] between integers and decimal text. *)
Definition py_str (z : Z) : string := NilZero.string_of_int (Z.to_int z).

Definition py_int (s : string) : option Z :=
  option_map Z.of_int (NilZero.int_of_string s).

(** Lookup [d[k]] / [k in d] on an insertion-ordered dictionary. *)
Fixpoint dict_get {V : Type} (d : list (string * V)) (k : string) : option V :=
  match d with
  | [] => None
  | (k', v) :: rest => if String.eqb k' k then Some v else dict_get rest k
  end.

(** The four texts of every rate combo box (line 246). *)
Definition combo_items : list string := ["24"; "30"; "60"; "120"].

(** A rate combo box: the monitor id its slot was given as default argument
    (line 247), and its current index. *)
Record combo := {
  combo_mid : string;
  combo_index : nat
}.

Definition current_text (c : combo) : string :=
  nth (combo_index c) combo_items "".

(** One value of [monitor_widgets]; the combo box is an object of its own,
    named here by its number in the order of creation. *)
Record widget := {
  path_label : string;
  fps_combo : nat;
  widget_monitor_info : monitor
}.

Record manager := {
  monitor_configs : list (string * config);
  monitor_widgets : list (string * widget);
  combos : list combo;
  config_file : option (list (string * config))
}.

Definition set_monitor_configs (v : list (string * config)) (m : manager)
  : manager :=
  {| monitor_configs := v; monitor_widgets := monitor_widgets m;
     combos := combos m; config_file := config_file m |}.

Definition set_monitor_widgets (v : list (string * widget)) (m : manager)
  : manager :=
  {| monitor_configs := monitor_configs m; monitor_widgets := v;
     combos := combos m; config_file := config_file m |}.

Definition set_combos (v : list combo) (m : manager) : manager :=
  {| monitor_configs := monitor_configs m;
     monitor_widgets := monitor_widgets m;
     combos := v; config_file := config_file m |}.

Definition set_config_file (v : option (list (string * config)))
           (m : manager) : manager :=
  {| monitor_configs := monitor_configs m;
     monitor_widgets := monitor_widgets m;
     combos := combos m; config_file := v |}.

(** A method call ends normally ([None]) or with an exception, in the state
    it has reached. *)
Definition call : Type := option exn * manager.

(** The dictionary comprehension of [save_config] (lines 323-330): the first
    entry that lacks a key raises. *)
Fixpoint config_data (items : list (string * config))
  : exn + list (string * config) :=
  match items with
  | [] => inr []
  | (monitor_id, c) :: rest =>
      match video_path c with
      | None => inl (KeyError "video_path")
      | Some p =>
          match monitor_info c with
          | None => inl (KeyError "monitor_info")
          | Some i =>
              match config_data rest with
              | inl e => inl e
              | inr d =>
                  inr ((monitor_id,
                        {| video_path := Some p; monitor_info := Some i;
                           cfg_fps := Some (match cfg_fps c with
                                            | Some f => f
                                            | None => 30
                                            end) |}) :: d)
              end
          end
      end
  end.

(** [save_config]: the file is opened for writing only after the data were
    built. *)
Definition save_config (m : manager) : call :=
  match config_data (monitor_configs m) with
  | inl e => (Some e, m)
  | inr d => (None, set_config_file (Some d) m)
  end.

(** [update_fps(monitor_id, fps_combo)] (lines 301-305). *)
Definition update_fps (m : manager) (monitor_id : string) (fps_combo : nat)
  : call :=
  match nth_error (combos m) fps_combo with
  | None => (None, m)
  | Some cb =>
      match py_int (current_text cb) with
      | None => (Some (ValueError "invalid literal for int()"), m)
      | Some fps =>
          match dict_get (monitor_configs m) monitor_id with
          | Some c =>
              save_config
                (set_monitor_configs
                   (dict_set (monitor_configs m) monitor_id
                      {| video_path := video_path c;
                         monitor_info := monitor_info c;
                         cfg_fps := Some fps |}) m)
          | None => (None, m)
          end
      end
  end.

(** [select_video(monitor_id)] (lines 283-299) when the dialog answers
    [file_path]. *)
Definition select_video (m : manager) (monitor_id file_path : string) : call :=
  if String.eqb file_path "" then (None, m)
  else
    match dict_get (monitor_widgets m) monitor_id with
    | None => (Some (KeyError monitor_id), m)
    | Some w =>
        let m1 :=
          set_monitor_widgets
            (dict_set (monitor_widgets m) monitor_id
               {| path_label := file_path; fps_combo := fps_combo w;
                  widget_monitor_info := widget_monitor_info w |}) m in
        save_config
          (set_monitor_configs
             (dict_set (monitor_configs m1) monitor_id
                {| video_path := Some file_path;
                   monitor_info := Some (widget_monitor_info w);
                   cfg_fps := Some 30 |}) m1)
    end.

(** The combo box the variable [fps_combo] of [init_ui] names once the loop
    has ended: the one created last.  The lambda of line 247 reads that
    variable when it is called. *)
Definition closure_fps_combo (m : manager) : nat :=
  pred (List.length (combos m)).

(** The slot connected to combo box [c] at lines 247-248. *)
Definition fps_slot (m : manager) (c : nat) : call :=
  match nth_error (combos m) c with
  | Some cb => update_fps m (combo_mid cb) (closure_fps_combo m)
  | None => (None, m)
  end.

(** [setCurrentIndex(i)] on combo box [c], by the user or by the program. *)
Definition set_current_index (m : manager) (c i : nat) : call :=
  match nth_error (combos m) c with
  | Some cb =>
      if Nat.eqb i (combo_index cb) then (None, m)
      else
        fps_slot (set_combos
                    (list_update (combos m) c
                       {| combo_mid := combo_mid cb; combo_index := i |}) m) c
  | None => (None, m)
  end.

Fixpoint find_text (text : string) (items : list string) (i : nat)
  : option nat :=
  match items with
  | [] => None
  | t :: rest => if String.eqb t text then Some i else find_text text rest (S i)
  end.

(** [setCurrentText(text)] on a combo box that is not editable. *)
Definition set_current_text (m : manager) (c : nat) (text : string) : call :=
  match find_text text combo_items 0 with
  | Some i => set_current_index m c i
  | None => (None, m)
  end.

(** The body of the loop of [load_config] (lines 313-320) for one key. *)
Definition load_entry (m : manager) (monitor_id : string) : call :=
  match dict_get (monitor_configs m) monitor_id with
  | None => (None, m)
  | Some c =>
      match dict_get (monitor_widgets m) monitor_id with
      | None => (None, m)
      | Some w =>
          let m1 :=
            set_monitor_widgets
              (dict_set (monitor_widgets m) monitor_id
                 {| path_label := match video_path c with
                                  | Some p => p
                                  | None => "No video selected"
                                  end;
                    fps_combo := fps_combo w;
                    widget_monitor_info := widget_monitor_info w |}) m in
          match set_current_text m1 (fps_combo w)
                  (py_str (match cfg_fps c with Some f => f | None => 30 end))
          with
          | (Some e, m2) => (Some e, m2)
          | (None, m2) =>
              match monitor_info c, dict_get (monitor_widgets m2) monitor_id with
              | Some i, Some w2 =>
                  (None,
                   set_monitor_widgets
                     (dict_set (monitor_widgets m2) monitor_id
                        {| path_label := path_label w2;
                           fps_combo := fps_combo w2;
                           widget_monitor_info := i |}) m2)
              | None, _ => (Some (KeyError "monitor_info"), m2)
              | Some _, None => (None, m2)
              end
          end
      end
  end.

Fixpoint load_entries (m : manager) (keys : list string) : call :=
  match keys with
  | [] => (None, m)
  | k :: rest =>
      match load_entry m k with
      | (Some e, m') => (Some e, m')
      | (None, m') => load_entries m' rest
      end
  end.

(** [load_config] (lines 307-320). *)
Definition load_config (m : manager) : call :=
  match config_file m with
  | None => (None, m)
  | Some data =>
      load_entries (set_monitor_configs data m) (map fst data)
  end.

(** The loop of [init_ui] (lines 220-265), one monitor. *)
Definition add_monitor (m : manager) (mon : monitor) : manager :=
  let monitor_id := String.append "monitor_" (py_str (handle mon)) in
  set_monitor_widgets
    (dict_set (monitor_widgets m) monitor_id
       {| path_label := "No video selected";
          fps_combo := List.length (combos m);
          widget_monitor_info := mon |})
    (set_combos (combos m ++ [ {| combo_mid := monitor_id;
                                   combo_index := 0 |} ]) m).

(** [__init__]: no configuration, [init_ui], then [load_config]. *)
Definition init_ui (ds : list display) (file : option (list (string * config)))
  : manager :=
  fold_left add_monitor (get_monitors ds)
            {| monitor_configs := []; monitor_widgets := [];
               combos := []; config_file := file |}.

Definition new_manager (ds : list display)
           (file : option (list (string * config))) : call :=
  load_config (init_ui ds file).

(** What the user does in the window. *)
Inductive action :=
| SelectVideo (monitor_id file_path : string)
| ChooseRate (c i : nat).

Definition act (m : manager) (a : action) : call :=
  match a with
  | SelectVideo monitor_id file_path => select_video m monitor_id file_path
  | ChooseRate c i => set_current_index m c i
  end.

Fixpoint acts (m : manager) (l : list action) : call :=
  match l with
  | [] => (None, m)
  | a :: rest =>
      match act m a with
      | (Some e, m') => (Some e, m')
      | (None, m') => acts m' rest
      end
  end.

(** An entry as [select_video] writes it: a non-empty path, the monitor and
    a rate. *)
Definition full_entry (c : config) : Prop :=
  (exists p, video_path c = Some p /\ p <> "") /\
  monitor_info c <> None /\ cfg_fps c <> None.

(** The window after any number of actions on a first start: what is
    configured is complete, keyed by monitors of the window, and is what the
    file holds. *)
Definition window_ok (m : manager) : Prop :=
  NoDup (map fst (monitor_configs m)) /\
  (forall k c, In (k, c) (monitor_configs m) -> full_entry c) /\
  (forall k, In k (map fst (monitor_configs m)) ->
             In k (map fst (monitor_widgets m))) /\
  (forall cb, In cb (combos m) ->
              (combo_index cb < 4)%nat /\
              In (combo_mid cb) (map fst (monitor_widgets m))) /\
  (monitor_configs m = [] \/ config_file m = Some (monitor_configs m)).

(** Two monitors, as [init_ui] finds them on the sample desktop. *)
Definition sample_window : manager := init_ui two_displays None.

Definition saved_rates : list (string * config) :=
  [ ("monitor_65537", assignment "clip.mp4" primary_monitor 60);
    ("monitor_65539", assignment "clip.mp4" secondary_monitor 60) ].

(** Which video goes to which monitor, whatever the rate. *)
Definition assignment_view (kc : string * config)
  : string * option string * option monitor :=
  (fst kc, video_path (snd kc), monitor_info (snd kc)).

(** An entry that [save_config] can write. *)
Definition writable (c : config) : Prop :=
  video_path c <> None /\ monitor_info c <> None.

(** An action the window offers: a button exists for every widget, and a
    combo box has four items. *)
Definition offered (m : manager) (a : action) : Prop :=
  match a with
  | SelectVideo monitor_id _ => In monitor_id (map fst (monitor_widgets m))
  | ChooseRate _ i => (i < 4)%nat
  end.

(** The first monitor has a video at 60; both combo boxes show 24. *)
Definition window_with_video : manager :=
  set_config_file
    (Some [("monitor_65537", assignment "clip.mp4" primary_monitor 60)])
    (set_monitor_configs
       [("monitor_65537", assignment "clip.mp4" primary_monitor 60)]
       sample_window).


(** What lines 324-328 write for an entry that has its path and its
    monitor: the entry itself, with the rate 30 when it has none. *)
Definition saved_entry (c : config) : config :=
  {| video_path := video_path c;
     monitor_info := monitor_info c;
     cfg_fps := Some (match cfg_fps c with
                      | Some f => f
                      | None => 30
                      end) |}.

(** Both monitors have a video; the first has no rate, the second 60. *)
Definition unrated_window : manager :=
  set_monitor_configs
    [ ("monitor_65537",
       {| video_path := Some "clip.mp4";
          monitor_info := Some primary_monitor; cfg_fps := None |});
      ("monitor_65539", assignment "clip.mp4" secondary_monitor 60) ]
    sample_window.
(** ** Properties of the bounding box *)

Lemma fold_max_spec (t : list Z) (a : Z) :
  is_max (a :: t) (fold_left Z.max t a).
Proof.
  revert a; induction t as [|b t IH]; intro a; simpl fold_left.
  - split; [now left | intros u [<- | []]; lia].
  - destruct (IH (Z.max a b)) as [Hin Hub]. split.
    + destruct Hin as [Heq | Hin].
      * rewrite <- Heq.
        destruct (Z.max_spec a b) as [[_ ->] | [_ ->]];
          [right; now left | now left].
      * right; now right.
    + intros u [<- | [<- | Hu]].
      * specialize (Hub (Z.max a b) (or_introl eq_refl)); lia.
      * specialize (Hub (Z.max a b) (or_introl eq_refl)); lia.
      * apply Hub; now right.
Qed.

Lemma fold_min_spec (t : list Z) (a : Z) :
  is_min (a :: t) (fold_left Z.min t a).
Proof.
  revert a; induction t as [|b t IH]; intro a; simpl fold_left.
  - split; [now left | intros u [<- | []]; lia].
  - destruct (IH (Z.min a b)) as [Hin Hlb]. split.
    + destruct Hin as [Heq | Hin].
      * rewrite <- Heq.
        destruct (Z.min_spec a b) as [[_ ->] | [_ ->]];
          [now left | right; now left].
      * right; now right.
    + intros u [<- | [<- | Hu]].
      * specialize (Hlb (Z.min a b) (or_introl eq_refl)); lia.
      * specialize (Hlb (Z.min a b) (or_introl eq_refl)); lia.
      * apply Hlb; now right.
Qed.

Lemma py_max_spec (l : list Z) :
  l <> [] -> exists v, py_max l = Some v /\ is_max l v.
Proof.
  destruct l as [|a t]; [congruence | intros _].
  exists (fold_left Z.max t a); split; [reflexivity | apply fold_max_spec].
Qed.

Lemma py_min_spec (l : list Z) :
  l <> [] -> exists v, py_min l = Some v /\ is_min l v.
Proof.
  destruct l as [|a t]; [congruence | intros _].
  exists (fold_left Z.min t a); split; [reflexivity | apply fold_min_spec].
Qed.

Lemma is_max_unique (l : list Z) (u v : Z) :
  is_max l u -> is_max l v -> u = v.
Proof.
  intros [Hu Hu'] [Hv Hv']. specialize (Hu' _ Hv). specialize (Hv' _ Hu). lia.
Qed.

(** Subtracting the origin from every far edge shifts the greatest one. *)
Lemma is_max_shift {A : Type} (f : A -> Z) (c : Z) (l : list A) (v : Z) :
  is_max (map f l) v -> is_max (map (fun a => f a - c) l) (v - c).
Proof.
  intros [Hin Hub]. split.
  - apply in_map_iff in Hin. destruct Hin as [a [<- Ha]].
    apply in_map_iff. now exists a.
  - intros u Hu. apply in_map_iff in Hu. destruct Hu as [a [<- Ha]].
    assert (f a <= v) by (apply Hub, in_map_iff; now exists a). lia.
Qed.

Lemma py_max_shift {A : Type} (f : A -> Z) (c : Z) (l : list A) (v : Z) :
  py_max (map f l) = Some v ->
  py_max (map (fun a => f a - c) l) = Some (v - c).
Proof.
  intro Hv.
  assert (Hne : l <> []) by (intro; subst; discriminate).
  assert (Hm : is_max (map f l) v).
  { destruct (py_max_spec (l := map f l)) as [v' [Hv' Hmax]].
    - destruct l; [congruence | discriminate].
    - congruence. }
  destruct (py_max_spec (l := map (fun a => f a - c) l)) as [w [Hw Hmax]].
  - destruct l; [congruence | discriminate].
  - rewrite Hw. f_equal.
    eapply is_max_unique; [exact Hmax | now apply is_max_shift].
Qed.

(** C4. For every non-empty monitor list the bounding box is computed
    (nothing is raised), its origin is the least x and the least y, its width
    is the greatest x + width minus the least x, and its height is the
    greatest y + height minus the least y, over all monitors. *)
Theorem bounding_box_extent (monitors : list monitor) :
  monitors <> [] ->
  exists g max_r min_l max_b min_t,
    bounding_box monitors = inr g /\
    is_max (map (fun m => x m + width m) monitors) max_r /\
    is_min (map x monitors) min_l /\
    is_max (map (fun m => y m + height m) monitors) max_b /\
    is_min (map y monitors) min_t /\
    min_x g = min_l /\ min_y g = min_t /\
    total_width g = max_r - min_l /\
    total_height g = max_b - min_t.
Proof.
  intro Hne.
  assert (Hmap : forall f : monitor -> Z, map f monitors <> []).
  { intros f; destruct monitors; [congruence | discriminate]. }
  destruct (py_min_spec (Hmap x)) as [mx [Hmx Hminx]].
  destruct (py_min_spec (Hmap y)) as [my [Hmy Hminy]].
  destruct (py_max_spec (Hmap (fun m => x m + width m))) as [r [Hr Hmaxr]].
  destruct (py_max_spec (Hmap (fun m => y m + height m))) as [b [Hb Hmaxb]].
  exists {| min_x := mx; min_y := my;
            total_width := r - mx; total_height := b - my |}, r, mx, b, my.
  unfold bounding_box. rewrite Hmx, Hmy.
  rewrite (py_max_shift (fun m => x m + width m) mx monitors Hr).
  rewrite (py_max_shift (fun m => y m + height m) my monitors Hb).
  simpl. repeat split; try assumption; try apply Hminx; try apply Hminy;
    try apply Hmaxr; try apply Hmaxb.
Qed.

(** ** Reasoning about computations *)

Lemma maintains_ret {A : Type} (I : state -> Prop) (a : A) :
  maintains I (ret a).
Proof. intros s H; exact H. Qed.

Lemma maintains_raise {A : Type} (I : state -> Prop) (e : exn) :
  maintains I (@raise A e).
Proof. intros s H; exact H. Qed.

Lemma maintains_get {A : Type} (I : state -> Prop) (f : state -> A) :
  maintains I (get f).
Proof. intros s H; exact H. Qed.

Lemma maintains_bind {A B : Type} (I : state -> Prop) (m : M A) (k : A -> M B) :
  maintains I m -> (forall a, maintains I (k a)) -> maintains I (bind m k).
Proof.
  intros Hm Hk s Hs. unfold bind. specialize (Hm s Hs).
  destruct (m s) as [[a | e |] s']; simpl in *; auto.
  now apply Hk.
Qed.

Lemma maintains_may_fail (I : state -> Prop) (f : option exn) :
  maintains I (may_fail f).
Proof. destruct f; [apply maintains_raise | apply maintains_ret]. Qed.

Lemma maintains_modify (I : state -> Prop) (f : state -> state) :
  (forall s, I s -> I (f s)) -> maintains I (modify f).
Proof. intros H s Hs; simpl; auto. Qed.

Lemma bind_ok {A B : Type} (m : M A) (k : A -> M B) (s s' : state) (a : A) :
  m s = (Ok a, s') -> bind m k s = k a s'.
Proof. intro H; unfold bind; now rewrite H. Qed.

(** ** Counting events *)

Lemma count_app (p : event -> bool) (l1 l2 : list event) :
  count p (l1 ++ l2) = (count p l1 + count p l2)%nat.
Proof. unfold count; now rewrite filter_app, length_app. Qed.

Lemma count_rev (p : event -> bool) (l : list event) :
  count p (rev l) = count p l.
Proof.
  induction l as [|a l IH]; [reflexivity|].
  simpl rev. rewrite count_app, IH. unfold count; simpl.
  destruct (p a); simpl; lia.
Qed.

Lemma count_cons (p : event -> bool) (a : event) (l : list event) :
  count p (a :: l) = ((if p a then 1 else 0) + count p l)%nat.
Proof. unfold count; simpl; destruct (p a); reflexivity. Qed.

Lemma count_none (p : event -> bool) (l : list event) :
  (forall ev, In ev l -> p ev = false) -> count p l = O.
Proof.
  induction l as [|a l IH]; intro H; [reflexivity|].
  rewrite count_cons, (H a (or_introl eq_refl)), IH; [reflexivity|].
  intros; apply H; now right.
Qed.

(** ** Locator failure *)

(** C8. When [find_workerw] yields nothing usable, the only thing the
    session does is to report the error: no drawing call, no capture, no
    iteration of the loop, and the thread body returns. *)
Theorem locator_failure_aborts (E : env) (cfg : list (string * config))
        (fuel : nat) :
  truthy (find_workerw (windows E)) = false ->
  finished (run E cfg fuel) = true /\
  history (run E cfg fuel) = [EvError could_not_find] /\
  ticks (snd (run E cfg fuel)) = O /\
  caps (snd (run E cfg fuel)) = [] /\
  decoders (snd (run E cfg fuel)) = [] /\
  (forall r, acquired r (history (run E cfg fuel)) = O).
Proof.
  intro H.
  assert (Hrun : run E cfg fuel =
                 (Ok tt, set_trace [EvError could_not_find]
                           (set_worker_w (find_workerw (windows E)) init_state))).
  { unfold run, try_block, bind, modify, get. simpl. rewrite H. simpl.
    reflexivity. }
  rewrite Hrun. repeat split; try reflexivity.
  intros []; reflexivity.
Qed.

(** ** Invariants of the playback loop

    A property of the state that no loop event, no decoder step and no
    drawing step disturbs holds throughout [playback]. *)
Section LoopInvariant.

Variable E : env.
Variable I : state -> Prop.

Hypothesis I_trace :
  forall s ev, loop_event ev = true -> I s -> I (set_trace (ev :: trace s) s).
Hypothesis I_decoders :
  forall s ds, List.length ds = List.length (decoders s) ->
               I s -> I (set_decoders ds s).
Hypothesis I_reads : forall s n, I s -> I (set_reads n s).
Hypothesis I_canvas : forall s c, I s -> I (set_canvas c s).
Hypothesis I_desktop : forall s d, I s -> I (set_desktop d s).
Hypothesis I_clock : forall s n, I s -> I (set_clock_calls n s).
Hypothesis I_ticks : forall s n, I s -> I (set_ticks n s).

Lemma length_list_update {A : Type} (l : list A) (i : nat) (v : A) :
  List.length (list_update l i v) = List.length l.
Proof.
  revert i; induction l as [|a l IH]; intros [|i]; simpl; auto.
Qed.

Lemma loop_cap_read (c : nat) : maintains I (cap_read E c).
Proof.
  intros s Hs. unfold cap_read, advance.
  destruct (next_frame E c s); simpl.
  - destruct (nth_error (decoders s) c).
    + apply (I_trace (s := set_reads _ (set_decoders _ s))); [reflexivity|].
      apply I_reads, I_decoders; [apply length_list_update | exact Hs].
    + apply (I_trace (s := set_reads _ s)); [reflexivity|].
      now apply I_reads.
  - apply (I_trace (s := set_reads _ s)); [reflexivity|]. now apply I_reads.
Qed.

Lemma loop_cap_set_pos (c pos : nat) : maintains I (cap_set_pos c pos).
Proof.
  intros s Hs. unfold cap_set_pos. simpl.
  destruct (nth_error (decoders s) c).
  - apply (I_trace (s := set_decoders _ s)); [reflexivity|].
    apply I_decoders; [apply length_list_update | exact Hs].
  - now apply I_trace.
Qed.

Lemma loop_emit (ev : event) : loop_event ev = true -> maintains I (emit ev).
Proof. intros H s Hs. unfold emit, modify; simpl. now apply I_trace. Qed.

Lemma loop_time_time : maintains I (time_time E).
Proof. intros s Hs. unfold time_time; simpl. now apply I_clock. Qed.

Lemma loop_present (g : geometry) : maintains I (present E g).
Proof.
  intros s Hs. unfold present. destruct (bitblt_fault E (ticks s)); simpl.
  - apply (I_trace (s := set_trace _ s)); [reflexivity|].
    now apply I_trace.
  - apply (I_trace (s := set_desktop _ s)); [reflexivity|].
    now apply I_desktop.
Qed.

Lemma loop_load_fps (fps : option Z) : maintains I (load_fps fps).
Proof. destruct fps; [apply maintains_ret | apply maintains_raise]. Qed.

Ltac loop_steps :=
  repeat first
    [ apply maintains_bind; [| intro]
    | apply maintains_ret | apply maintains_raise | apply maintains_get
    | apply loop_cap_read | apply loop_cap_set_pos | apply loop_time_time
    | apply loop_present | apply loop_load_fps
    | apply loop_emit; reflexivity
    | apply maintains_modify; intros;
      first [apply I_canvas | apply I_ticks]; assumption
    | match goal with
      | |- maintains _ (if ?b then _ else _) => destruct b
      | |- maintains _ (match ?x with _ => _ end) => destruct x
      end ].

Lemma loop_draw_source (g : geometry) (data : cap_data) :
  maintains I (draw_source E g data).
Proof. unfold draw_source, blit, cap_get. loop_steps. Qed.

Lemma loop_draw_sources (g : geometry) (items : list (string * cap_data))
      (fps : option Z) :
  maintains I (draw_sources E g items fps).
Proof.
  revert fps; induction items as [|[k data] rest IH]; intro fps;
    simpl draw_sources; [apply maintains_ret|].
  apply maintains_bind; [apply loop_draw_source | intro; apply IH].
Qed.

Lemma loop_tick (g : geometry) (last_time : Q) (fps : option Z) :
  maintains I (tick E g last_time fps).
Proof.
  unfold tick, pace.
  repeat first [ apply loop_draw_sources
               | apply maintains_bind; [| intro] | progress loop_steps ].
Qed.

Lemma loop_playback (fuel : nat) (g : geometry) (last_time : Q)
      (fps : option Z) :
  maintains I (playback E fuel g last_time fps).
Proof.
  revert last_time fps; induction fuel as [|fuel IH];
    intros last_time fps s Hs; simpl playback;
    destruct (running E (ticks s) && negb (List.length (caps s) =? 0)%nat);
    simpl; try assumption.
  apply (@maintains_bind _ _ I (tick E g last_time fps)
           (fun r => playback E fuel g (fst r) (snd r)));
    [apply loop_tick | intro; apply IH | assumption].
Qed.

End LoopInvariant.

(** ** The drawing resources *)

Lemma same_resources_refl (s : state) : same_resources s s.
Proof. unfold same_resources; repeat split; reflexivity. Qed.

(** A step that leaves the five variables alone and adds only events that
    neither acquire nor release keeps the resources. *)
Lemma same_resources_step (s0 s s' : state) (evs : list event) :
  same_resources s0 s ->
  save_dc s' = save_dc s -> mfc_dc s' = mfc_dc s -> hwnd_dc s' = hwnd_dc s ->
  bmp s' = bmp s -> worker_w s' = worker_w s ->
  trace s' = evs ++ trace s ->
  (forall ev r, In ev evs -> acquires r ev = false /\ releases r ev = false) ->
  same_resources s0 s'.
Proof.
  intros (H1 & H2 & H3 & H4 & H5 & H6) E1 E2 E3 E4 E5 Et Hq.
  unfold same_resources. rewrite E1, E2, E3, E4, E5, Et.
  repeat split; try assumption.
  - unfold acquired. rewrite count_app, count_none; [apply H6|].
    intros ev Hev; apply (Hq ev r Hev).
  - unfold released. rewrite count_app, count_none; [apply H6|].
    intros ev Hev; apply (Hq ev r Hev).
Qed.

Ltac quiet_events :=
  let ev := fresh "ev" in
  let r := fresh "r" in
  let H := fresh "H" in
  intros ev r H; simpl in H;
  repeat match goal with
         | H : _ \/ _ |- _ => destruct H as [H | H]
         | H : False |- _ => destruct H
         end;
  subst; destruct r; split; reflexivity.

Ltac quiet evs :=
  match goal with
  | Hs : same_resources _ ?s |- same_resources _ _ =>
      apply (@same_resources_step _ s _ evs Hs);
      [reflexivity | reflexivity | reflexivity | reflexivity | reflexivity
       | reflexivity | quiet_events]
  end.

Section Quiet.

Variable E : env.
Variable s0 : state.

Lemma quiet_emit (ev : event) :
  (forall r, acquires r ev = false /\ releases r ev = false) ->
  maintains (same_resources s0) (emit ev).
Proof.
  intros Hq s Hs. unfold emit, modify; simpl.
  apply (@same_resources_step _ s _ [ev] Hs); try reflexivity.
  intros ev' r [<- | []]; apply Hq.
Qed.

Lemma quiet_time_time : maintains (same_resources s0) (time_time E).
Proof. intros s Hs. unfold time_time; simpl. quiet (@nil event). Qed.

Lemma quiet_open_sources (items : list (string * config)) (fps : option Z) :
  maintains (same_resources s0) (open_sources E items fps).
Proof.
  revert fps; induction items as [|[monitor_id config] rest IH]; intro fps;
    simpl open_sources; [apply maintains_ret|].
  destruct (path_of config) as [path|]; [|apply IH].
  apply maintains_bind.
  { intros s Hs. unfold video_capture. simpl.
    quiet [EvVideoCapture (List.length (decoders s)) path
                          (is_some (videos E path))]. }
  intro c. apply maintains_bind; [apply maintains_get | intros []].
  - apply maintains_bind;
      [destruct (monitor_info config);
       [apply maintains_ret | apply maintains_raise]|].
    intro i. apply maintains_bind.
    { intros s Hs; simpl. quiet (@nil event). }
    intros _. apply maintains_bind; [apply maintains_get | intro v].
    apply maintains_bind; [|intros _; apply IH].
    apply quiet_emit. intros []; split; reflexivity.
  - apply maintains_bind; [|intros _; apply IH].
    apply quiet_emit. intros []; split; reflexivity.
Qed.

(** The loop acquires and releases nothing. *)
Lemma quiet_playback (fuel : nat) (g : geometry) (last_time : Q)
      (fps : option Z) :
  maintains (same_resources s0) (playback E fuel g last_time fps).
Proof.
  apply loop_playback; try (intros s v Hs; exact Hs).
  - intros s ev Hev Hs.
    apply (@same_resources_step _ s _ [ev] Hs); try reflexivity.
    intros ev' r [<- | []]. destruct ev; try discriminate;
      destruct r; split; reflexivity.
  - intros s ds _ Hs; exact Hs.
Qed.

End Quiet.

(** *** Iterations are counted, and only the loop can stay busy *)

Lemma never_busy_bind {A B : Type} (m : M A) (k : A -> M B) :
  never_busy m -> (forall a, never_busy (k a)) -> never_busy (bind m k).
Proof.
  intros Hm Hk s. unfold bind. specialize (Hm s).
  destruct (m s) as [[a | e |] s']; simpl in *;
    [apply Hk | discriminate | congruence].
Qed.

Lemma never_busy_ret {A : Type} (a : A) : never_busy (ret a).
Proof. intros s; discriminate. Qed.

Lemma never_busy_raise {A : Type} (e : exn) : never_busy (@raise A e).
Proof. intros s; discriminate. Qed.

Lemma never_busy_get {A : Type} (f : state -> A) : never_busy (get f).
Proof. intros s; discriminate. Qed.

Lemma never_busy_modify (f : state -> state) : never_busy (modify f).
Proof. intros s; discriminate. Qed.

Lemma never_busy_emit (ev : event) : never_busy (emit ev).
Proof. intros s; discriminate. Qed.

Lemma never_busy_may_fail (f : option exn) : never_busy (may_fail f).
Proof. destruct f; intros s; discriminate. Qed.

Create HintDb busy.
#[local] Hint Resolve never_busy_ret never_busy_raise never_busy_get
  never_busy_modify never_busy_emit never_busy_may_fail : busy.

Ltac busy_steps :=
  repeat first
    [ apply never_busy_bind; [| intro]
    | solve [auto with busy]
    | solve [intros ?; unfold video_capture, cap_read, cap_set_pos,
             cap_release, time_time, present, is_opened, cap_get, load_fps;
             repeat match goal with
                    | |- context [match ?x with _ => _ end] => destruct x
                    end; simpl; discriminate]
    | match goal with
      | |- never_busy (if ?b then _ else _) => destruct b
      | |- never_busy (match ?x with _ => _ end) => destruct x
      end ].

Section Termination.

Variable E : env.

Lemma never_busy_open_sources (items : list (string * config))
      (fps : option Z) :
  never_busy (open_sources E items fps).
Proof.
  revert fps; induction items as [|[monitor_id config] rest IH]; intro fps;
    simpl open_sources; busy_steps.
Qed.

Lemma never_busy_draw_sources (g : geometry)
      (items : list (string * cap_data)) (fps : option Z) :
  never_busy (draw_sources E g items fps).
Proof.
  revert fps; induction items as [|[k data] rest IH]; intro fps;
    simpl draw_sources; [auto with busy|].
  apply never_busy_bind; [|intro; apply IH].
  unfold draw_source, blit. busy_steps.
Qed.

Lemma never_busy_tick (g : geometry) (last_time : Q) (fps : option Z) :
  never_busy (tick E g last_time fps).
Proof.
  unfold tick, pace.
  repeat first [ apply never_busy_draw_sources
               | apply never_busy_bind; [| intro] | progress busy_steps ].
Qed.

Lemma never_busy_acquire : never_busy (acquire E).
Proof. unfold acquire. busy_steps. Qed.

(** Steps that leave the iteration counter alone. *)
Ltac keeps_ticks :=
  repeat first
    [ apply maintains_bind; [| intro]
    | solve [auto using maintains_ret, maintains_raise, maintains_get,
                        maintains_may_fail]
    | solve [intros ? ?; unfold video_capture, cap_read, advance, cap_set_pos,
             cap_release, time_time, present, is_opened, cap_get, load_fps,
             emit, modify;
             repeat match goal with
                    | |- context [match ?x with _ => _ end] => destruct x
                    end; simpl; assumption]
    | match goal with
      | |- maintains _ (if ?b then _ else _) => destruct b
      | |- maintains _ (match ?x with _ => _ end) => destruct x
      end ].

Lemma draw_sources_ticks (k : nat) (g : geometry)
      (items : list (string * cap_data)) (fps : option Z) :
  maintains (fun s => ticks s = k) (draw_sources E g items fps).
Proof.
  revert fps; induction items as [|[key data] rest IH]; intro fps;
    simpl draw_sources; [apply maintains_ret|].
  apply maintains_bind; [|intro; apply IH].
  unfold draw_source, blit. keeps_ticks.
Qed.

Lemma acquire_ticks (k : nat) :
  maintains (fun s => ticks s = k) (acquire E).
Proof. unfold acquire. keeps_ticks. Qed.

Lemma open_sources_ticks (k : nat) (items : list (string * config))
      (fps : option Z) :
  maintains (fun s => ticks s = k) (open_sources E items fps).
Proof.
  revert fps; induction items as [|[monitor_id config] rest IH]; intro fps;
    simpl open_sources; keeps_ticks; apply IH.
Qed.

Lemma tick_ticks (g : geometry) (last_time : Q) (fps : option Z) (s : state) :
  ticks (snd (tick E g last_time fps s)) = S (ticks s).
Proof.
  unfold tick. rewrite (@bind_ok _ _ _ _ s (set_ticks (S (ticks s)) s) tt);
    [|reflexivity].
  assert (H : maintains (fun s' => ticks s' = S (ticks s))
                (modify (fun s => set_canvas
                   (fill_solid_rect g 0 0 (total_width g) (total_height g)
                      black (canvas s)) s) ;;
                 emit (EvFillSolidRect 0 0 (total_width g) (total_height g)
                         black) ;;
                 items <- get caps ;;
                 fps <- draw_sources E g items fps ;;
                 present E g ;;
                 now <- time_time E ;;
                 last_time <- (if Qle_bool 1 (now - last_time) then
                                 t <- time_time E ;;
                                 f <- load_fps fps ;;
                                 emit (EvFpsUpdated f) ;;
                                 ret t
                               else ret last_time) ;;
                 pace fps ;;
                 ret (last_time, fps))).
  { unfold pace.
    repeat first [ apply draw_sources_ticks
                 | apply maintains_bind; [| intro] | progress keeps_ticks ]. }
  apply H. reflexivity.
Qed.

(** Once the flag is seen cleared at the [n]-th test of the loop guard,
    [fuel] iterations are enough to watch the loop end. *)
Lemma playback_stops (n : nat) (Hn : running E n = false) (fuel : nat) :
  forall g last_time fps s,
    (ticks s <= n)%nat -> (n - ticks s <= fuel)%nat ->
    fst (playback E fuel g last_time fps s) <> Busy.
Proof.
  induction fuel as [|fuel IH]; intros g last_time fps s Hle Hfuel;
    simpl playback.
  - assert (ticks s = n) by lia. subst n. rewrite Hn. simpl. discriminate.
  - destruct (running E (ticks s)) eqn:Hrun; simpl; [|discriminate].
    destruct (negb (List.length (caps s) =? 0)%nat); [|simpl; discriminate].
    assert (ticks s <> n) by (intro; subst; congruence).
    unfold bind.
    pose proof (tick_ticks g last_time fps s) as Ht.
    pose proof (never_busy_tick g last_time fps s) as Hb.
    destruct (tick E g last_time fps s) as [[r | e |] s']; simpl in *;
      [|discriminate | congruence].
    apply IH; lia.
Qed.

End Termination.

(** *** Release on every exit path *)

Lemma accounted_same (s1 s : state) :
  resources_accounted s1 -> same_resources s1 s -> resources_accounted s.
Proof.
  intros Ha (H1 & H2 & H3 & H4 & H5 & H6) r.
  destruct (Ha r) as [Hr Hq]. destruct (H6 r) as [Hacq Hrel].
  rewrite Hrel, Hacq, Hr, Hq. split; [reflexivity|].
  destruct r; unfold held; now rewrite ?H1, ?H2, ?H3, ?H4, ?H5.
Qed.

Section Release.

Variable E : env.
Variable cfg : list (string * config).

(** Lines 98-110, whatever they raise, leave every acquisition bound to
    the variable that the [finally] block tests. *)
Lemma acquire_accounted (w : option Z) :
  truthy w = true ->
  resources_accounted (snd (acquire E (set_worker_w w init_state))).
Proof.
  intros Hw r. unfold acquire, bind, get, may_fail, emit, modify, ret, raise.
  destruct (window_dc_fault E); simpl; [destruct r; split; reflexivity|].
  destruct (dc_from_handle_fault E); simpl;
    [destruct r; unfold released, acquired, count, held; simpl;
     rewrite ?Hw, ?andb_true_r; destruct (window_dc E =? 0);
     split; reflexivity|].
  destruct (compatible_dc_fault E); simpl;
    [destruct r; unfold released, acquired, count, held; simpl;
     rewrite ?Hw, ?andb_true_r; destruct (window_dc E =? 0);
     split; reflexivity|].
  destruct (bounding_box (get_monitors (displays E))); simpl;
    [destruct r; unfold released, acquired, count, held; simpl;
     rewrite ?Hw, ?andb_true_r; destruct (window_dc E =? 0);
     split; reflexivity|].
  destruct (compatible_bitmap_fault E); simpl;
    destruct r; unfold released, acquired, count, held; simpl;
    rewrite ?Hw, ?andb_true_r; destruct (window_dc E =? 0);
    split; reflexivity.
Qed.

Lemma try_block_accounted (fuel : nat) :
  resources_accounted (snd (try_block E cfg fuel init_state)).
Proof.
  unfold try_block.
  rewrite (@bind_ok _ _ _ _ init_state
             (set_worker_w (find_workerw (windows E)) init_state) tt);
    [|reflexivity].
  rewrite (@bind_ok _ _ _ _ _
             (set_worker_w (find_workerw (windows E)) init_state)
             (find_workerw (windows E))); [|reflexivity].
  destruct (truthy (find_workerw (windows E))) eqn:Hw; unfold negb; cbv iota beta.
  - pose proof (acquire_accounted _ Hw) as Hacq.
    unfold bind at 1.
    destruct (acquire E (set_worker_w (find_workerw (windows E)) init_state))
      as [[g | e |] s1]; simpl in Hacq |- *; try assumption.
    apply (accounted_same Hacq).
    apply (@maintains_bind _ _ (same_resources s1)
             (open_sources E cfg None)
             (fun fps => last_time <- time_time E ;;
                         playback E fuel g last_time fps)).
    + apply quiet_open_sources.
    + intro fps. apply maintains_bind; [apply quiet_time_time|].
      intro lt. apply quiet_playback.
    + apply same_resources_refl.
  - intro r. unfold emit, modify; simpl.
    destruct r; unfold released, acquired, count, held; simpl; auto.
Qed.

Lemma quiet_release_all (s0 : state) (items : list (string * cap_data)) :
  maintains (same_resources s0) (release_all items).
Proof.
  induction items as [|[k data] rest IH]; simpl release_all;
    [apply maintains_ret|].
  apply maintains_bind; [|intro; apply IH].
  intros s Hs. unfold cap_release.
  destruct (nth_error (decoders s) (cap data)); simpl;
    quiet [EvRelease (cap data)].
Qed.

Lemma release_all_ok (items : list (string * cap_data)) (s : state) :
  exists s', release_all items s = (Ok tt, s').
Proof.
  revert s; induction items as [|[k data] rest IH]; intro s;
    simpl release_all; [now exists s|].
  unfold bind, cap_release. apply IH.
Qed.

(** The [finally] block: the captures first, then the drawing calls. *)
Lemma finally_block_eq (s : state) :
  finally_block s =
  (Ok tt, set_trace (release_events (snd (release_all (caps s) s)) ++
                     trace (snd (release_all (caps s) s)))
                    (snd (release_all (caps s) s))).
Proof.
  unfold finally_block.
  rewrite (@bind_ok _ _ _ _ s s (caps s)); [|reflexivity].
  destruct (release_all_ok (caps s) s) as [s1 Hs1].
  rewrite (bind_ok _ _ _ Hs1), Hs1. simpl snd.
  unfold bind, get, emit, modify, ret, release_events.
  destruct s1 as [c sd md hd b w tr ds cv dk rd ck tk].
  destruct sd, md, b; simpl;
    destruct (truthy hd && truthy w); reflexivity.
Qed.

(** The [finally] block releases exactly what is held. *)
Lemma finally_balanced (s : state) :
  resources_accounted s ->
  forall r, acquired r (trace (snd (finally_block s))) =
            released r (trace (snd (finally_block s))).
Proof.
  intros Ha r. rewrite finally_block_eq.
  pose proof (@quiet_release_all s (caps s) s (same_resources_refl s)) as Hq.
  pose proof (accounted_same Ha Hq) as Ha'.
  destruct (Ha' r) as [Hrel Hacq].
  set (s1 := snd (release_all (caps s) s)) in *.
  simpl snd. simpl trace. unfold acquired, released in *.
  rewrite !count_app, Hrel, Hacq.
  unfold release_events, held, count.
  destruct (save_dc s1), (mfc_dc s1), (bmp s1) as [[|]|],
    (truthy (hwnd_dc s1) && truthy (worker_w s1)); destruct r; reflexivity.
Qed.

Lemma finally_ok (s : state) : fst (finally_block s) = Ok tt.
Proof. now rewrite finally_block_eq. Qed.

(** Every run whose thread body has returned released what it acquired. *)
Lemma run_balanced (fuel : nat) :
  finished (run E cfg fuel) = true ->
  forall r, acquired r (history (run E cfg fuel)) =
            released r (history (run E cfg fuel)).
Proof.
  intros Hfin r. unfold history, acquired, released.
  rewrite !count_rev. revert Hfin. unfold run.
  pose proof (try_block_accounted fuel) as Ha.
  destruct (try_block E cfg fuel init_state) as [[[] | e |] s]; simpl in Ha.
  - intros _. now apply finally_balanced.
  - intros _. unfold bind, emit, modify. simpl.
    apply finally_balanced. intro r'. destruct (Ha r') as [Hrel Hacq].
    unfold released, acquired in *. simpl trace.
    rewrite !count_cons. destruct r'; simpl; rewrite Hrel, Hacq; split;
      reflexivity.
  - discriminate.
Qed.

(** A run stays busy only inside the loop, and not once the flag is seen
    cleared. *)
Lemma stop_finishes (fuel n : nat) :
  (n <= fuel)%nat -> running E n = false ->
  finished (run E cfg fuel) = true.
Proof.
  intros Hle Hn.
  assert (Hb : fst (try_block E cfg fuel init_state) <> Busy).
  { unfold try_block.
    rewrite (@bind_ok _ _ _ _ init_state
               (set_worker_w (find_workerw (windows E)) init_state) tt);
      [|reflexivity].
    rewrite (@bind_ok _ _ _ _ _
               (set_worker_w (find_workerw (windows E)) init_state)
               (find_workerw (windows E))); [|reflexivity].
    destruct (negb (truthy (find_workerw (windows E)))); [discriminate|].
    unfold bind at 1.
    pose proof (never_busy_acquire E
                  (set_worker_w (find_workerw (windows E)) init_state)) as Hq.
    pose proof (@acquire_ticks E O
                  (set_worker_w (find_workerw (windows E)) init_state)
                  eq_refl) as Ht1.
    destruct (acquire E (set_worker_w (find_workerw (windows E)) init_state))
      as [[g | e |] s1]; simpl in Hq, Ht1 |- *;
      [| discriminate | congruence].
    unfold bind at 1.
    pose proof (never_busy_open_sources E cfg None s1) as Ho.
    pose proof (@open_sources_ticks E O cfg None s1 Ht1) as Ht2.
    destruct (open_sources E cfg None s1) as [[fps | e |] s2];
      simpl in Ho, Ht2 |- *; [| discriminate | congruence].
    unfold bind, time_time.
    apply (@playback_stops E n Hn fuel g _ fps); simpl; lia. }
  unfold finished, run.
  destruct (try_block E cfg fuel init_state) as [[[] | e |] s]; simpl in Hb.
  - now rewrite finally_ok.
  - unfold bind, emit, modify. now rewrite finally_ok.
  - congruence.
Qed.

End Release.


(** ** The captures *)

Lemma same_sources_refl (s : state) : same_sources s s.
Proof.
  repeat split. exists []. split; [reflexivity | intros ev []].
Qed.

Lemma loop_event_not_source (ev : event) :
  loop_event ev = true -> source_event ev = false.
Proof. destruct ev; simpl; congruence. Qed.

Lemma same_sources_emit (s0 s : state) (ev : event) :
  source_event ev = false ->
  same_sources s0 s -> same_sources s0 (set_trace (ev :: trace s) s).
Proof.
  intros Hev (Hc & Hl & evs & Ht & Hq). repeat split; try assumption.
  exists (ev :: evs). split; [simpl; now rewrite Ht|].
  intros ev' [<- | Hin]; auto.
Qed.

Lemma source_event_release (c : nat) (ev : event) :
  source_event ev = false -> is_release c ev = false.
Proof. destruct ev; simpl; congruence. Qed.

Lemma sound_same (s0 s : state) :
  caps_sound s0 -> same_sources s0 s -> caps_sound s.
Proof.
  intros (Hnd & Hlt & Hev & Hfail & Hrel) (Hc & Hl & evs & Ht & Hq).
  unfold caps_sound. rewrite Hc, Hl, Ht.
  assert (Hin : forall c p o, In (EvVideoCapture c p o) (evs ++ trace s0) ->
                              In (EvVideoCapture c p o) (trace s0)).
  { intros c p o H. apply in_app_or in H. destruct H as [H | H]; [|exact H].
    apply Hq in H. discriminate. }
  repeat split; auto.
  - intros c p o H. eapply Hev, Hin, H.
  - apply (Hfail c p), Hin, H.
  - apply in_or_app. right. apply (Hfail c p), Hin, H.
  - intro c. unfold release_count. rewrite count_app, count_none; [apply Hrel|].
    intros ev H. now apply source_event_release, Hq.
Qed.

Lemma registered_same (s0 s : state) :
  all_registered s0 -> same_sources s0 s -> all_registered s.
Proof.
  intros Hreg (Hc & Hl & evs & Ht & Hq) c p H. rewrite Hc. rewrite Ht in H.
  apply in_app_or in H. destruct H as [H | H]; [|now apply (Hreg c p)].
  apply Hq in H. discriminate.
Qed.

Section Sources.

Variable E : env.

Lemma acquire_same_sources (s0 : state) :
  maintains (same_sources s0) (acquire E).
Proof.
  unfold acquire.
  repeat first
    [ apply maintains_bind; [| intro]
    | apply maintains_ret | apply maintains_raise | apply maintains_get
    | apply maintains_may_fail
    | apply maintains_modify; intros s H;
      first [exact H | now apply same_sources_emit]
    | match goal with
      | |- maintains _ (match ?x with _ => _ end) => destruct x
      end ].
Qed.

Lemma playback_same_sources (s0 : state) (fuel : nat) (g : geometry)
      (last_time : Q) (fps : option Z) :
  maintains (same_sources s0) (playback E fuel g last_time fps).
Proof.
  apply loop_playback; try (intros; assumption).
  - intros s ev Hev H. now apply same_sources_emit, H;
      apply loop_event_not_source.
  - intros s ds Hlen (Hc & Hl & Hevs). repeat split; auto.
    simpl. now rewrite Hlen.
Qed.

Lemma time_same_sources (s0 : state) :
  maintains (same_sources s0) (time_time E).
Proof. intros s H; exact H. Qed.

End Sources.

(** *** Assignment into [caps] *)

Lemma cap_ids_dict_set (d : list (string * cap_data)) (k : string)
      (v : cap_data) (c : nat) :
  In c (cap_ids (dict_set d k v)) -> c = cap v \/ In c (cap_ids d).
Proof.
  induction d as [|[k' v'] d IH]; simpl.
  - intros [<- | []]; now left.
  - destruct (String.eqb k' k); simpl.
    + intros [<- | H]; [now left | right; now right].
    + intros [<- | H]; [right; now left|].
      destruct (IH H) as [-> | H']; [now left | right; now right].
Qed.

Lemma cap_ids_dict_set_new (d : list (string * cap_data)) (k : string)
      (v : cap_data) :
  In (cap v) (cap_ids (dict_set d k v)).
Proof.
  induction d as [|[k' v'] d IH]; simpl; [now left|].
  destruct (String.eqb k' k); simpl; [now left | now right].
Qed.

Lemma NoDup_dict_set (d : list (string * cap_data)) (k : string)
      (v : cap_data) :
  NoDup (cap_ids d) -> ~ In (cap v) (cap_ids d) ->
  NoDup (cap_ids (dict_set d k v)).
Proof.
  induction d as [|[k' v'] d IH]; simpl; intros Hnd Hin.
  - constructor; [intros [] | constructor].
  - inversion Hnd as [|? ? Hn Hd]; subst.
    destruct (String.eqb k' k); simpl.
    + constructor; [tauto | assumption].
    + constructor; [|apply IH; tauto].
      intro H. apply cap_ids_dict_set in H. destruct H as [H | H]; [|tauto].
      apply Hin. left. exact H.
Qed.

Lemma dict_set_fresh (d : list (string * cap_data)) (k : string)
      (v : cap_data) :
  ~ In k (map fst d) -> dict_set d k v = d ++ [(k, v)].
Proof.
  induction d as [|[k' v'] d IH]; simpl; intro H; [reflexivity|].
  destruct (String.eqb_spec k' k) as [-> | Hne]; [tauto|].
  f_equal. apply IH. tauto.
Qed.

(** *** Opening the sources keeps the captures sound *)

Lemma sound_opened (s s' : state) (k path : string) (data : cap_data)
      (d : decoder) (evs : list event) :
  caps_sound s ->
  cap data = List.length (decoders s) ->
  (caps s' = dict_set (caps s) k data \/ caps s' = caps s) ->
  decoders s' = decoders s ++ [d] ->
  trace s' = evs ++ EvVideoCapture (cap data) path true :: trace s ->
  (forall ev, In ev evs -> source_event ev = false) ->
  caps_sound s'.
Proof.
  intros (Hnd & Hlt & Hev & Hfail & Hrel) Hc Hcaps Hdec Htr Hq.
  assert (Hfresh : ~ In (cap data) (cap_ids (caps s))).
  { intro H. apply Hlt in H. lia. }
  assert (Hids : forall c, In c (cap_ids (caps s')) ->
                           c = cap data \/ In c (cap_ids (caps s))).
  { intros c H. destruct Hcaps as [Heq | Heq]; rewrite Heq in H;
      [now apply cap_ids_dict_set in H | now right]. }
  assert (Hin : forall c p o, In (EvVideoCapture c p o) (trace s') ->
                (c = cap data /\ o = true) \/ In (EvVideoCapture c p o) (trace s)).
  { intros c p o H. rewrite Htr in H. apply in_app_or in H.
    destruct H as [H | [H | H]]; [apply Hq in H; discriminate | | now right].
    inversion H; subst. now left. }
  unfold caps_sound. rewrite Hdec, length_app. simpl.
  repeat split.
  - destruct Hcaps as [-> | ->]; [now apply NoDup_dict_set | assumption].
  - intros c H. destruct (Hids c H) as [-> | H']; [lia|].
    apply Hlt in H'. lia.
  - intros c p o H. destruct (Hin c p o H) as [[-> _] | H']; [lia|].
    apply Hev in H'. lia.
  - intro H'. destruct (Hin c p false H) as [[_ Habs] | H0]; [discriminate|].
    destruct (Hids c H') as [-> | H1].
    + apply Hev in H0. lia.
    + now apply (Hfail c p).
  - destruct (Hin c p false H) as [[_ Habs] | H0]; [discriminate|].
    rewrite Htr. apply in_or_app. right. right. now apply (Hfail c p).
  - intro c. unfold release_count. rewrite Htr, count_app, count_cons.
    rewrite count_none; [apply Hrel|].
    intros ev H. now apply source_event_release, Hq.
Qed.

Lemma sound_not_opened (s s' : state) (path : string) (d : decoder) :
  caps_sound s ->
  caps s' = caps s ->
  decoders s' = decoders s ++ [d] ->
  trace s' = EvError (could_not_open path)
               :: EvVideoCapture (List.length (decoders s)) path false
               :: trace s ->
  caps_sound s'.
Proof.
  intros (Hnd & Hlt & Hev & Hfail & Hrel) Hcaps Hdec Htr.
  unfold caps_sound. rewrite Hcaps, Hdec, Htr, length_app. simpl.
  repeat split; auto.
  - intros c H. apply Hlt in H. lia.
  - intros c p o [H | [H | H]]; [discriminate | inversion H; lia |].
    apply Hev in H. lia.
  - destruct H as [H | [H | H]]; [discriminate | | now apply (Hfail c p)].
    inversion H; subst. intro H'. apply Hlt in H'. lia.
  - destruct H as [H | [H | H]]; [discriminate | |].
    + inversion H; subst. now left.
    + right. right. now apply (Hfail c p).
Qed.

Section OpenSources.

Variable E : env.

Lemma nth_error_new (ds : list decoder) (d : decoder) :
  nth_error (ds ++ [d]) (List.length ds) = Some d.
Proof. now rewrite nth_error_app2, Nat.sub_diag by lia. Qed.

Lemma open_sources_sound (items : list (string * config)) (fps : option Z) :
  maintains caps_sound (open_sources E items fps).
Proof.
  revert fps; induction items as [|[monitor_id config] rest IH];
    intros fps s Hs; simpl open_sources; [exact Hs|].
  destruct (path_of config) as [path|]; [|now apply IH].
  unfold bind, video_capture, is_opened, get, modify, emit, cap_get, ret,
    raise. simpl. rewrite nth_error_new. simpl.
  destruct (videos E path) as [v|]; simpl.
  - destruct (monitor_info config) as [i|]; simpl.
    + apply IH.
      eapply (@sound_opened s _ monitor_id path
                {| cap := List.length (decoders s); info := i;
                   fps := match cfg_fps config with
                          | Some f => f
                          | None => 30
                          end |} _ [EvFpsUpdated _] Hs);
        try reflexivity.
      * left; reflexivity.
      * intros ev [<- | []]; reflexivity.
    + eapply (@sound_opened s _ monitor_id path
                {| cap := List.length (decoders s);
                   info := {| handle := 0; x := 0; y := 0; width := 0;
                              height := 0; is_primary := false;
                              device := "" |};
                   fps := 0 |} _ [] Hs);
        try reflexivity.
      * right; reflexivity.
      * intros ev [].
  - apply IH. eapply (@sound_not_opened s _ path _ Hs); reflexivity.
Qed.

(** With distinct keys and the monitor present in every assignment that
    names a video, every capture that opens ends up in [caps]. *)
Lemma open_sources_registered (items : list (string * config))
      (fps : option Z) (s : state) :
  NoDup (map fst items) ->
  (forall k, In k (map fst items) -> ~ In k (map fst (caps s))) ->
  (forall k c, In (k, c) items -> path_of c <> None ->
               monitor_info c <> None) ->
  all_registered s ->
  all_registered (snd (open_sources E items fps s)).
Proof.
  revert fps s; induction items as [|[monitor_id config] rest IH];
    intros fps s Hnd Hkeys Hinfo Hs; simpl open_sources; [exact Hs|].
  inversion Hnd as [|? ? Hk Hnd']; subst.
  assert (Hinfo' : forall k c, In (k, c) rest -> path_of c <> None ->
                               monitor_info c <> None).
  { intros k c H. apply (Hinfo k c). now right. }
  destruct (path_of config) as [path|] eqn:Hpath.
  2:{ apply IH; auto. intros k H. apply Hkeys. now right. }
  unfold bind, video_capture, is_opened, get, modify, emit, cap_get, ret,
    raise. simpl. rewrite nth_error_new. simpl.
  destruct (videos E path) as [v|]; simpl.
  - destruct (monitor_info config) as [i|] eqn:Hi; simpl.
    2:{ exfalso. apply (Hinfo monitor_id config); [now left | | exact Hi].
        rewrite Hpath. discriminate. }
    rewrite nth_error_new. simpl.
    assert (Hfresh : ~ In monitor_id (map fst (caps s))).
    { apply Hkeys. now left. }
    apply IH; auto.
    + intros k H. simpl. rewrite (@dict_set_fresh _ _ _ Hfresh), map_app. simpl.
      intro H'. apply in_app_or in H'. destruct H' as [H' | [<- | []]].
      * revert H'. apply Hkeys. now right.
      * now apply Hk.
    + intros c p [H | [H | H]]; simpl.
      * discriminate.
      * inversion H; subst.
        exact (cap_ids_dict_set_new _ _ {| cap := _; info := _; fps := _ |}).
      * rewrite (@dict_set_fresh _ _ _ Hfresh). unfold cap_ids.
        rewrite map_app. apply in_or_app. left. now apply (Hs c p).
  - apply IH; auto.
    + intros k H. apply Hkeys. now right.
    + intros c p [H | [H | H]]; simpl; [discriminate | discriminate |].
      now apply (Hs c p).
Qed.

End OpenSources.

(** *** Releasing the captures *)

Lemma release_all_effect (items : list (string * cap_data)) (s : state) :
  trace (snd (release_all items s)) =
    rev (map EvRelease (cap_ids items)) ++ trace s /\
  caps (snd (release_all items s)) = caps s.
Proof.
  revert s; induction items as [|[k data] rest IH]; intro s;
    simpl release_all; [now split|].
  unfold bind, cap_release.
  match goal with
  | |- context [release_all rest ?s1] =>
      destruct (IH s1) as [Ht Hc]; rewrite Ht, Hc
  end.
  simpl. rewrite <- app_assoc. simpl.
  destruct (nth_error (decoders s) (cap data)); now split.
Qed.

Lemma count_release_out (c : nat) (ids : list nat) :
  ~ In c ids -> count (is_release c) (map EvRelease ids) = O.
Proof.
  intro H. apply count_none. intros ev Hev.
  apply in_map_iff in Hev. destruct Hev as [c' [<- Hc']]. simpl.
  apply Nat.eqb_neq. intros ->. contradiction.
Qed.

Lemma count_release_in (c : nat) (ids : list nat) :
  NoDup ids -> In c ids -> count (is_release c) (map EvRelease ids) = 1%nat.
Proof.
  induction ids as [|a ids IH]; intros Hnd Hin; [destruct Hin|].
  inversion Hnd as [|? ? Ha Hnd']; subst. simpl map. rewrite count_cons. simpl.
  destruct (Nat.eqb_spec c a) as [-> | Hne].
  - now rewrite count_release_out.
  - destruct Hin as [-> | Hin]; [congruence|]. now rewrite IH.
Qed.

Section RunSources.

Variable E : env.
Variable cfg : list (string * config).

Lemma sound_init : caps_sound init_state.
Proof.
  repeat split; simpl; try constructor; try (intros; contradiction).
Qed.

(** The [try] block up to the loop, and the loop, on the captures. *)
Lemma try_block_sources (fuel : nat) :
  caps_sound (snd (try_block E cfg fuel init_state)) /\
  (complete_config cfg ->
   all_registered (snd (try_block E cfg fuel init_state))).
Proof.
  pose (P := fun s => caps_sound s /\
                      (complete_config cfg -> all_registered s)).
  assert (Psame : forall s s', P s -> same_sources s s' -> P s').
  { intros s s' [H R] Hsame. split; [apply (sound_same H Hsame)|].
    intro Hcfg. apply (registered_same (R Hcfg) Hsame). }
  change (P (snd (try_block E cfg fuel init_state))).
  unfold try_block.
  rewrite (@bind_ok _ _ _ _ init_state
             (set_worker_w (find_workerw (windows E)) init_state) tt);
    [|reflexivity].
  rewrite (@bind_ok _ _ _ _ _
             (set_worker_w (find_workerw (windows E)) init_state)
             (find_workerw (windows E))); [|reflexivity].
  set (s0 := set_worker_w (find_workerw (windows E)) init_state).
  assert (H0 : P s0).
  { split; [exact sound_init | intros _ c p []]. }
  destruct (negb (truthy (find_workerw (windows E)))).
  - apply (Psame s0); [exact H0|].
    apply same_sources_emit; [reflexivity | apply same_sources_refl].
  - unfold bind at 1.
    pose proof (@acquire_same_sources E s0 s0 (same_sources_refl s0)) as Hacq.
    destruct (acquire E s0) as [[g | e |] s1]; simpl in Hacq |- *;
      try (apply (Psame s0); assumption).
    pose proof (Psame _ _ H0 Hacq) as [H1 R1].
    assert (Hc1 : caps s1 = []) by (destruct Hacq as [-> _]; reflexivity).
    unfold bind at 1.
    pose proof (@open_sources_sound E cfg None s1 H1) as H2.
    assert (R2 : complete_config cfg ->
                 all_registered (snd (open_sources E cfg None s1))).
    { intros [Hnd Hinfo]. apply open_sources_registered; auto.
      - intros k _. rewrite Hc1. intros [].
      - intros c p Hin. apply (R1 (conj Hnd Hinfo) c p Hin). }
    destruct (open_sources E cfg None s1) as [[fps | e |] s2];
      simpl in H2, R2 |- *; try (split; assumption).
    apply (Psame s2); [split; assumption|].
    apply (@maintains_bind _ _ (same_sources s2)); try apply same_sources_refl.
    + apply time_same_sources.
    + intro. apply playback_same_sources.
Qed.

Lemma finally_effect (s : state) :
  caps (snd (finally_block s)) = caps s /\
  trace (snd (finally_block s)) =
    release_events (snd (release_all (caps s) s)) ++
    rev (map EvRelease (cap_ids (caps s))) ++ trace s.
Proof.
  rewrite finally_block_eq. simpl.
  destruct (release_all_effect (caps s) s) as [-> ->]. now split.
Qed.

Lemma release_events_quiet (s : state) (ev : event) :
  In ev (release_events s) -> source_event ev = false.
Proof.
  unfold release_events.
  repeat match goal with
         | |- context [match ?x with _ => _ end] => destruct x
         end; simpl; intuition (subst; reflexivity).
Qed.

(** The state in which the [finally] block starts, and what it adds. *)
Lemma run_sources (fuel : nat) :
  finished (run E cfg fuel) = true ->
  exists s evs,
    caps_sound s /\
    (complete_config cfg -> all_registered s) /\
    caps (snd (run E cfg fuel)) = caps s /\
    trace (snd (run E cfg fuel)) =
      evs ++ rev (map EvRelease (cap_ids (caps s))) ++ trace s /\
    (forall ev, In ev evs -> source_event ev = false).
Proof.
  unfold finished, run.
  destruct (try_block_sources fuel) as [Hs Hr].
  destruct (try_block E cfg fuel init_state) as [[[] | e |] s];
    simpl in Hs, Hr; [| | discriminate]; intros _.
  - exists s, (release_events (snd (release_all (caps s) s))).
    destruct (finally_effect s) as [Hc Ht].
    refine (conj Hs (conj Hr (conj Hc (conj Ht _)))).
    apply release_events_quiet.
  - unfold bind, emit, modify. simpl fst. cbv iota beta.
    set (s' := set_trace (EvError (str_exn e) :: trace s) s).
    assert (Hsame : same_sources s s').
    { apply same_sources_emit; [reflexivity | apply same_sources_refl]. }
    exists s', (release_events (snd (release_all (caps s') s'))).
    destruct (finally_effect s') as [Hc Ht].
    split; [apply (sound_same Hs Hsame)|].
    split; [intro Hcfg; apply (registered_same (Hr Hcfg) Hsame)|].
    refine (conj Hc (conj Ht _)).
    apply release_events_quiet.
Qed.

End RunSources.

(** ** Sessions from start to end *)

Lemma ends_finished (x : session) :
  session_ends x -> finished (run_session x) = true.
Proof.
  intros [[n [Hle Hn]] | H]; [|exact H].
  unfold run_session. now apply (@stop_finishes _ _ _ n).
Qed.

(** C2. Every session that ends -- stopped by the control thread, returned
    early, or ended by an exception -- has released each drawing resource it
    acquired; hence over any sequence of start/stop cycles the acquisitions
    and the releases of each kind of resource are equal in number. *)
Theorem drawing_resources_released (l : list session) :
  (forall x, In x l -> session_ends x) ->
  (forall x, In x l ->
     finished (run_session x) = true /\
     forall r, acquired r (history (run_session x)) =
               released r (history (run_session x))) /\
  (forall r, acquired r (cycles l) = released r (cycles l)).
Proof.
  intro Hends.
  assert (Hone : forall x, In x l ->
            finished (run_session x) = true /\
            forall r, acquired r (history (run_session x)) =
                      released r (history (run_session x))).
  { intros x Hx. pose proof (ends_finished (Hends x Hx)) as Hfin.
    split; [exact Hfin|]. now apply run_balanced. }
  split; [exact Hone|].
  intro r. clear Hends. induction l as [|x l IH]; [reflexivity|].
  unfold cycles, acquired, released in *. simpl flat_map.
  rewrite !count_app. f_equal.
  - apply (Hone x (or_introl eq_refl)).
  - apply IH. intros y Hy. apply Hone. now right.
Qed.

Lemma drawing_resources_released_witness :
  session_ends mixed_session /\
  acquired Bitmap (cycles (repeat mixed_session 100 ++ [headless_session]))
  = released Bitmap (cycles (repeat mixed_session 100 ++ [headless_session])) /\
  acquired WindowDC (cycles (repeat mixed_session 100 ++ [headless_session]))
  = released WindowDC (cycles (repeat mixed_session 100 ++ [headless_session])).
Proof.
  assert (Hstop : session_ends mixed_session).
  { left. exists 3%nat. split; [simpl; lia | reflexivity]. }
  assert (Hall : forall x,
             In x (repeat mixed_session 100 ++ [headless_session]) ->
             session_ends x).
  { intros x Hx. apply in_app_or in Hx. destruct Hx as [Hx | [<- | []]].
    - apply repeat_spec in Hx. now subst x.
    - right. vm_compute. reflexivity. }
  split; [exact Hstop|].
  split; apply (drawing_resources_released
                  (repeat mixed_session 100 ++ [headless_session]) Hall).
Defined.

(** C3, as the code has it. A capture that fails to open is reported, is
    kept out of [caps], and [release()] is never called on it; every capture
    held in [caps] is released exactly once when the session ends; and when
    the configuration is complete, every capture that opened is one of
    those. *)
Theorem sources_released (x : session) :
  session_ends x ->
  finished (run_session x) = true /\
  (forall c, In c (cap_ids (caps (snd (run_session x)))) ->
             release_count c (history (run_session x)) = 1%nat) /\
  (forall c p, In (EvVideoCapture c p false) (history (run_session x)) ->
               ~ In c (cap_ids (caps (snd (run_session x)))) /\
               In (EvError (could_not_open p)) (history (run_session x)) /\
               release_count c (history (run_session x)) = O) /\
  (complete_config (s_config x) ->
   forall c p, In (EvVideoCapture c p true) (history (run_session x)) ->
               release_count c (history (run_session x)) = 1%nat).
Proof.
  intro Hend. pose proof (ends_finished Hend) as Hfin.
  split; [exact Hfin|].
  destruct (run_sources (s_env x) (s_config x) (s_fuel x) Hfin)
    as (s & evs & Hs & Hreg & Hcaps & Htr & Hq).
  destruct Hs as (Hnd & Hlt & Hev & Hfail & Hrel).
  unfold run_session, history, release_count in *.
  assert (Hcount : forall c,
            count (is_release c) (rev (trace (snd (run (s_env x) (s_config x)
                                                       (s_fuel x))))) =
            count (is_release c) (map EvRelease (cap_ids (caps s)))).
  { intro c. rewrite count_rev, Htr, !count_app, count_rev.
    rewrite (Hrel c), count_none; [lia|].
    intros ev H. now apply source_event_release, Hq. }
  assert (Hold : forall c p o,
            In (EvVideoCapture c p o)
               (rev (trace (snd (run (s_env x) (s_config x) (s_fuel x))))) ->
            In (EvVideoCapture c p o) (trace s)).
  { intros c p o H. rewrite <- in_rev, Htr in H.
    apply in_app_or in H. destruct H as [H | H];
      [apply Hq in H; discriminate|].
    apply in_app_or in H. destruct H as [H | H]; [|exact H].
    rewrite <- in_rev in H. apply in_map_iff in H.
    destruct H as [c' [H _]]. discriminate. }
  rewrite Hcaps. repeat split.
  - intros c Hc. rewrite Hcount. now apply count_release_in.
  - apply (Hfail c p). now apply (Hold c p false).
  - rewrite <- in_rev, Htr. apply in_or_app. right. apply in_or_app. right.
    apply (Hfail c p). now apply (Hold c p false).
  - rewrite Hcount. apply count_release_out.
    apply (Hfail c p). now apply (Hold c p false).
  - intros Hcfg c p H. rewrite Hcount. apply count_release_in; [exact Hnd|].
    apply (Hreg Hcfg c p). now apply (Hold c p true).
Qed.

Lemma sources_released_witness :
  release_count 0 (history (run_session mixed_session)) = 1%nat /\
  release_count 1 (history (run_session mixed_session)) = O.
Proof.
  assert (Hend : session_ends mixed_session).
  { left. exists 3%nat. split; [simpl; lia | reflexivity]. }
  destruct (sources_released Hend) as (_ & Hin & Hout & _).
  split.
  - apply Hin. vm_compute. left. reflexivity.
  - apply (Hout 1%nat "missing.mp4"). vm_compute. tauto.
Defined.

(** C3, as the specification words it, fails: the capture made for a file
    that does not open is never released. *)
Lemma failed_open_not_released :
  finished (run_session missing_session) = true /\
  ~ every_source_released_once missing_session.
Proof.
  split; [reflexivity|].
  intro H. specialize (H 0%nat "missing.mp4" false).
  assert (Hin : In (EvVideoCapture 0 "missing.mp4" false)
                   (history (run_session missing_session))).
  { vm_compute. tauto. }
  specialize (H Hin). vm_compute in H. discriminate.
Qed.

(** ** Sessions that never enter the loop *)

Lemma reports_error_iff (r : outcome unit * state) :
  reports_error r <-> existsb is_error (trace (snd r)) = true.
Proof.
  unfold reports_error, history. rewrite existsb_exists. split.
  - intros [msg H]. exists (EvError msg). split; [|reflexivity].
    now apply in_rev.
  - intros [ev [H Hev]]. destruct ev; try discriminate.
    exists msg. now rewrite <- in_rev.
Qed.

Lemma release_events_no_error (s : state) :
  existsb is_error (release_events s) = false.
Proof.
  unfold release_events.
  repeat match goal with
         | |- context [match ?x with _ => _ end] => destruct x
         end; reflexivity.
Qed.

Lemma finally_no_caps (s : state) :
  caps s = [] ->
  finally_block s = (Ok tt, set_trace (release_events s ++ trace s) s).
Proof. intro H. rewrite finally_block_eq, H. reflexivity. Qed.

Section Idle.

Variable E : env.

(** Lines 98-110 register no capture, enter no iteration and report
    nothing themselves. *)
Lemma acquire_shape (w : option Z) :
  caps (snd (acquire E (set_worker_w w init_state))) = [] /\
  ticks (snd (acquire E (set_worker_w w init_state))) = O /\
  decoders (snd (acquire E (set_worker_w w init_state))) = [] /\
  existsb is_error (trace (snd (acquire E (set_worker_w w init_state))))
    = false.
Proof.
  unfold acquire, bind, get, may_fail, emit, modify, ret, raise.
  destruct (window_dc_fault E); simpl; [now repeat split|].
  destruct (dc_from_handle_fault E); simpl; [now repeat split|].
  destruct (compatible_dc_fault E); simpl; [now repeat split|].
  destruct (bounding_box (get_monitors (displays E))); simpl;
    [now repeat split|].
  destruct (compatible_bitmap_fault E); simpl; now repeat split.
Qed.

(** When no assignment is valid, lines 112-125 run to their end, register
    nothing, and report exactly the paths that were named. *)
Lemma open_sources_invalid (items : list (string * config)) (fps : option Z)
      (s : state) :
  no_valid_assignment E items = true ->
  fst (open_sources E items fps s) = Ok fps /\
  caps (snd (open_sources E items fps s)) = caps s /\
  ticks (snd (open_sources E items fps s)) = ticks s /\
  existsb is_error (trace (snd (open_sources E items fps s))) =
    names_a_video items || existsb is_error (trace s).
Proof.
  revert s; induction items as [|[monitor_id config] rest IH]; intros s Hno;
    simpl open_sources; [now repeat split|].
  simpl in Hno. apply andb_prop in Hno. destruct Hno as [Hv Hrest].
  unfold valid_assignment in Hv. simpl names_a_video.
  destruct (path_of config) as [path|]; [|now apply IH].
  destruct (videos E path) as [v|] eqn:Hvid; [discriminate|].
  unfold bind, video_capture, is_opened, get, modify, emit, ret. simpl.
  rewrite nth_error_new, Hvid. simpl.
  match goal with
  | |- context [open_sources E rest fps ?s1] =>
      destruct (IH s1 Hrest) as (H1 & H2 & H3 & H4)
  end.
  rewrite H1, H2, H3, H4. simpl. rewrite orb_true_r. now repeat split.
Qed.

Lemma playback_no_caps (fuel : nat) (g : geometry) (last_time : Q)
      (fps : option Z) (s : state) :
  caps s = [] -> playback E fuel g last_time fps s = (Ok tt, s).
Proof.
  intro H. destruct fuel; simpl; rewrite H; simpl;
    now rewrite andb_false_r.
Qed.

(** The shape of a run that has no valid assignment. *)
Lemma run_no_valid (cfg : list (string * config)) (fuel : nat) :
  no_valid_assignment E cfg = true ->
  finished (run E cfg fuel) = true /\
  ticks (snd (run E cfg fuel)) = O /\
  caps (snd (run E cfg fuel)) = [] /\
  existsb is_error (trace (snd (run E cfg fuel))) =
    negb (startup_ok E) || names_a_video cfg.
Proof.
  intro Hno.
  pose (P := fun (b : bool) (r : outcome unit * state) =>
               finished r = true /\ ticks (snd r) = O /\
               caps (snd r) = [] /\
               existsb is_error (trace (snd r)) = b).
  change (P (negb (startup_ok E) || names_a_video cfg) (run E cfg fuel)).
  unfold run, try_block, startup_ok.
  rewrite (@bind_ok _ _ _ _ init_state
             (set_worker_w (find_workerw (windows E)) init_state) tt);
    [|reflexivity].
  rewrite (@bind_ok _ _ _ _ _
             (set_worker_w (find_workerw (windows E)) init_state)
             (find_workerw (windows E))); [|reflexivity].
  destruct (truthy (find_workerw (windows E))) eqn:Hw;
    unfold negb at 2; cbv iota beta.
  - destruct (acquire_shape (find_workerw (windows E)))
      as (Hc & Ht & _ & He).
    pose proof (never_busy_acquire E
      (set_worker_w (find_workerw (windows E)) init_state)) as Hb.
    unfold bind at 1.
    destruct (acquire E (set_worker_w (find_workerw (windows E)) init_state))
      as [[g | e |] s1]; simpl in Hc, Ht, He, Hb; simpl fst;
      [| | congruence].
    + destruct (@open_sources_invalid cfg None s1 Hno)
        as (H1 & H2 & H3 & H4).
      unfold bind at 1.
      destruct (open_sources E cfg None s1) as [o s2]; simpl in H1, H2, H3, H4.
      subst o. unfold bind, time_time.
      rewrite playback_no_caps by (simpl; congruence).
      rewrite finally_no_caps by (simpl; congruence).
      unfold P. cbn [fst snd finished trace set_trace ticks caps
                     set_clock_calls andb negb orb].
      rewrite existsb_app, release_events_no_error, H4, He.
      rewrite orb_false_r. repeat split; congruence.
    + unfold bind, emit, modify.
      rewrite finally_no_caps by exact Hc.
      unfold P. cbn [fst snd finished trace set_trace ticks caps
                     andb negb orb].
      rewrite existsb_app, release_events_no_error.
      repeat split; assumption.
  - unfold emit, modify.
    rewrite finally_no_caps by reflexivity.
    unfold P. cbn [fst snd finished trace set_trace ticks caps
                   andb negb orb].
    rewrite existsb_app, release_events_no_error.
    now repeat split.
Qed.

End Idle.

(** C1, as the code has it. Started with no valid assignment, the session
    enters no iteration of the loop and its thread body returns; an error is
    reported exactly when start-up fails or some assignment names a video
    (which then did not open) -- with no video named and a successful
    start-up the session ends without any report. *)
Theorem no_valid_assignment_no_tick (x : session) :
  no_valid_assignment (s_env x) (s_config x) = true ->
  finished (run_session x) = true /\
  ticks (snd (run_session x)) = O /\
  caps (snd (run_session x)) = [] /\
  (reports_error (run_session x) <->
   startup_ok (s_env x) = false \/ names_a_video (s_config x) = true).
Proof.
  intro Hno.
  destruct (run_no_valid (s_env x) (s_config x) (s_fuel x) Hno)
    as (Hfin & Ht & Hc & He).
  unfold run_session. repeat split; try assumption.
  - intro H. apply reports_error_iff in H. rewrite He in H.
    apply orb_prop in H. destruct H as [H | H]; [left | now right].
    now apply negb_true_iff.
  - intro H. apply reports_error_iff. rewrite He.
    destruct H as [-> | ->]; [reflexivity | apply orb_true_r].
Qed.

Lemma no_valid_assignment_no_tick_witness :
  ticks (snd (run_session missing_session)) = O /\
  reports_error (run_session missing_session).
Proof.
  destruct (no_valid_assignment_no_tick missing_session eq_refl)
    as (_ & Ht & _ & He).
  split; [exact Ht|]. apply He. right. reflexivity.
Defined.

(** C1, as the specification words it, fails: with an empty configuration
    the session ends without reporting anything. *)
Lemma idle_start_not_reported : ~ idle_start_reported idle_session.
Proof.
  intro H. destruct (H eq_refl) as (_ & [msg Hmsg] & _).
  vm_compute in Hmsg.
  repeat match goal with
         | H : _ \/ _ |- _ => destruct H as [H | H]
         end; try discriminate; contradiction.
Qed.

(** ** No monitor *)

Section Headless.

Variable E : env.
Variable cfg : list (string * config).
Hypothesis no_display : displays E = [].

Lemma acquire_headless (w : option Z) :
  exists e s,
    acquire E (set_worker_w w init_state) = (Raise e, s) /\
    caps s = [] /\ decoders s = [] /\ ticks s = O /\
    existsb creates_bitmap (trace s) = false /\
    (window_dc_fault E = None -> dc_from_handle_fault E = None ->
     compatible_dc_fault E = None -> e = empty_min).
Proof.
  unfold acquire, bind, get, may_fail, emit, modify, ret, raise.
  rewrite no_display.
  destruct (window_dc_fault E) as [e1|]; simpl;
    [exists e1; eexists; repeat split; discriminate|].
  destruct (dc_from_handle_fault E) as [e2|]; simpl;
    [exists e2; eexists; repeat split; discriminate|].
  destruct (compatible_dc_fault E) as [e3|]; simpl;
    [exists e3; eexists; repeat split; discriminate|].
  exists empty_min; eexists; repeat split.
Qed.

Lemma run_headless (fuel : nat) :
  finished (run E cfg fuel) = true /\
  ticks (snd (run E cfg fuel)) = O /\
  decoders (snd (run E cfg fuel)) = [] /\
  caps (snd (run E cfg fuel)) = [] /\
  existsb is_error (trace (snd (run E cfg fuel))) = true /\
  existsb creates_bitmap (trace (snd (run E cfg fuel))) = false /\
  (truthy (find_workerw (windows E)) = true ->
   window_dc_fault E = None -> dc_from_handle_fault E = None ->
   compatible_dc_fault E = None ->
   In (EvError (str_exn empty_min)) (trace (snd (run E cfg fuel)))).
Proof.
  pose (P := fun r : outcome unit * state =>
               finished r = true /\ ticks (snd r) = O /\
               decoders (snd r) = [] /\ caps (snd r) = [] /\
               existsb is_error (trace (snd r)) = true /\
               existsb creates_bitmap (trace (snd r)) = false /\
               (truthy (find_workerw (windows E)) = true ->
                window_dc_fault E = None -> dc_from_handle_fault E = None ->
                compatible_dc_fault E = None ->
                In (EvError (str_exn empty_min)) (trace (snd r)))).
  change (P (run E cfg fuel)).
  assert (Hrel : forall s, existsb creates_bitmap (release_events s) =
                           match bmp s with Some _ => false | None => false end).
  { intro s. unfold release_events.
    repeat match goal with
           | |- context [match ?x with _ => _ end] => destruct x
           end; reflexivity. }
  unfold run, try_block.
  rewrite (@bind_ok _ _ _ _ init_state
             (set_worker_w (find_workerw (windows E)) init_state) tt);
    [|reflexivity].
  rewrite (@bind_ok _ _ _ _ _
             (set_worker_w (find_workerw (windows E)) init_state)
             (find_workerw (windows E))); [|reflexivity].
  destruct (truthy (find_workerw (windows E))) eqn:Hw;
    unfold negb; cbv iota beta.
  - destruct (acquire_headless (find_workerw (windows E)))
      as (e & s & Hacq & Hc & Hd & Ht & Hb & He).
    unfold bind at 1. rewrite Hacq.
    unfold bind, emit, modify.
    rewrite finally_no_caps by exact Hc.
    unfold P. cbn [fst snd finished trace set_trace ticks caps decoders].
    rewrite !existsb_app, release_events_no_error, Hrel.
    cbn [existsb is_error creates_bitmap orb].
    repeat split; try assumption.
    + destruct (bmp _); exact Hb.
    + intros _ H1 H2 H3. apply in_or_app. right. left.
      now rewrite (He H1 H2 H3).
  - unfold emit, modify.
    rewrite finally_no_caps by reflexivity.
    unfold P. cbn [fst snd finished trace set_trace ticks caps decoders].
    rewrite !existsb_app, release_events_no_error, Hrel.
    repeat split; try reflexivity. discriminate.
Qed.

End Headless.

(** C5, as the code has it. With no monitor enumerated the computation of
    the bounding box raises (the minimum of an empty sequence); the handler
    of the thread body catches the exception and reports it, no bitmap is
    created, no capture is made, no iteration of the loop is entered, the
    device contexts acquired before are released, and the thread body
    returns. *)
Theorem no_monitor_session (x : session) :
  displays (s_env x) = [] ->
  bounding_box (get_monitors (displays (s_env x))) = inl empty_min /\
  finished (run_session x) = true /\
  ticks (snd (run_session x)) = O /\
  decoders (snd (run_session x)) = [] /\
  reports_error (run_session x) /\
  (forall ev, In ev (history (run_session x)) -> creates_bitmap ev = false) /\
  (forall r, acquired r (history (run_session x)) =
             released r (history (run_session x))) /\
  (startup_ok (s_env x) = false) /\
  (truthy (find_workerw (windows (s_env x))) = true ->
   window_dc_fault (s_env x) = None ->
   dc_from_handle_fault (s_env x) = None ->
   compatible_dc_fault (s_env x) = None ->
   In (EvError (str_exn empty_min)) (history (run_session x))).
Proof.
  intro Hd.
  destruct (@run_headless (s_env x) (s_config x) Hd (s_fuel x))
    as (Hfin & Ht & Hdec & Hc & He & Hb & Hmsg).
  unfold run_session.
  split; [now rewrite Hd|].
  split; [exact Hfin|]. split; [exact Ht|]. split; [exact Hdec|].
  split; [now apply reports_error_iff|].
  split.
  { intros ev Hev. unfold history in Hev. rewrite <- in_rev in Hev.
    destruct (creates_bitmap ev) eqn:Hcb; [|reflexivity].
    assert (existsb creates_bitmap
              (trace (snd (run (s_env x) (s_config x) (s_fuel x)))) = true)
      by (apply existsb_exists; now exists ev).
    congruence. }
  split; [now apply run_balanced|].
  split.
  { unfold startup_ok.
    destruct (@acquire_headless (s_env x) Hd (find_workerw (windows (s_env x))))
      as (e & s & -> & _). simpl. apply andb_false_r. }
  intros H1 H2 H3 H4. unfold history. rewrite <- in_rev. now apply Hmsg.
Qed.

Lemma no_monitor_session_witness :
  reports_error (run_session headless_session) /\
  ticks (snd (run_session headless_session)) = O.
Proof.
  destruct (no_monitor_session headless_session eq_refl)
    as (_ & _ & Ht & _ & He & _).
  split; [exact He | exact Ht].
Defined.

(** C5, as the specification words it, fails: on the empty monitor list the
    bounding box is not a box without extent, the computation raises. *)
Lemma no_degenerate_box : ~ degenerate_box (get_monitors []).
Proof.
  intro H. destruct (H eq_refl) as (g & Hg & _). discriminate.
Qed.

(** ** One tick *)

Section Tick.

Variable E : env.
Variable g : geometry.

Lemma draw_source_ok (data : cap_data) (s : state) :
  fst (draw_source E g data s) = Ok (fps data).
Proof.
  unfold draw_source, bind, cap_read, cap_set_pos, ret.
  destruct (next_frame E (cap data) s); simpl; [reflexivity|].
  match goal with
  | |- context [next_frame E (cap data) ?t] =>
      destruct (next_frame E (cap data) t)
  end; reflexivity.
Qed.

Lemma draw_sources_ok (items : list (string * cap_data)) (fps0 : option Z)
      (s : state) :
  fst (draw_sources E g items fps0 s) = Ok (last_fps items fps0).
Proof.
  revert fps0 s; induction items as [|[k data] rest IH]; intros fps0 s;
    simpl draw_sources; [reflexivity|].
  unfold bind. pose proof (draw_source_ok data s) as H.
  destruct (draw_source E g data s) as [o s1]; simpl in H. subst o.
  apply IH.
Qed.

Lemma last_fps_snoc (items : list (string * cap_data)) (k : string)
      (d : cap_data) (fps0 : option Z) :
  last_fps (items ++ [(k, d)]) fps0 = Some (fps d).
Proof. unfold last_fps. now rewrite fold_left_app. Qed.

(** C7. In a tick over a non-empty [caps], the value passed to the pacing
    wait is 1000 divided by the rate of the last entry of [caps] -- the
    last one the [for] loop processed -- truncated to whole milliseconds,
    and the wait is the last call of the tick; the tick raises nothing
    when that rate is not zero. *)
Theorem pacing_uses_last_rate (last_time : Q) (fps0 : option Z) (s : state)
        (items : list (string * cap_data)) (k : string) (d : cap_data) :
  caps s = items ++ [(k, d)] ->
  fps d <> 0 ->
  exists last_time' s' earlier,
    tick E g last_time fps0 s = (Ok (last_time', Some (fps d)), s') /\
    trace s' = EvWaitKey (Z.quot 1000 (fps d)) :: earlier.
Proof.
  intros Hcaps Hrate.
  unfold tick, bind, modify, emit, get, ret, time_time, pace, load_fps,
    present.
  cbn -[Z.eqb Z.quot Qle_bool Qminus draw_sources fill_solid_rect bit_blt].
  rewrite Hcaps.
  match goal with
  | |- context [draw_sources E g ?l fps0 ?t] =>
      pose proof (draw_sources_ok l fps0 t) as Hd;
      destruct (draw_sources E g l fps0 t) as [o s2]
  end.
  simpl in Hd. subst o. rewrite last_fps_snoc.
  apply Z.eqb_neq in Hrate.
  destruct (bitblt_fault E (ticks s2));
    cbn -[Z.eqb Z.quot Qle_bool Qminus fill_solid_rect bit_blt];
    match goal with
    | |- context [Qle_bool ?a ?b] => destruct (Qle_bool a b)
    end;
    cbn -[Z.eqb Z.quot Qle_bool Qminus fill_solid_rect bit_blt];
    rewrite Hrate; do 3 eexists; split; reflexivity.
Qed.

End Tick.

Lemma pacing_uses_last_rate_witness :
  exists last_time' s' earlier,
    tick desktop_env
         {| min_x := -3; min_y := 0; total_width := 7; total_height := 3 |}
         0%Q None
         (set_caps [("monitor_65539",
                     {| cap := 1; info := secondary_monitor; fps := 60 |});
                    ("monitor_65537",
                     {| cap := 0; info := primary_monitor; fps := 24 |})]
                   init_state)
    = (Ok (last_time', Some 24), s') /\
    trace s' = EvWaitKey 41 :: earlier.
Proof.
  apply (@pacing_uses_last_rate desktop_env
           {| min_x := -3; min_y := 0; total_width := 7; total_height := 3 |}
           0%Q None _
           [("monitor_65539",
             {| cap := 1; info := secondary_monitor; fps := 60 |})]
           "monitor_65537"
           {| cap := 0; info := primary_monitor; fps := 24 |}).
  - reflexivity.
  - simpl. lia.
Defined.

Section TickEffect.

Variable E : env.
Variable g : geometry.

(** What the body of the [for] loop does to the state: it adds read, seek
    and stretch calls, and touches the surface only after a read that
    returned a frame. *)
Lemma draw_source_effect (data : cap_data) (s : state) :
  exists mid,
    trace (snd (draw_source E g data s)) = mid ++ trace s /\
    (forall ev, In ev mid -> draw_event ev = true) /\
    desktop (snd (draw_source E g data s)) = desktop s /\
    ticks (snd (draw_source E g data s)) = ticks s /\
    caps (snd (draw_source E g data s)) = caps s /\
    ((forall c, ~ In (EvRead c true) mid) ->
     canvas (snd (draw_source E g data s)) = canvas s).
Proof.
  unfold draw_source, bind, cap_read, cap_set_pos, blit, cap_get, get,
    modify, emit, ret, advance.
  destruct (next_frame E (cap data) s) as [f|]; simpl.
  - destruct (nth_error (decoders s) (cap data)); simpl;
      eexists [_; EvRead (cap data) true];
      (split; [reflexivity|]);
      (split; [intros ev [<- | [<- | []]]; reflexivity|]);
      repeat split; intro H; exfalso; apply (H (cap data)); right; now left.
  - match goal with
    | |- context [next_frame E (cap data) ?t] =>
        destruct (next_frame E (cap data) t) as [f|]
    end; simpl.
    + destruct (nth_error (decoders s) (cap data)); simpl;
        repeat match goal with
               | |- context [nth_error ?l ?c] => destruct (nth_error l c)
               end; simpl;
        eexists [_; EvRead (cap data) true; EvSetPos (cap data) 0;
                 EvRead (cap data) false];
        (split; [reflexivity|]);
        (split; [intros ev [<- | [<- | [<- | [<- | []]]]]; reflexivity|]);
        repeat split; intro H; exfalso; apply (H (cap data)); right; now left.
    + exists [EvRead (cap data) false; EvSetPos (cap data) 0;
              EvRead (cap data) false].
      destruct (nth_error (decoders s) (cap data)); simpl;
        (split; [reflexivity|]);
        (split; [intros ev [<- | [<- | [<- | []]]]; reflexivity|]);
        repeat split.
Qed.

Lemma draw_sources_effect (items : list (string * cap_data))
      (fps0 : option Z) (s : state) :
  exists mid,
    trace (snd (draw_sources E g items fps0 s)) = mid ++ trace s /\
    (forall ev, In ev mid -> draw_event ev = true) /\
    desktop (snd (draw_sources E g items fps0 s)) = desktop s /\
    ticks (snd (draw_sources E g items fps0 s)) = ticks s /\
    caps (snd (draw_sources E g items fps0 s)) = caps s /\
    ((forall c, ~ In (EvRead c true) mid) ->
     canvas (snd (draw_sources E g items fps0 s)) = canvas s).
Proof.
  revert fps0 s; induction items as [|[k data] rest IH]; intros fps0 s;
    simpl draw_sources.
  - exists []. repeat split. intros ev [].
  - unfold bind. pose proof (draw_source_ok E g data s) as Hok.
    destruct (draw_source_effect data s)
      as (m1 & Ht1 & Hd1 & Hk1 & Hn1 & Hc1 & Hv1).
    destruct (draw_source E g data s) as [o s1]; simpl in *. subst o.
    destruct (IH (Some (fps data)) s1)
      as (m2 & Ht2 & Hd2 & Hk2 & Hn2 & Hc2 & Hv2).
    exists (m2 ++ m1). rewrite Ht2, Ht1, Hk2, Hk1, Hn2, Hn1, Hc2, Hc1.
    split; [now rewrite app_assoc|].
    split.
    { intros ev H. apply in_app_or in H. destruct H; auto. }
    repeat split. intro H.
    rewrite Hv2; [rewrite Hv1; [reflexivity|] |];
      intros c Hc; apply (H c), in_or_app; tauto.
Qed.

Lemma fill_black (s : surface) (px py : Z) :
  in_bounds g px py = true ->
  fill_solid_rect g 0 0 (total_width g) (total_height g) black s px py
  = black.
Proof.
  intro H. unfold fill_solid_rect.
  replace (total_width g - 0) with (total_width g) by lia.
  replace (total_height g - 0) with (total_height g) by lia.
  unfold in_bounds in *. now rewrite H.
Qed.

(** C10. Every tick first fills the whole composition surface with black,
    then runs the [for] loop, then attempts the present of the whole
    surface -- also when no read of the tick returned a frame, in which
    case the surface presented is black everywhere and so is, after a
    present that succeeds, the desktop over the whole bounding box. *)
Theorem tick_clears_then_presents (last_time : Q) (fps0 : option Z)
        (s : state) :
  exists post ok mid,
    trace (snd (tick E g last_time fps0 s)) =
      post ++ EvBitBlt (total_width g) (total_height g) ok
           :: mid ++ EvFillSolidRect 0 0 (total_width g) (total_height g)
                                     black
           :: trace s /\
    ok = negb (is_some (bitblt_fault E (S (ticks s)))) /\
    (forall ev, In ev mid -> draw_event ev = true) /\
    (forall ev, In ev post -> pace_event ev = true) /\
    ((forall c, ~ In (EvRead c true) mid) ->
     (forall px py, in_bounds g px py = true ->
                    canvas (snd (tick E g last_time fps0 s)) px py = black) /\
     (ok = true ->
      forall px py, in_bounds g px py = true ->
                    desktop (snd (tick E g last_time fps0 s)) px py = black)).
Proof.
  unfold tick, bind, modify, emit, get, ret, time_time, pace, load_fps,
    present.
  cbn -[Z.eqb Z.quot Qle_bool Qminus draw_sources fill_solid_rect bit_blt
        black].
  match goal with
  | |- context [draw_sources E g ?l fps0 ?t] =>
      pose proof (draw_sources_ok E g l fps0 t) as Hok;
      destruct (draw_sources_effect l fps0 t)
        as (mid & Ht & Hd & Hk & Hn & _ & Hv);
      destruct (draw_sources E g l fps0 t) as [o s2]
  end.
  cbn -[fill_solid_rect black] in Hok, Ht, Hd, Hk, Hn, Hv. subst o.
  assert (Hblack : (forall c, ~ In (EvRead c true) mid) ->
                   forall px py, in_bounds g px py = true ->
                                 canvas s2 px py = black).
  { intros H px py Hb. rewrite (Hv H). now apply fill_black. }
  rewrite Hn.
  destruct (bitblt_fault E (S (ticks s))) as [e|];
    cbn -[Z.eqb Z.quot Qle_bool Qminus fill_solid_rect bit_blt black];
    match goal with
    | |- context [Qle_bool ?a ?b] => destruct (Qle_bool a b)
    end;
    cbn -[Z.eqb Z.quot Qle_bool Qminus fill_solid_rect bit_blt black];
    destruct (last_fps (caps s) fps0) as [f|];
    cbn -[Z.eqb Z.quot Qle_bool Qminus fill_solid_rect bit_blt black];
    try destruct (f =? 0);
    cbn -[Z.eqb Z.quot Qle_bool Qminus fill_solid_rect bit_blt black];
    rewrite ?Ht.
  all: first
    [ eexists [_; _; _], _, mid; split; [reflexivity|]
    | eexists [_; _], _, mid; split; [reflexivity|]
    | eexists [_], _, mid; split; [reflexivity|]
    | eexists [], _, mid; split; [reflexivity|] ].
  all: (split; [reflexivity|]); (split; [exact Hd|]);
    (split; [intros ev Hev; simpl in Hev;
             repeat match goal with
                    | H : _ \/ _ |- _ => destruct H as [H | H]
                    end; subst; try reflexivity; contradiction|]);
    intro Hnone; (split; [exact (Hblack Hnone)|]);
    try discriminate.
  all: intros _ px py Hb; unfold bit_blt; unfold in_bounds in Hb;
    rewrite Hb; now apply Hblack.
Qed.

End TickEffect.

(** ** Rows of bytes *)

Lemma length_flat_map_uniform {A B : Type} (f : A -> list B) (l : list A)
      (n : nat) :
  Forall (fun a => List.length (f a) = n) l ->
  List.length (flat_map f l) = (List.length l * n)%nat.
Proof.
  induction 1 as [|a l Ha _ IH]; [reflexivity|].
  simpl. rewrite length_app, Ha, IH. reflexivity.
Qed.


Lemma cvtColor_size (f : frame) (w h : nat) :
  frame_has_size f w h -> frame_has_size (cvtColor_BGR2BGRA f) w h.
Proof.
  intros [Hh Hw]. split.
  - unfold cvtColor_BGR2BGRA. now rewrite length_map.
  - unfold cvtColor_BGR2BGRA. apply Forall_map.
    apply (Forall_impl _ (P := fun row => List.length row = w)); [|exact Hw].
    intros row Hrow. now rewrite length_map.
Qed.

Lemma row_bytes_length (f4 : frame4) (w h : nat) :
  frame_has_size f4 w h ->
  Forall (fun row =>
            List.length
              (flat_map (fun p : bgra => let '(b, g, r, a) := p in [b; g; r; a])
                        row) = (w * 4)%nat) f4.
Proof.
  intros [_ Hw].
  apply (Forall_impl _ (P := fun row => List.length row = w)); [|exact Hw].
  intros row Hrow. rewrite (length_flat_map_uniform _ (n := 4)).
  - now rewrite Hrow.
  - apply Forall_forall. intros [[[b g] r] a] _. reflexivity.
Qed.




(** ** One source of one tick *)

Lemma nth_error_list_update {A : Type} (l : list A) (i : nat) (a v : A) :
  nth_error l i = Some a -> nth_error (list_update l i v) i = Some v.
Proof.
  revert i; induction l as [|b l IH]; intros [|i]; simpl; try discriminate;
    auto.
Qed.

Section Source.

Variable E : env.
Variable g : geometry.

Lemma cap_read_some (c : nat) (s : state) (d : decoder) (f : frame) :
  nth_error (decoders s) c = Some d ->
  next_frame E c s = Some f ->
  cap_read E c s =
  (Ok (Some f),
   set_trace (EvRead c true :: trace s)
     (set_reads (S (reads s))
        (set_decoders
           (list_update (decoders s) c
              {| dec_video := dec_video d; dec_pos := S (dec_pos d) |}) s))).
Proof.
  intros Hd Hf. unfold cap_read, advance. now rewrite Hf, Hd.
Qed.

Lemma cap_read_none (c : nat) (s : state) :
  next_frame E c s = None ->
  cap_read E c s =
  (Ok None, set_trace (EvRead c false :: trace s) (set_reads (S (reads s)) s)).
Proof. intro Hf. unfold cap_read. now rewrite Hf. Qed.

Lemma cap_set_pos_some (c pos : nat) (s : state) (d : decoder) :
  nth_error (decoders s) c = Some d ->
  cap_set_pos c pos s =
  (Ok tt,
   set_trace (EvSetPos c pos :: trace s)
     (set_decoders
        (list_update (decoders s) c
           {| dec_video := dec_video d; dec_pos := pos |}) s)).
Proof. intro Hd. unfold cap_set_pos. now rewrite Hd. Qed.

Lemma stretch_outside (dx dy dw dh sx sy sw sh : Z) (bits : list Z)
      (hdr : bmi_header) (s : surface) (px py : Z) :
  in_rect px py dx dy dw dh = false ->
  stretch_dibits g dx dy dw dh sx sy sw sh bits hdr s px py = s px py.
Proof. intro H. unfold stretch_dibits. now rewrite H. Qed.




End Source.

Section EndOfStream.

Variable E : env.
Variable g : geometry.

(** C6. A source of at least two frames whose read hits the end of the
    stream is sought back to frame 0 and read once more.  When that read
    returns, it returns the first frame, which is drawn, and the source
    stands at frame 1.  When that read fails too, nothing is drawn for the
    source in this tick, [caps] and the surface are untouched, the source
    stays open at frame 0, and the read of the next tick returns the first
    frame unless the decoder fails again. *)
Theorem end_of_stream_restarts (data : cap_data) (s : state) (d : decoder)
        (v : video) :
  nth_error (decoders s) (cap data) = Some d ->
  dec_video d = Some v ->
  (2 <= List.length (frames v))%nat ->
  (List.length (frames v) <= dec_pos d)%nat ->
  exists f0 rest,
    frames v = f0 :: rest /\
    fst (draw_source E g data s) = Ok (fps data) /\
    (read_fault E (S (reads s)) = false ->
     trace (snd (draw_source E g data s)) =
       EvStretchDIBits (x (info data) - min_x g) (y (info data) - min_y g)
                       (width (info data)) (height (info data))
                       0 0 (frame_width v) (frame_height v)
                       (tobytes (cvtColor_BGR2BGRA f0))
                       (create_bmi_header (frame_width v) (frame_height v))
       :: EvRead (cap data) true :: EvSetPos (cap data) 0
       :: EvRead (cap data) false :: trace s /\
     nth_error (decoders (snd (draw_source E g data s))) (cap data) =
       Some {| dec_video := Some v; dec_pos := 1 |}) /\
    (read_fault E (S (reads s)) = true ->
     trace (snd (draw_source E g data s)) =
       EvRead (cap data) false :: EvSetPos (cap data) 0
       :: EvRead (cap data) false :: trace s /\
     canvas (snd (draw_source E g data s)) = canvas s /\
     caps (snd (draw_source E g data s)) = caps s /\
     nth_error (decoders (snd (draw_source E g data s))) (cap data) =
       Some {| dec_video := Some v; dec_pos := 0 |} /\
     (read_fault E (reads (snd (draw_source E g data s))) = false ->
      next_frame E (cap data) (snd (draw_source E g data s)) = Some f0)).
Proof.
  intros Hd Hv Hlen Heos.
  destruct (frames v) as [|f0 rest] eqn:Hfr; [simpl in Hlen; lia|].
  exists f0, rest. split; [reflexivity|].
  split; [apply draw_source_ok|].
  assert (H1 : next_frame E (cap data) s = None).
  { unfold next_frame. rewrite Hd, Hv.
    destruct (read_fault E (reads s)); [reflexivity|].
    apply nth_error_None. rewrite Hfr. exact Heos. }
  assert (Hd1 : nth_error (decoders (set_trace (EvRead (cap data) false
                                                  :: trace s)
                              (set_reads (S (reads s)) s))) (cap data)
                = Some d) by exact Hd.
  unfold draw_source, bind.
  rewrite (@cap_read_none _ _ _ H1). cbv beta iota.
  rewrite (@cap_set_pos_some _ O _ _ Hd1). cbv beta iota.
  match goal with
  | |- context [cap_read E (cap data) ?t] =>
      assert (Hd2 : nth_error (decoders t) (cap data) =
                    Some {| dec_video := dec_video d; dec_pos := O |})
        by (simpl; apply (@nth_error_list_update _ _ _ _ _ Hd));
      assert (H2 : next_frame E (cap data) t =
                   if read_fault E (S (reads s)) then None else Some f0)
        by (unfold next_frame; rewrite Hd2; simpl; rewrite Hv, Hfr;
            reflexivity)
  end.
  split; intro Hfault; rewrite Hfault in H2.
  - rewrite (@cap_read_some _ _ _ _ _ Hd2 H2).
    unfold blit, bind, cap_get, get, modify, emit, ret. simpl.
    simpl in Hd2. rewrite (@nth_error_list_update _ _ _ _ _ Hd2). simpl.
    rewrite Hv. split; reflexivity.
  - rewrite (@cap_read_none _ _ _ H2). unfold ret. simpl.
    repeat split.
    + rewrite (@nth_error_list_update _ _ _ _ _ Hd). now rewrite Hv.
    + intro Hnext. unfold next_frame. simpl.
      rewrite (@nth_error_list_update _ _ _ _ _ Hd). simpl.
      rewrite Hv, Hfr. simpl in Hnext. now rewrite Hnext.
Qed.

End EndOfStream.

Lemma end_of_stream_restarts_witness :
  exists earlier,
    trace (snd (draw_source desktop_env desktop_geometry
                  {| cap := 0; info := primary_monitor; fps := 24 |}
                  at_end_of_clip)) =
    EvStretchDIBits 3 0 4 3 0 0 2 1 [10; 20; 30; 255; 11; 21; 31; 255]
                    (create_bmi_header 2 1)
    :: EvRead 0 true :: EvSetPos 0 0 :: EvRead 0 false :: earlier.
Proof.
  destruct (@end_of_stream_restarts desktop_env desktop_geometry
              {| cap := 0; info := primary_monitor; fps := 24 |}
              at_end_of_clip
              {| dec_video := Some clip; dec_pos := 2 |} clip
              eq_refl eq_refl (le_n 2) (le_n 2))
    as (f0 & rest & Hfr & _ & Hok & _).
  inversion Hfr; subst f0 rest.
  exists []. exact (proj1 (Hok eq_refl)).
Defined.


Lemma bounding_box_extent_witness :
  exists g, bounding_box (get_monitors two_displays) = inr g /\
            total_width g = 4 - -3 /\ total_height g = 3 - 0.
Proof.
  destruct (@bounding_box_extent (get_monitors two_displays))
    as (g & max_r & min_l & max_b & min_t & Hg & _ & _ & _ & _ & _ & _ & _).
  - discriminate.
  - exists g. split; [exact Hg|].
    vm_compute in Hg. inversion Hg. split; reflexivity.
Defined.

Lemma locator_failure_aborts_witness :
  history (run bare_env mixed_config 5) = [EvError could_not_find].
Proof.
  exact (proj1 (proj2 (@locator_failure_aborts bare_env mixed_config 5
                         eq_refl))).
Defined.

(** ** What a tick leaves black *)

Section Uncovered.

Variable E : env.
Variable g : geometry.

Lemma draw_source_outside (data : cap_data) (s : state) (px py : Z) :
  in_rect px py (x (info data) - min_x g) (y (info data) - min_y g)
          (width (info data)) (height (info data)) = false ->
  canvas (snd (draw_source E g data s)) px py = canvas s px py.
Proof.
  intro Hout.
  unfold draw_source, bind, cap_read, cap_set_pos, blit, cap_get, get,
    modify, emit, ret, advance.
  destruct (next_frame E (cap data) s) as [f|]; simpl.
  - destruct (nth_error (decoders s) (cap data)); simpl;
      now apply stretch_outside.
  - match goal with
    | |- context [next_frame E (cap data) ?t] =>
        destruct (next_frame E (cap data) t) as [f|]
    end; simpl.
    + destruct (nth_error (decoders s) (cap data)); simpl;
        repeat match goal with
               | |- context [nth_error ?l ?c] => destruct (nth_error l c)
               end; simpl; now apply stretch_outside.
    + destruct (nth_error (decoders s) (cap data)); reflexivity.
Qed.

Lemma draw_sources_outside (items : list (string * cap_data))
      (fps0 : option Z) (s : state) (px py : Z) :
  covered g items px py = false ->
  canvas (snd (draw_sources E g items fps0 s)) px py = canvas s px py.
Proof.
  revert fps0 s; induction items as [|[k data] rest IH]; intros fps0 s Hc;
    simpl draw_sources; [reflexivity|].
  simpl in Hc. apply orb_false_elim in Hc. destruct Hc as [Hc1 Hc2].
  unfold bind. pose proof (draw_source_ok E g data s) as Hok.
  pose proof (draw_source_outside data s px py Hc1) as Hout.
  destruct (draw_source E g data s) as [o s1]; simpl in *. subst o.
  now rewrite IH.
Qed.

(** After a tick every pixel of the surface that lies in no destination
    rectangle has the colour of the fill. *)
Lemma tick_leaves_rest_black (last_time : Q) (fps0 : option Z) (s : state)
      (px py : Z) :
  in_bounds g px py = true ->
  covered g (caps s) px py = false ->
  canvas (snd (tick E g last_time fps0 s)) px py = black.
Proof.
  intros Hb Hc.
  unfold tick, bind, modify, emit, get, ret, time_time, pace, load_fps,
    present.
  cbn -[Z.eqb Z.quot Qle_bool Qminus draw_sources fill_solid_rect bit_blt
        black].
  match goal with
  | |- context [draw_sources E g ?l fps0 ?t] =>
      pose proof (draw_sources_ok E g l fps0 t) as Hok;
      pose proof (draw_sources_outside l fps0 t px py Hc) as Hout;
      destruct (draw_sources E g l fps0 t) as [o s2]
  end.
  cbn -[fill_solid_rect black] in Hok, Hout. subst o.
  rewrite (fill_black g _ px py Hb) in Hout.
  destruct (bitblt_fault E (ticks s2)) as [e|];
    cbn -[Z.eqb Z.quot Qle_bool Qminus fill_solid_rect bit_blt black];
    match goal with
    | |- context [Qle_bool ?a ?b] => destruct (Qle_bool a b)
    end;
    cbn -[Z.eqb Z.quot Qle_bool Qminus fill_solid_rect bit_blt black];
    destruct (last_fps (caps s) fps0) as [f|];
    cbn -[Z.eqb Z.quot Qle_bool Qminus fill_solid_rect bit_blt black];
    try destruct (f =? 0); exact Hout.
Qed.

End Uncovered.

(** A tick over a file without frames: both reads fail, nothing is drawn,
    and the black surface is presented. *)
Example tick_without_frame :
  rev (trace (snd (tick desktop_env desktop_geometry 0%Q None on_empty_clip)))
  = [EvFillSolidRect 0 0 7 3 0; EvRead 0 false; EvSetPos 0 0; EvRead 0 false;
     EvBitBlt 7 3 true; EvWaitKey 41] /\
  desktop (snd (tick desktop_env desktop_geometry 0%Q None on_empty_clip)) 6 2
  = black.
Proof. split; reflexivity. Qed.

(** A session over the two-frame clip: the third tick hits the end of the
    stream and restarts from the first frame. *)
Example mixed_session_reads :
  filter (fun ev => match ev with
                    | EvRead _ _ | EvSetPos _ _ | EvRelease _ => true
                    | _ => false
                    end)
         (history (run_session mixed_session))
  = [EvRead 0 true; EvRead 0 true; EvRead 0 false; EvSetPos 0 0;
     EvRead 0 true; EvRelease 0].
Proof. reflexivity. Qed.

(** An assignment without its monitor: the capture opens, the lookup of
    ['monitor_info'] raises before the capture is stored in [caps], and the
    [finally] block has no capture to release. *)
Example capture_without_monitor :
  history (run_session orphan_session)
  = [EvGetWindowDC 300 77; EvCreateDCFromHandle 77; EvCreateCompatibleDC;
     EvCreateBitmap; EvCreateCompatibleBitmap 7 3; EvSelectObject;
     EvVideoCapture 0 "clip.mp4" true; EvError "'monitor_info'";
     EvDeleteDC SaveDC; EvDeleteDC MfcDC; EvReleaseDC 300 77;
     EvDeleteObject Attached].
Proof. reflexivity. Qed.

(** * Further properties of the code *)

(** ** The bounding box of the enumerated displays *)

Lemma is_min_unique (l : list Z) (u v : Z) :
  is_min l u -> is_min l v -> u = v.
Proof.
  intros [Hu Hu'] [Hv Hv']. specialize (Hu' _ Hv). specialize (Hv' _ Hu). lia.
Qed.

(** The box of a non-empty monitor list, written out. *)
Lemma bounding_box_some (monitors : list monitor) :
  monitors <> [] ->
  exists l t r b,
    py_min (map x monitors) = Some l /\
    py_min (map y monitors) = Some t /\
    py_max (map (fun m => x m + width m) monitors) = Some r /\
    py_max (map (fun m => y m + height m) monitors) = Some b /\
    bounding_box monitors =
      inr {| min_x := l; min_y := t;
             total_width := r - l; total_height := b - t |}.
Proof.
  intro Hne.
  assert (Hmap : forall f : monitor -> Z, map f monitors <> []).
  { intros f; destruct monitors; [congruence | discriminate]. }
  destruct (py_min_spec (Hmap x)) as [l [Hl _]].
  destruct (py_min_spec (Hmap y)) as [t [Ht _]].
  destruct (py_max_spec (Hmap (fun m => x m + width m))) as [r [Hr _]].
  destruct (py_max_spec (Hmap (fun m => y m + height m))) as [b [Hb _]].
  exists l, t, r, b. unfold bounding_box. rewrite Hl, Ht.
  rewrite (py_max_shift (fun m => x m + width m) l monitors Hr).
  rewrite (py_max_shift (fun m => y m + height m) t monitors Hb).
  now repeat split.
Qed.

Lemma py_min_is_min (l : list Z) (v : Z) : py_min l = Some v -> is_min l v.
Proof.
  intro H. destruct l as [|a t]; [discriminate|].
  inversion H; subst. apply fold_min_spec.
Qed.

Lemma py_max_is_max (l : list Z) (v : Z) : py_max l = Some v -> is_max l v.
Proof.
  intro H. destruct l as [|a t]; [discriminate|].
  inversion H; subst. apply fold_max_spec.
Qed.

(** X1. The composition surface of a session spans the displays the
    operating system enumerates: its origin is the least left and the least
    top edge, its width reaches the greatest right edge and its height the
    greatest bottom edge. *)
Theorem surface_spans_displays (ds : list display) :
  ds <> [] ->
  exists g l t r b,
    bounding_box (get_monitors ds) = inr g /\
    is_min (map display_left ds) l /\
    is_min (map display_top ds) t /\
    is_max (map display_right ds) r /\
    is_max (map display_bottom ds) b /\
    min_x g = l /\ min_y g = t /\
    min_x g + total_width g = r /\
    min_y g + total_height g = b.
Proof.
  intro Hne.
  assert (Hm : get_monitors ds <> []).
  { unfold get_monitors. destruct ds; [congruence | discriminate]. }
  destruct (bounding_box_some Hm) as (l & t & r & b & Hl & Ht & Hr & Hb & Hg).
  exists {| min_x := l; min_y := t;
            total_width := r - l; total_height := b - t |}, l, t, r, b.
  unfold get_monitors in Hl, Ht, Hr, Hb. rewrite map_map in Hl, Ht, Hr, Hb.
  simpl in Hl, Ht, Hr, Hb.
  assert (Er : map (fun d => left (lprcMonitor d) +
                             (right (lprcMonitor d) - left (lprcMonitor d))) ds
               = map display_right ds).
  { apply map_ext. intro d. unfold display_right. lia. }
  assert (Eb : map (fun d => top (lprcMonitor d) +
                             (bottom (lprcMonitor d) - top (lprcMonitor d))) ds
               = map display_bottom ds).
  { apply map_ext. intro d. unfold display_bottom. lia. }
  rewrite Er in Hr. rewrite Eb in Hb.
  split; [exact Hg|].
  split; [exact (py_min_is_min _ Hl)|].
  split; [exact (py_min_is_min _ Ht)|].
  split; [exact (py_max_is_max _ Hr)|].
  split; [exact (py_max_is_max _ Hb)|].
  simpl. repeat split; lia.
Qed.

Lemma surface_spans_displays_witness :
  exists g, bounding_box (get_monitors two_displays) = inr g /\
            min_x g = -3 /\ min_x g + total_width g = 4.
Proof.
  destruct (@surface_spans_displays two_displays)
    as (g & l & t & r & b & Hg & _ & _ & _ & _ & _ & _ & _ & _).
  - discriminate.
  - exists g. split; [exact Hg|].
    vm_compute in Hg. inversion Hg. split; reflexivity.
Defined.

(** X2. The destination rectangle of every monitor the box was computed
    from lies inside the composition surface: a pixel a stretch call may
    write for such a monitor is never clipped. *)
Theorem monitor_inside_surface (monitors : list monitor) (g : geometry)
        (m : monitor) (px py : Z) :
  bounding_box monitors = inr g ->
  In m monitors ->
  in_rect px py (x m - min_x g) (y m - min_y g) (width m) (height m) = true ->
  in_bounds g px py = true.
Proof.
  intros Hg Hm Hin.
  assert (Hne : monitors <> []) by (intro; subst; contradiction).
  destruct (bounding_box_some Hne) as (l & t & r & b & Hl & Ht & Hr & Hb & Hg').
  rewrite Hg' in Hg. inversion Hg; subst g. clear Hg Hg'.
  destruct (py_min_is_min _ Hl) as [_ Hl'].
  destruct (py_min_is_min _ Ht) as [_ Ht'].
  destruct (py_max_is_max _ Hr) as [_ Hr'].
  destruct (py_max_is_max _ Hb) as [_ Hb'].
  assert (l <= x m) by (apply Hl', in_map, Hm).
  assert (t <= y m) by (apply Ht', in_map, Hm).
  assert (x m + width m <= r)
    by (apply Hr'; apply (in_map (fun m => x m + width m)), Hm).
  assert (y m + height m <= b)
    by (apply Hb'; apply (in_map (fun m => y m + height m)), Hm).
  unfold in_bounds, in_rect in *. simpl in *.
  apply andb_prop in Hin. destruct Hin as [Hin Hy2].
  apply andb_prop in Hin. destruct Hin as [Hin Hy1].
  apply andb_prop in Hin. destruct Hin as [Hx1 Hx2].
  apply Z.leb_le in Hx1, Hy1. apply Z.ltb_lt in Hx2, Hy2.
  repeat (apply andb_true_intro; split);
    first [apply Z.leb_le | apply Z.ltb_lt]; lia.
Qed.

Lemma monitor_inside_surface_witness :
  in_bounds desktop_geometry 2 2 = true.
Proof.
  apply (@monitor_inside_surface (get_monitors two_displays) desktop_geometry
           secondary_monitor 2 2).
  - reflexivity.
  - right. left. reflexivity.
  - reflexivity.
Defined.

(** *** The order of enumeration does not matter *)

Lemma is_min_perm (l l' : list Z) (v : Z) :
  Permutation.Permutation l l' -> is_min l v -> is_min l' v.
Proof.
  intros Hp [Hin Hlb]. split.
  - now apply (Permutation.Permutation_in _ Hp).
  - intros u Hu. apply Hlb.
    now apply (Permutation.Permutation_in _ (Permutation.Permutation_sym Hp)).
Qed.

Lemma is_max_perm (l l' : list Z) (v : Z) :
  Permutation.Permutation l l' -> is_max l v -> is_max l' v.
Proof.
  intros Hp [Hin Hub]. split.
  - now apply (Permutation.Permutation_in _ Hp).
  - intros u Hu. apply Hub.
    now apply (Permutation.Permutation_in _ (Permutation.Permutation_sym Hp)).
Qed.

(** X3. The box does not depend on the order in which the monitors are
    enumerated. *)
Theorem bounding_box_order (monitors monitors' : list monitor) :
  Permutation.Permutation monitors monitors' ->
  bounding_box monitors = bounding_box monitors'.
Proof.
  intro Hp. destruct monitors as [|m ms].
  - apply Permutation.Permutation_nil in Hp. now subst.
  - assert (Hne : m :: ms <> []) by discriminate.
    assert (Hne' : monitors' <> []).
    { intro; subst. apply Permutation.Permutation_sym in Hp.
      apply Permutation.Permutation_nil in Hp. discriminate. }
    destruct (bounding_box_some Hne)
      as (l & t & r & b & Hl & Ht & Hr & Hb & ->).
    destruct (bounding_box_some Hne')
      as (l' & t' & r' & b' & Hl' & Ht' & Hr' & Hb' & ->).
    assert (l = l').
    { eapply is_min_unique; [|exact (py_min_is_min _ Hl')].
      eapply is_min_perm; [|exact (py_min_is_min _ Hl)].
      now apply Permutation.Permutation_map. }
    assert (t = t').
    { eapply is_min_unique; [|exact (py_min_is_min _ Ht')].
      eapply is_min_perm; [|exact (py_min_is_min _ Ht)].
      now apply Permutation.Permutation_map. }
    assert (r = r').
    { eapply is_max_unique; [|exact (py_max_is_max _ Hr')].
      eapply is_max_perm; [|exact (py_max_is_max _ Hr)].
      now apply Permutation.Permutation_map. }
    assert (b = b').
    { eapply is_max_unique; [|exact (py_max_is_max _ Hb')].
      eapply is_max_perm; [|exact (py_max_is_max _ Hb)].
      now apply Permutation.Permutation_map. }
    now subst.
Qed.

Lemma bounding_box_order_witness :
  bounding_box [primary_monitor; secondary_monitor] =
  bounding_box [secondary_monitor; primary_monitor].
Proof.
  apply bounding_box_order. apply Permutation.perm_swap.
Defined.

(** ** The locator *)

Lemma find_workerw_hwnds (ws0 ws : list window) :
  flat_map (fun w =>
              if String.eqb (class_name w) "WorkerW" then
                if negb (find_child "SHELLDLL_DefView" w =? 0) then
                  [find_after ws0 (hwnd w) "WorkerW"]
                else []
              else []) ws
  = flat_map (fun w => if holds_icon_view w
                       then [find_after ws0 (hwnd w) "WorkerW"] else []) ws.
Proof.
  apply flat_map_ext. intro w. unfold holds_icon_view.
  destruct (String.eqb (class_name w) "WorkerW"); simpl; [|reflexivity].
  destruct (negb (find_child "SHELLDLL_DefView" w =? 0)); reflexivity.
Qed.

Lemma no_holder_no_hwnd (ws0 ws : list window) :
  (forall w, In w ws -> holds_icon_view w = false) ->
  flat_map (fun w => if holds_icon_view w
                     then [find_after ws0 (hwnd w) "WorkerW"] else []) ws = [].
Proof.
  induction ws as [|w ws IH]; intro H; [reflexivity|]. simpl.
  rewrite (H w (or_introl eq_refl)). apply IH.
  intros u Hu. apply H. now right.
Qed.

(** X4. The locator finds nothing exactly when no window of class WorkerW
    has the icon view as a child -- in particular when the icon view still
    sits under the program manager. *)
Theorem find_workerw_none (ws : list window) :
  find_workerw ws = None <->
  forall w, In w ws -> holds_icon_view w = false.
Proof.
  unfold find_workerw. rewrite find_workerw_hwnds. split.
  - intros H w Hw. destruct (holds_icon_view w) eqn:Hh; [|reflexivity].
    exfalso.
    assert (Hin : In (find_after ws (hwnd w) "WorkerW")
                     (flat_map (fun w => if holds_icon_view w
                                         then [find_after ws (hwnd w) "WorkerW"]
                                         else []) ws)).
    { apply in_flat_map. exists w. split; [exact Hw|]. rewrite Hh. now left. }
    destruct (flat_map _ ws); [destruct Hin | discriminate].
  - intro H. now rewrite no_holder_no_hwnd.
Qed.

Lemma find_after_first (pre rest : list window) (w : window) (cls : string) :
  (forall u, In u pre -> hwnd u <> hwnd w) ->
  find_after (pre ++ w :: rest) (hwnd w) cls =
  match find (fun v => String.eqb (class_name v) cls) rest with
  | Some v => hwnd v
  | None => 0
  end.
Proof.
  induction pre as [|u pre IH]; intro H; simpl.
  - now rewrite Z.eqb_refl.
  - destruct (Z.eqb_spec (hwnd u) (hwnd w)) as [Heq | _].
    + exfalso. now apply (H u (or_introl eq_refl)).
    + apply IH. intros v Hv. apply H. now right.
Qed.

(** X5. When window handles are distinct, the window the locator returns is
    the first WorkerW that follows, in Z order, the first WorkerW holding
    the icon view -- and 0 when no WorkerW follows it. *)
Theorem find_workerw_target (pre rest : list window) (w : window) :
  NoDup (map hwnd (pre ++ w :: rest)) ->
  (forall u, In u pre -> holds_icon_view u = false) ->
  holds_icon_view w = true ->
  find_workerw (pre ++ w :: rest) = Some (next_workerw rest).
Proof.
  intros Hnd Hpre Hw. unfold find_workerw. rewrite find_workerw_hwnds.
  rewrite flat_map_app, no_holder_no_hwnd by exact Hpre.
  simpl. rewrite Hw. simpl. f_equal.
  apply find_after_first.
  intros u Hu Heq. rewrite map_app in Hnd. simpl in Hnd.
  apply NoDup_remove_2 in Hnd. apply Hnd, in_or_app. left.
  rewrite <- Heq. now apply in_map.
Qed.

Lemma find_workerw_target_witness :
  find_workerw desktop_windows = Some 300.
Proof.
  apply (@find_workerw_target
           [ {| hwnd := 100; class_name := "Progman"; children := [] |} ]
           [ {| hwnd := 300; class_name := "WorkerW"; children := [] |} ]
           {| hwnd := 200; class_name := "WorkerW";
              children := [(201, "SHELLDLL_DefView")] |}).
  - repeat constructor; simpl; intuition discriminate.
  - intros u [<- | []]. reflexivity.
  - reflexivity.
Defined.

(** ** The pixel buffer handed to the stretch call *)

(** X6. For a decoded frame of the size the capture reports, the buffer
    passed to the stretch call has exactly the number of bytes the header
    built for it announces: four per pixel. *)
Theorem buffer_matches_header (f : frame) (w h : nat) :
  frame_has_size f w h ->
  Z.of_nat (List.length (tobytes (cvtColor_BGR2BGRA f))) =
  biSizeImage (create_bmi_header (Z.of_nat w) (Z.of_nat h)).
Proof.
  intro Hf. pose proof (cvtColor_size Hf) as H4.
  unfold tobytes.
  rewrite (length_flat_map_uniform _ (row_bytes_length H4)).
  destruct H4 as [-> _]. simpl. lia.
Qed.

Lemma buffer_matches_header_witness :
  Z.of_nat (List.length
              (tobytes (cvtColor_BGR2BGRA [[(10, 20, 30); (11, 21, 31)]]))) =
  biSizeImage (create_bmi_header 2 1).
Proof.
  apply (@buffer_matches_header [[(10, 20, 30); (11, 21, 31)]] 2 1).
  split; [reflexivity | repeat constructor].
Defined.



(** ** Opening the sources *)

Section Registration.

Variable E : env.

Lemma open_sources_registers (items : list (string * config))
      (fps0 : option Z) (s : state) :
  NoDup (map fst items) ->
  (forall k, In k (map fst items) -> ~ In k (map fst (caps s))) ->
  (forall k c, In (k, c) items -> path_of c <> None ->
               monitor_info c <> None) ->
  (exists fps', fst (open_sources E items fps0 s) = Ok fps') /\
  map cap_view (caps (snd (open_sources E items fps0 s))) =
    map cap_view (caps s) ++ flat_map (registered_entry E) items.
Proof.
  revert fps0 s; induction items as [|[monitor_id config] rest IH];
    intros fps0 s Hnd Hkeys Hinfo; simpl open_sources.
  - split; [now exists fps0 | now rewrite app_nil_r].
  - inversion Hnd as [|? ? Hk Hnd']; subst.
    assert (Hinfo' : forall k c, In (k, c) rest -> path_of c <> None ->
                                 monitor_info c <> None).
    { intros k c H. apply (Hinfo k c). now right. }
    assert (Hkeys' : forall k, In k (map fst rest) ->
                               ~ In k (map fst (caps s))).
    { intros k H. apply Hkeys. now right. }
    simpl flat_map. unfold registered_entry at 1. simpl fst. simpl snd.
    destruct (path_of config) as [path|] eqn:Hpath; [|now apply IH].
    unfold bind, video_capture, is_opened, get, modify, emit, cap_get, ret,
      raise. simpl. rewrite nth_error_new. simpl.
    destruct (videos E path) as [v|]; simpl.
    + destruct (monitor_info config) as [i|] eqn:Hi; simpl.
      2:{ exfalso. apply (Hinfo monitor_id config); [now left | | exact Hi].
          rewrite Hpath. discriminate. }
      rewrite nth_error_new. simpl.
      assert (Hfresh : ~ In monitor_id (map fst (caps s))).
      { apply Hkeys. now left. }
      match goal with
      | |- context [open_sources E rest ?f ?t] =>
          destruct (IH f t Hnd') as [Hok Hcaps]; auto
      end.
      { intros k H. simpl. rewrite (@dict_set_fresh _ _ _ Hfresh), map_app.
        simpl. intro H'. apply in_app_or in H'. destruct H' as [H' | [<- | []]].
        - revert H'. now apply Hkeys'.
        - now apply Hk. }
      split; [exact Hok|]. rewrite Hcaps. simpl.
      rewrite (@dict_set_fresh _ _ _ Hfresh), map_app. simpl.
      now rewrite <- app_assoc.
    + match goal with
      | |- context [open_sources E rest ?f ?t] =>
          destruct (IH f t Hnd') as [Hok Hcaps]; auto
      end.
Qed.

(** X8. With a complete configuration, what opening the sources leaves in
    [caps] is, in the order of the configuration, one entry for every
    assignment whose file opens -- with the monitor of the assignment and
    its rate, 30 when none is given; a file that does not open, or an empty
    path, only leaves its own assignment out. *)
Theorem valid_sources_registered (cfg : list (string * config))
        (fps0 : option Z) (s : state) :
  complete_config cfg ->
  caps s = [] ->
  (exists fps', fst (open_sources E cfg fps0 s) = Ok fps') /\
  map cap_view (caps (snd (open_sources E cfg fps0 s))) =
    flat_map (registered_entry E) cfg.
Proof.
  intros [Hnd Hinfo] Hc.
  destruct (@open_sources_registers cfg fps0 s Hnd) as [Hok Hcaps].
  - intros k _. rewrite Hc. intros [].
  - exact Hinfo.
  - split; [exact Hok|]. rewrite Hcaps, Hc. reflexivity.
Qed.



End Registration.

Lemma mixed_config_complete : complete_config mixed_config.
Proof.
  split.
  - repeat constructor; simpl; intuition discriminate.
  - intros k c [H | [H | []]] _; inversion H; subst; discriminate.
Qed.

Lemma valid_sources_registered_witness :
  map cap_view (caps (snd (open_sources desktop_env mixed_config None
                                        init_state)))
  = [("monitor_65537", primary_monitor, 24)].
Proof.
  exact (proj2 (@valid_sources_registered desktop_env mixed_config None
                  init_state mixed_config_complete eq_refl)).
Defined.


(** ** The anatomy of a tick *)

Section Anatomy.

Variable E : env.
Variable g : geometry.

Lemma draw_sources_clock (items : list (string * cap_data)) (fps0 : option Z)
      (s : state) :
  clock_calls (snd (draw_sources E g items fps0 s)) = clock_calls s.
Proof.
  revert fps0 s; induction items as [|[k data] rest IH]; intros fps0 s;
    simpl draw_sources; [reflexivity|].
  unfold bind. pose proof (draw_source_ok E g data s) as Hok.
  assert (Hc : clock_calls (snd (draw_source E g data s)) = clock_calls s).
  { unfold draw_source, bind, cap_read, cap_set_pos, blit, cap_get, get,
      modify, emit, ret, advance.
    destruct (next_frame E (cap data) s) as [f|]; simpl.
    - destruct (nth_error (decoders s) (cap data)); reflexivity.
    - match goal with
      | |- context [next_frame E (cap data) ?t] =>
          destruct (next_frame E (cap data) t) as [f|]
      end; simpl;
        destruct (nth_error (decoders s) (cap data)); simpl;
        repeat match goal with
               | |- context [nth_error ?l ?c] => destruct (nth_error l c)
               end; reflexivity. }
  destruct (draw_source E g data s) as [o s1]; simpl in *. subst o.
  now rewrite IH.
Qed.

(** A tick is its [for] loop, which always returns, followed by lines
    159-175. *)
Lemma tick_split (last_time : Q) (fps0 : option Z) (s : state) :
  tick E g last_time fps0 s =
  tick_tail E g last_time (last_fps (caps s) fps0)
            (snd (draw_sources E g (caps s) fps0 (tick_start g s))).
Proof.
  unfold tick, tick_tail, tick_start.
  unfold bind at 1. unfold modify at 1.
  unfold bind at 1. unfold modify at 1.
  unfold bind at 1. unfold emit at 1, modify at 1.
  unfold bind at 1. unfold get at 1.
  unfold bind at 1.
  cbn [caps set_trace set_canvas set_ticks trace canvas ticks].
  match goal with
  | |- context [draw_sources E g ?l fps0 ?t] =>
      pose proof (draw_sources_ok E g l fps0 t) as Hok;
      destruct (draw_sources E g l fps0 t) as [o s2]
  end.
  simpl in Hok. subst o. reflexivity.
Qed.

(** The state the [for] loop of a tick ends in. *)
Lemma tick_drawn (fps0 : option Z) (s : state) :
  exists mid,
    trace (snd (draw_sources E g (caps s) fps0 (tick_start g s))) =
      mid ++ EvFillSolidRect 0 0 (total_width g) (total_height g) black
          :: trace s /\
    (forall ev, In ev mid -> draw_event ev = true) /\
    desktop (snd (draw_sources E g (caps s) fps0 (tick_start g s)))
      = desktop s /\
    ticks (snd (draw_sources E g (caps s) fps0 (tick_start g s)))
      = S (ticks s) /\
    caps (snd (draw_sources E g (caps s) fps0 (tick_start g s))) = caps s /\
    clock_calls (snd (draw_sources E g (caps s) fps0 (tick_start g s)))
      = clock_calls s.
Proof.
  destruct (draw_sources_effect E g (caps s) fps0 (tick_start g s))
    as (mid & Ht & Hd & Hk & Hn & Hc & _).
  exists mid. rewrite Ht, Hk, Hn, Hc, draw_sources_clock.
  repeat split; auto.
Qed.

(** Lines 159-175 when the rate is [f] and not zero. *)
Lemma tick_tail_paced (last_time : Q) (f : Z) (s2 : state) :
  f <> 0 ->
  tick_tail E g last_time (Some f) s2 =
  if second_elapsed E last_time (presented E g s2) then
    (Ok (clock E (S (clock_calls s2)), Some f),
     set_trace (EvWaitKey (Z.quot 1000 f) :: EvFpsUpdated f
                  :: trace (presented E g s2))
               (set_clock_calls (S (S (clock_calls s2))) (presented E g s2)))
  else
    (Ok (last_time, Some f),
     set_trace (EvWaitKey (Z.quot 1000 f) :: trace (presented E g s2))
               (set_clock_calls (S (clock_calls s2)) (presented E g s2))).
Proof.
  intro Hf. apply Z.eqb_neq in Hf.
  unfold tick_tail, bind, present, presented, time_time, second_elapsed, pace,
    load_fps, emit, modify, ret.
  destruct (bitblt_fault E (ticks s2));
    cbn -[Z.eqb Z.quot Qle_bool Qminus bit_blt];
    match goal with
    | |- context [Qle_bool ?a ?b] => destruct (Qle_bool a b)
    end;
    cbn -[Z.eqb Z.quot Qle_bool Qminus bit_blt]; rewrite Hf; reflexivity.
Qed.

(** Lines 159-175 when the rate is zero. *)
Lemma tick_tail_zero (last_time : Q) (s2 : state) :
  tick_tail E g last_time (Some 0) s2 =
  if second_elapsed E last_time (presented E g s2) then
    (Raise (ZeroDivisionError "division by zero"),
     set_trace (EvFpsUpdated 0 :: trace (presented E g s2))
               (set_clock_calls (S (S (clock_calls s2))) (presented E g s2)))
  else
    (Raise (ZeroDivisionError "division by zero"),
     set_clock_calls (S (clock_calls s2)) (presented E g s2)).
Proof.
  unfold tick_tail, bind, present, presented, time_time, second_elapsed, pace,
    load_fps, emit, modify, ret, raise.
  destruct (bitblt_fault E (ticks s2));
    cbn -[Z.quot Qle_bool Qminus bit_blt];
    match goal with
    | |- context [Qle_bool ?a ?b] => destruct (Qle_bool a b)
    end; reflexivity.
Qed.

Lemma presented_fields (s2 : state) :
  caps (presented E g s2) = caps s2 /\
  ticks (presented E g s2) = ticks s2 /\
  clock_calls (presented E g s2) = clock_calls s2.
Proof.
  unfold presented. destruct (bitblt_fault E (ticks s2)); now repeat split.
Qed.

(** A tick over sources whose last rate is not zero returns, leaves [caps]
    as it was and counts one iteration. *)
Lemma tick_returns (last_time : Q) (fps0 : option Z) (s : state)
      (items : list (string * cap_data)) (k : string) (d : cap_data) :
  caps s = items ++ [(k, d)] ->
  fps d <> 0 ->
  exists last_time' s',
    tick E g last_time fps0 s = (Ok (last_time', Some (fps d)), s') /\
    caps s' = caps s /\ ticks s' = S (ticks s).
Proof.
  intros Hcaps Hrate. rewrite tick_split, Hcaps, last_fps_snoc.
  rewrite <- Hcaps. rewrite (tick_tail_paced _ _ Hrate).
  destruct (tick_drawn fps0 s) as (mid & _ & _ & _ & Hn & Hc & _).
  destruct (presented_fields
              (snd (draw_sources E g (caps s) fps0 (tick_start g s))))
    as (Hpc & Hpn & _).
  destruct (second_elapsed E last_time _); do 2 eexists;
    (split; [reflexivity|]); simpl; rewrite Hpc, Hpn, Hc, Hn; now split.
Qed.

Lemma playback_step (fuel : nat) (last_time : Q) (fps0 : option Z)
      (s : state) :
  running E (ticks s) = true ->
  caps s <> [] ->
  playback E (S fuel) g last_time fps0 s =
  bind (tick E g last_time fps0)
       (fun r => playback E fuel g (fst r) (snd r)) s.
Proof.
  intros Hrun Hne. simpl playback. rewrite Hrun.
  destruct (caps s); [congruence | reflexivity].
Qed.

Lemma snoc_not_nil {A : Type} (l : list A) (a : A) : l ++ [a] <> [].
Proof. destruct l; discriminate. Qed.

(** X10. The stop is cooperative: with sources whose last rate is not zero,
    the loop runs one tick for every test of the flag that finds it set and
    ends, without touching [caps], at the first test that finds it cleared
    -- after exactly as many ticks as tests succeeded. *)
Theorem playback_runs_until_stopped (n fuel : nat) :
  forall (last_time : Q) (fps0 : option Z) (s : state)
         (items : list (string * cap_data)) (k : string) (d : cap_data),
    caps s = items ++ [(k, d)] ->
    fps d <> 0 ->
    (forall j, (ticks s <= j < n)%nat -> running E j = true) ->
    running E n = false ->
    (ticks s <= n)%nat ->
    (n - ticks s <= fuel)%nat ->
    exists s',
      playback E fuel g last_time fps0 s = (Ok tt, s') /\
      ticks s' = n /\ caps s' = caps s.
Proof.
  induction fuel as [|fuel IH];
    intros last_time fps0 s items k d Hcaps Hrate Hrun Hstop Hle Hfuel.
  - assert (ticks s = n) by lia. subst n. simpl. rewrite Hstop. simpl.
    now exists s.
  - destruct (Nat.eq_dec (ticks s) n) as [Heq | Hne].
    + simpl playback. rewrite Heq, Hstop. simpl. exists s. now repeat split.
    + change (exists s',
                playback E (S fuel) g last_time fps0 s = (Ok tt, s') /\
                ticks s' = n /\ caps s' = caps s).
      rewrite playback_step
        by (try (apply Hrun; lia); rewrite Hcaps; apply snoc_not_nil).
      destruct (@tick_returns last_time fps0 s items k d Hcaps Hrate)
        as (lt' & s1 & Htick & Hc1 & Hn1).
      unfold bind. rewrite Htick. simpl fst. simpl snd.
      destruct (IH lt' (Some (fps d)) s1 items k d) as (s' & Hp & Ht & Hc);
        try (rewrite ?Hc1, ?Hn1; auto; lia).
      * intros j Hj. apply Hrun. lia.
      * exists s'. rewrite Hp. repeat split; congruence.
Qed.

(** X11. With a last rate of zero the first tick still clears, draws and
    presents, and then raises the division by zero instead of waiting: the
    loop ends after that one tick. *)
Theorem zero_rate_ends_after_one_tick (fuel : nat) (last_time : Q)
        (fps0 : option Z) (s : state) (items : list (string * cap_data))
        (k : string) (d : cap_data) :
  caps s = items ++ [(k, d)] ->
  fps d = 0 ->
  running E (ticks s) = true ->
  fst (playback E (S fuel) g last_time fps0 s)
    = Raise (ZeroDivisionError "division by zero") /\
  ticks (snd (playback E (S fuel) g last_time fps0 s)) = S (ticks s) /\
  (exists ok, In (EvBitBlt (total_width g) (total_height g) ok)
                 (trace (snd (playback E (S fuel) g last_time fps0 s)))) /\
  (forall ms, In (EvWaitKey ms)
                 (trace (snd (playback E (S fuel) g last_time fps0 s))) ->
              In (EvWaitKey ms) (trace s)).
Proof.
  intros Hcaps Hrate Hrun.
  rewrite playback_step
    by (try exact Hrun; rewrite Hcaps; apply snoc_not_nil).
  unfold bind.
  rewrite tick_split, Hcaps, last_fps_snoc, Hrate. rewrite <- Hcaps.
  rewrite tick_tail_zero.
  destruct (tick_drawn fps0 s) as (mid & Ht & Hd & _ & Hn & _ & _).
  set (s2 := snd (draw_sources E g (caps s) fps0 (tick_start g s))) in *.
  assert (Hp : ticks (presented E g s2) = S (ticks s)).
  { destruct (presented_fields s2) as (_ & -> & _). exact Hn. }
  assert (Hb : exists ok, In (EvBitBlt (total_width g) (total_height g) ok)
                             (trace (presented E g s2))).
  { unfold presented. destruct (bitblt_fault E (ticks s2)).
    - exists false. right. now left.
    - exists true. now left. }
  assert (Hw : forall ms, In (EvWaitKey ms) (trace (presented E g s2)) ->
                          In (EvWaitKey ms) (trace s)).
  { intros ms. unfold presented.
    destruct (bitblt_fault E (ticks s2)); simpl; rewrite Ht;
      intros H;
      repeat match goal with
             | H : _ \/ _ |- _ => destruct H as [H | H]; try discriminate
             end;
      (apply in_app_or in H; destruct H as [H | [H | H]];
       [apply Hd in H; discriminate | discriminate | exact H]). }
  destruct (second_elapsed E last_time (presented E g s2)); simpl.
  - repeat split; auto.
    + destruct Hb as [ok Hok]. exists ok. now right.
    + intros ms [H | H]; [discriminate | now apply Hw].
  - repeat split; auto.
Qed.

(** X12. A present that fails does not end the tick: the failure is printed,
    nothing reaches the error channel, the desktop keeps what it showed, and
    the tick goes on to its wait. *)
Theorem failed_present_is_swallowed (last_time : Q) (fps0 : option Z)
        (s : state) (items : list (string * cap_data)) (k : string)
        (d : cap_data) (e : exn) :
  caps s = items ++ [(k, d)] ->
  fps d <> 0 ->
  bitblt_fault E (S (ticks s)) = Some e ->
  exists last_time' s' evs,
    tick E g last_time fps0 s = (Ok (last_time', Some (fps d)), s') /\
    trace s' = evs ++ trace s /\
    In (EvPrint (bitblt_error e)) evs /\
    (forall ev, In ev evs -> is_error ev = false) /\
    (exists later, evs = EvWaitKey (Z.quot 1000 (fps d)) :: later) /\
    desktop s' = desktop s.
Proof.
  intros Hcaps Hrate Hfault. rewrite tick_split, Hcaps, last_fps_snoc.
  rewrite <- Hcaps. rewrite (tick_tail_paced _ _ Hrate).
  destruct (tick_drawn fps0 s) as (mid & Ht & Hd & Hk & Hn & _ & _).
  set (s2 := snd (draw_sources E g (caps s) fps0 (tick_start g s))) in *.
  assert (Hp : presented E g s2 =
               set_trace (EvPrint (bitblt_error e)
                            :: EvBitBlt (total_width g) (total_height g) false
                            :: trace s2) s2).
  { unfold presented. now rewrite Hn, Hfault. }
  rewrite Hp.
  assert (Hmid : forall ev, In ev mid -> is_error ev = false).
  { intros ev H. apply Hd in H. destruct ev; try discriminate; reflexivity. }
  destruct (second_elapsed E last_time _); simpl; rewrite Ht.
  - exists (clock E (S (clock_calls s2))). eexists.
    exists (EvWaitKey (Z.quot 1000 (fps d)) :: EvFpsUpdated (fps d)
              :: EvPrint (bitblt_error e)
              :: EvBitBlt (total_width g) (total_height g) false
              :: mid ++ [EvFillSolidRect 0 0 (total_width g) (total_height g)
                                         black]).
    split; [reflexivity|]. split.
    { simpl. now rewrite <- app_assoc. }
    split; [right; right; now left|].
    split.
    { intros ev [<- | [<- | [<- | [<- | H]]]]; try reflexivity.
      apply in_app_or in H. destruct H as [H | [<- | []]];
        [now apply Hmid | reflexivity]. }
    split; [eexists; reflexivity | exact Hk].
  - exists last_time. eexists.
    exists (EvWaitKey (Z.quot 1000 (fps d))
              :: EvPrint (bitblt_error e)
              :: EvBitBlt (total_width g) (total_height g) false
              :: mid ++ [EvFillSolidRect 0 0 (total_width g) (total_height g)
                                         black]).
    split; [reflexivity|]. split.
    { simpl. now rewrite <- app_assoc. }
    split; [right; now left|].
    split.
    { intros ev [<- | [<- | [<- | H]]]; try reflexivity.
      apply in_app_or in H. destruct H as [H | [<- | []]];
        [now apply Hmid | reflexivity]. }
    split; [eexists; reflexivity | exact Hk].
Qed.

(** X13. The live rate is the configured one: a tick emits the rate signal
    exactly when at least one second has passed since the last emission; the
    value it carries is the rate of the last source of [caps], not a measured
    rate, and the time of the emission is then taken from the next reading
    of the clock. *)
Theorem live_rate_is_configured (last_time : Q) (fps0 : option Z) (s : state)
        (items : list (string * cap_data)) (k : string) (d : cap_data) :
  caps s = items ++ [(k, d)] ->
  fps d <> 0 ->
  exists s' evs,
    tick E g last_time fps0 s =
      (Ok (if second_elapsed E last_time s
           then clock E (S (clock_calls s)) else last_time,
           Some (fps d)), s') /\
    trace s' = evs ++ trace s /\
    filter is_signal evs =
      if second_elapsed E last_time s then [EvFpsUpdated (fps d)] else [].
Proof.
  intros Hcaps Hrate. rewrite tick_split, Hcaps, last_fps_snoc.
  rewrite <- Hcaps. rewrite (tick_tail_paced _ _ Hrate).
  destruct (tick_drawn fps0 s) as (mid & Ht & Hd & _ & _ & _ & Hclk).
  set (s2 := snd (draw_sources E g (caps s) fps0 (tick_start g s))) in *.
  assert (Hsec : second_elapsed E last_time (presented E g s2) =
                 second_elapsed E last_time s).
  { unfold second_elapsed.
    destruct (presented_fields s2) as (_ & _ & ->). now rewrite Hclk. }
  assert (Hmid : filter is_signal mid = []).
  { clear - Hd. induction mid as [|ev mid IH]; [reflexivity|]. simpl.
    assert (H : draw_event ev = true) by (apply Hd; now left).
    destruct ev; try discriminate; simpl; apply IH; intros; apply Hd;
      now right. }
  assert (Hpres : exists pre, trace (presented E g s2) = pre ++ trace s /\
                              filter is_signal pre = []).
  { unfold presented. destruct (bitblt_fault E (ticks s2)); simpl; rewrite Ht.
    - exists (EvPrint (bitblt_error e)
                :: EvBitBlt (total_width g) (total_height g) false
                :: mid ++ [EvFillSolidRect 0 0 (total_width g) (total_height g)
                                           black]).
      split; [simpl; now rewrite <- app_assoc|].
      simpl. now rewrite filter_app, Hmid.
    - exists (EvBitBlt (total_width g) (total_height g) true
                :: mid ++ [EvFillSolidRect 0 0 (total_width g) (total_height g)
                                           black]).
      split; [simpl; now rewrite <- app_assoc|].
      simpl. now rewrite filter_app, Hmid. }
  destruct Hpres as (pre & Hpre & Hsig).
  rewrite Hsec, Hclk. destruct (second_elapsed E last_time s).
  - eexists.
    exists (EvWaitKey (Z.quot 1000 (fps d)) :: EvFpsUpdated (fps d) :: pre).
    split; [reflexivity|].
    split; [simpl; now rewrite Hpre|].
    simpl. now rewrite Hsig.
  - eexists. exists (EvWaitKey (Z.quot 1000 (fps d)) :: pre).
    split; [reflexivity|].
    split; [simpl; now rewrite Hpre|].
    simpl. exact Hsig.
Qed.

End Anatomy.

Lemma playback_runs_until_stopped_witness :
  exists s',
    playback desktop_env 5 desktop_geometry 0%Q None at_end_of_clip
    = (Ok tt, s') /\
    ticks s' = 3%nat /\ caps s' = caps at_end_of_clip.
Proof.
  apply (@playback_runs_until_stopped desktop_env desktop_geometry 3 5 0%Q None
           at_end_of_clip []
           "monitor_65537" {| cap := 0; info := primary_monitor; fps := 24 |}).
  - reflexivity.
  - simpl. lia.
  - intros j Hj. simpl in Hj.
    destruct j as [|[|[|j]]]; try reflexivity. lia.
  - reflexivity.
  - simpl. lia.
  - simpl. lia.
Defined.

Lemma zero_rate_ends_after_one_tick_witness :
  fst (playback desktop_env 5 desktop_geometry 0%Q None zero_rate_state)
  = Raise (ZeroDivisionError "division by zero") /\
  ticks (snd (playback desktop_env 5 desktop_geometry 0%Q None
                       zero_rate_state)) = 1%nat.
Proof.
  destruct (@zero_rate_ends_after_one_tick desktop_env desktop_geometry 4 0%Q
              None zero_rate_state []
              "monitor_65537" {| cap := 0; info := primary_monitor; fps := 0 |}
              eq_refl eq_refl eq_refl) as (Hr & Ht & _).
  split; [exact Hr | exact Ht].
Defined.

Lemma failed_present_is_swallowed_witness :
  exists last_time' s' evs,
    tick flaky_env desktop_geometry 0%Q None at_start_of_clip
    = (Ok (last_time', Some 24), s') /\
    trace s' = evs ++ trace at_start_of_clip /\
    In (EvPrint "Error in BitBlt operation: BitBlt failed") evs /\
    desktop s' = desktop at_start_of_clip.
Proof.
  destruct (@failed_present_is_swallowed flaky_env desktop_geometry 0%Q None
              at_start_of_clip []
              "monitor_65537" {| cap := 0; info := primary_monitor; fps := 24 |}
              (Win32Error "BitBlt failed") eq_refl)
    as (lt' & s' & evs & Htick & Htr & Hp & _ & _ & Hd).
  - simpl. lia.
  - reflexivity.
  - exists lt', s', evs. repeat split; assumption.
Defined.

Lemma live_rate_is_configured_witness :
  exists s' evs,
    tick desktop_env desktop_geometry (-1)%Q None at_start_of_clip
    = (Ok (Qmake 1 2, Some 24), s') /\
    trace s' = evs ++ trace at_start_of_clip /\
    filter is_signal evs = [EvFpsUpdated 24].
Proof.
  apply (@live_rate_is_configured desktop_env desktop_geometry (-1)%Q None
           at_start_of_clip []
           "monitor_65537" {| cap := 0; info := primary_monitor; fps := 24 |}).
  - reflexivity.
  - simpl. lia.
Defined.

(** ** Nothing follows the releases *)

Lemma no_final_step (s s' : state) (evs : list event) :
  trace s' = evs ++ trace s ->
  (forall ev, In ev evs -> final_event ev = false) ->
  no_final s -> no_final s'.
Proof.
  intros Ht Hq Hs ev Hev. rewrite Ht in Hev. apply in_app_or in Hev.
  destruct Hev; auto.
Qed.

Section Finality.

Variable E : env.

Lemma no_final_emit (ev : event) :
  final_event ev = false -> maintains no_final (emit ev).
Proof.
  intros Hev s Hs. apply (@no_final_step s _ [ev]); auto.
  intros ev' [<- | []]. exact Hev.
Qed.

Lemma no_final_acquire : maintains no_final (acquire E).
Proof.
  unfold acquire.
  repeat first
    [ apply maintains_bind; [| intro]
    | apply maintains_ret | apply maintains_raise | apply maintains_get
    | apply maintains_may_fail
    | apply no_final_emit; reflexivity
    | apply maintains_modify; intros s H; exact H
    | match goal with
      | |- maintains _ (match ?x with _ => _ end) => destruct x
      end ].
Qed.

Lemma no_final_open_sources (items : list (string * config))
      (fps : option Z) :
  maintains no_final (open_sources E items fps).
Proof.
  revert fps; induction items as [|[monitor_id config] rest IH]; intro fps;
    simpl open_sources; [apply maintains_ret|].
  destruct (path_of config) as [path|]; [|apply IH].
  apply maintains_bind.
  { intros s Hs. unfold video_capture. simpl.
    apply (@no_final_step s _ [EvVideoCapture (List.length (decoders s)) path
                                              (is_some (videos E path))]);
      auto.
    intros ev [<- | []]. reflexivity. }
  intro c. apply maintains_bind; [apply maintains_get | intros []].
  - apply maintains_bind;
      [destruct (monitor_info config);
       [apply maintains_ret | apply maintains_raise]|].
    intro i. apply maintains_bind.
    { apply maintains_modify. intros s H; exact H. }
    intros _. apply maintains_bind; [apply maintains_get | intro v].
    apply maintains_bind; [|intros _; apply IH].
    apply no_final_emit. reflexivity.
  - apply maintains_bind; [|intros _; apply IH].
    apply no_final_emit. reflexivity.
Qed.

Lemma no_final_playback (fuel : nat) (g : geometry) (last_time : Q)
      (fps : option Z) :
  maintains no_final (playback E fuel g last_time fps).
Proof.
  apply loop_playback; try (intros s v Hs; exact Hs).
  - intros s ev Hev Hs. apply (@no_final_step s _ [ev]); auto.
    intros ev' [<- | []]. destruct ev; try discriminate; reflexivity.
  - intros s ds _ Hs; exact Hs.
Qed.

Lemma no_final_try_block (cfg : list (string * config)) (fuel : nat) :
  no_final (snd (try_block E cfg fuel init_state)).
Proof.
  assert (H : maintains no_final (try_block E cfg fuel)).
  { unfold try_block.
    apply maintains_bind; [apply maintains_modify; intros s H; exact H|].
    intros _. apply maintains_bind; [apply maintains_get|]. intro w.
    destruct (negb (truthy w)); [apply no_final_emit; reflexivity|].
    apply maintains_bind; [apply no_final_acquire | intro g].
    apply maintains_bind; [apply no_final_open_sources | intro fps].
    apply maintains_bind; [|intro; apply no_final_playback].
    intros s Hs; exact Hs. }
  apply H. intros ev [].
Qed.

Lemma release_events_finally (s : state) :
  release_events (snd (finally_block s)) =
  release_events (snd (release_all (caps s) s)).
Proof. rewrite finally_block_eq. reflexivity. Qed.

(** X14. In every session that ends, the captures are released in the order
    in which they stand in [caps], then the memory device context, the
    wrapper of the window device context, the window device context and the
    bitmap, and nothing else is called from the first release on: no call
    reads, draws or presents after a release. *)
Theorem releases_come_last (cfg : list (string * config)) (fuel : nat) :
  finished (run E cfg fuel) = true ->
  exists before,
    history (run E cfg fuel) =
      before ++ map EvRelease (cap_ids (caps (snd (run E cfg fuel))))
             ++ rev (release_events (snd (run E cfg fuel))) /\
    (forall ev, In ev before -> final_event ev = false).
Proof.
  unfold finished, run, history.
  pose proof (no_final_try_block cfg fuel) as Hnf.
  destruct (try_block E cfg fuel init_state) as [[[] | e |] s];
    simpl in Hnf; [| | discriminate]; intros _.
  - destruct (finally_effect s) as [Hc Ht].
    exists (rev (trace s)).
    rewrite Ht, Hc, release_events_finally.
    rewrite !rev_app_distr, rev_involutive, <- app_assoc.
    split; [reflexivity|].
    intros ev Hev. rewrite <- in_rev in Hev. now apply Hnf.
  - unfold bind, emit, modify. simpl fst. cbv iota beta.
    set (s' := set_trace (EvError (str_exn e) :: trace s) s).
    destruct (finally_effect s') as [Hc Ht].
    exists (rev (trace s')).
    rewrite Ht, Hc, release_events_finally.
    rewrite !rev_app_distr, rev_involutive, <- app_assoc.
    split; [reflexivity|].
    intros ev Hev. rewrite <- in_rev in Hev. simpl in Hev.
    destruct Hev as [<- | Hev]; [reflexivity | now apply Hnf].
Qed.

End Finality.

Lemma releases_come_last_witness :
  exists before,
    history (run desktop_env mixed_config 5) =
      before ++ [EvRelease 0]
             ++ [EvDeleteDC SaveDC; EvDeleteDC MfcDC; EvReleaseDC 300 77;
                 EvDeleteObject Attached] /\
    (forall ev, In ev before -> final_event ev = false).
Proof.
  exact (@releases_come_last desktop_env mixed_config 5 eq_refl).
Defined.

(** ** Playback is cyclic *)

Section Cycle.

Variable E : env.
Variable g : geometry.
Hypothesis no_fault : forall i, read_fault E i = false.

(** One turn of the loop body on a source standing at frame [p] of [n]:
    the frame drawn is frame [p mod n], and the source then stands behind
    it. *)
Lemma draw_source_cycle (data : cap_data) (s : state) (d : decoder)
      (v : video) :
  nth_error (decoders s) (cap data) = Some d ->
  dec_video d = Some v ->
  frames v <> [] ->
  (dec_pos d <= List.length (frames v))%nat ->
  frame_to_draw E (cap data) s =
    nth_error (frames v) (dec_pos d mod List.length (frames v)) /\
  nth_error (decoders (snd (draw_source E g data s))) (cap data) =
    Some {| dec_video := Some v;
            dec_pos := S (dec_pos d mod List.length (frames v)) |}.
Proof.
  intros Hd Hv Hne Hpos.
  assert (Hn : (0 < List.length (frames v))%nat).
  { destruct (frames v); [congruence | simpl; lia]. }
  unfold frame_to_draw, draw_source, bind.
  assert (H1 : next_frame E (cap data) s = nth_error (frames v) (dec_pos d)).
  { unfold next_frame. now rewrite Hd, Hv, no_fault. }
  destruct (Nat.eq_dec (dec_pos d) (List.length (frames v))) as [Heq | Hlt].
  - (* past the last frame: the read fails, the seek restarts *)
    assert (H0 : next_frame E (cap data) s = None).
    { rewrite H1. apply nth_error_None. lia. }
    rewrite H0. rewrite (@cap_read_none _ _ _ H0). cbn [snd]. cbv beta iota.
    assert (Hd1 : nth_error (decoders (set_trace (EvRead (cap data) false
                                                    :: trace s)
                                (set_reads (S (reads s)) s))) (cap data)
                  = Some d) by exact Hd.
    rewrite (@cap_set_pos_some _ O _ _ Hd1). cbn [snd]. cbv beta iota.
    rewrite Heq, Nat.Div0.mod_same.
    destruct (frames v) as [|f0 rest] eqn:Hfr; [congruence|].
    match goal with
    | |- context [cap_read E (cap data) ?t] =>
        assert (Hd2 : nth_error (decoders t) (cap data) =
                      Some {| dec_video := dec_video d; dec_pos := O |})
          by (simpl; apply (@nth_error_list_update _ _ _ _ _ Hd));
        assert (H2 : next_frame E (cap data) t = Some f0)
          by (unfold next_frame; rewrite Hd2; simpl;
              now rewrite Hv, no_fault, Hfr)
    end.
    rewrite H2. split; [reflexivity|].
    rewrite (@cap_read_some _ _ _ _ _ Hd2 H2).
    unfold blit, bind, cap_get, get, modify, emit, ret. simpl.
    simpl in Hd2. rewrite (@nth_error_list_update _ _ _ _ _ Hd2). simpl.
    now rewrite Hv.
  - assert (Hlt' : (dec_pos d < List.length (frames v))%nat) by lia.
    rewrite (Nat.mod_small _ _ Hlt').
    destruct (nth_error (frames v) (dec_pos d)) as [f|] eqn:Hf.
    2:{ apply nth_error_None in Hf. lia. }
    rewrite H1. split; [reflexivity|].
    rewrite (@cap_read_some _ _ _ _ _ Hd H1).
    unfold blit, bind, cap_get, get, modify, emit, ret. simpl.
    rewrite (@nth_error_list_update _ _ _ _ _ Hd). simpl.
    now rewrite Hv.
Qed.

(** X15. Without decoder failures a source plays its frames round and
    round: counted from a source standing at frame [p], the [j]-th later
    turn of the loop body draws frame [(p + j) mod n] of its [n] frames --
    no frame is skipped or shown twice when the stream restarts. *)
Theorem playback_is_cyclic (data : cap_data) (v : video) (j : nat) :
  forall (s : state) (d : decoder),
    nth_error (decoders s) (cap data) = Some d ->
    dec_video d = Some v ->
    frames v <> [] ->
    (dec_pos d <= List.length (frames v))%nat ->
    frame_to_draw E (cap data) (draw_repeatedly E g data j s) =
      nth_error (frames v) ((dec_pos d + j) mod List.length (frames v)).
Proof.
  induction j as [|j IH]; intros s d Hd Hv Hne Hpos.
  - simpl draw_repeatedly. rewrite Nat.add_0_r.
    apply (proj1 (draw_source_cycle data s Hd Hv Hne Hpos)).
  - simpl draw_repeatedly.
    destruct (draw_source_cycle data s Hd Hv Hne Hpos) as [_ Hd'].
    assert (Hn : (0 < List.length (frames v))%nat).
    { destruct (frames v); [congruence | simpl; lia]. }
    rewrite (IH _ _ Hd' eq_refl Hne).
    + simpl dec_pos. f_equal.
      replace (S (dec_pos d mod List.length (frames v)) + j)%nat
        with (dec_pos d mod List.length (frames v) + S j)%nat by lia.
      now rewrite Nat.Div0.add_mod_idemp_l.
    + simpl dec_pos.
      pose proof (Nat.mod_upper_bound (dec_pos d) (List.length (frames v))).
      lia.
Qed.

End Cycle.

Lemma playback_is_cyclic_witness :
  frame_to_draw desktop_env 0
    (draw_repeatedly desktop_env desktop_geometry
       {| cap := 0; info := primary_monitor; fps := 24 |} 5 at_start_of_clip)
  = Some [[(40, 50, 60); (41, 51, 61)]].
Proof.
  apply (@playback_is_cyclic desktop_env desktop_geometry (fun _ => eq_refl)
           {| cap := 0; info := primary_monitor; fps := 24 |} clip 5
           at_start_of_clip {| dec_video := Some clip; dec_pos := 0 |}).
  - reflexivity.
  - reflexivity.
  - discriminate.
  - simpl. lia.
Defined.

(** ** A bitmap that cannot be created *)

(** X16. When the bitmap cannot be created, the failure is reported, no
    source is opened and no tick runs; the three device contexts are
    released, and the [finally] block still calls [DeleteObject] -- on the
    bitmap object that holds no bitmap. *)
Theorem bitmap_failure_path (E : env) (cfg : list (string * config))
        (fuel : nat) (w : Z) (e : exn) :
  find_workerw (windows E) = Some w ->
  w <> 0 ->
  window_dc E <> 0 ->
  window_dc_fault E = None ->
  dc_from_handle_fault E = None ->
  compatible_dc_fault E = None ->
  displays E <> [] ->
  compatible_bitmap_fault E = Some e ->
  history (run E cfg fuel) =
    [EvGetWindowDC w (window_dc E); EvCreateDCFromHandle (window_dc E);
     EvCreateCompatibleDC; EvCreateBitmap; EvError (str_exn e);
     EvDeleteDC SaveDC; EvDeleteDC MfcDC; EvReleaseDC w (window_dc E);
     EvDeleteObject Detached] /\
  finished (run E cfg fuel) = true.
Proof.
  intros Hw Hw0 Hdc H1 H2 H3 Hds H4.
  assert (Hm : get_monitors (displays E) <> []).
  { unfold get_monitors. destruct (displays E); [congruence | discriminate]. }
  destruct (bounding_box_some Hm) as (l & t & r & b & _ & _ & _ & _ & Hg).
  apply Z.eqb_neq in Hw0, Hdc.
  unfold run, try_block, acquire, bind, get, modify, emit, may_fail, ret,
    raise.
  simpl. rewrite Hw. simpl. rewrite Hw0. simpl.
  rewrite H1, H2, H3, Hg, H4. simpl.
  rewrite finally_no_caps by reflexivity.
  unfold history, release_events. simpl. rewrite Hdc, Hw0. simpl.
  split; reflexivity.
Qed.

Lemma bitmap_failure_path_witness :
  history (run cramped_env mixed_config 5) =
    [EvGetWindowDC 300 77; EvCreateDCFromHandle 77;
     EvCreateCompatibleDC; EvCreateBitmap;
     EvError "CreateCompatibleBitmap failed";
     EvDeleteDC SaveDC; EvDeleteDC MfcDC; EvReleaseDC 300 77;
     EvDeleteObject Detached].
Proof.
  refine (proj1 (@bitmap_failure_path cramped_env mixed_config 5 300
                   (Win32Error "CreateCompatibleBitmap failed")
                   eq_refl _ _ eq_refl eq_refl eq_refl _ eq_refl));
    discriminate.
Defined.

(** ** The configuration window *)

(** *** Dictionaries *)

Lemma dict_get_set_same {V : Type} (d : list (string * V)) (k : string)
      (v : V) :
  dict_get (dict_set d k v) k = Some v.
Proof.
  induction d as [|[k' v'] d IH]; simpl.
  - now rewrite String.eqb_refl.
  - destruct (String.eqb k' k) eqn:Hk; simpl.
    + now rewrite String.eqb_refl.
    + now rewrite Hk.
Qed.

Lemma dict_get_set_other {V : Type} (d : list (string * V)) (k k' : string)
      (v : V) :
  k <> k' -> dict_get (dict_set d k v) k' = dict_get d k'.
Proof.
  intro Hne. induction d as [|[k0 v0] d IH]; simpl.
  - destruct (String.eqb_spec k k'); [contradiction | reflexivity].
  - destruct (String.eqb_spec k0 k) as [-> | Hk]; simpl.
    + destruct (String.eqb_spec k k'); [contradiction | reflexivity].
    + now rewrite IH.
Qed.

Lemma dict_get_in {V : Type} (d : list (string * V)) (k : string) (v : V) :
  dict_get d k = Some v -> In (k, v) d.
Proof.
  induction d as [|[k' v'] d IH]; simpl; [discriminate|].
  destruct (String.eqb_spec k' k) as [-> | _].
  - intro H; inversion H; now left.
  - intro H; right; now apply IH.
Qed.

Lemma dict_get_none {V : Type} (d : list (string * V)) (k : string) :
  dict_get d k = None <-> ~ In k (map fst d).
Proof.
  induction d as [|[k' v'] d IH]; simpl; [tauto|].
  destruct (String.eqb_spec k' k) as [-> | Hne].
  - split; [discriminate | tauto].
  - rewrite IH. tauto.
Qed.

(** Assignment to a key that is present keeps the keys in place. *)
Lemma dict_set_keys_present {V : Type} (d : list (string * V)) (k : string)
      (v : V) :
  In k (map fst d) -> map fst (dict_set d k v) = map fst d.
Proof.
  induction d as [|[k' v'] d IH]; simpl; [tauto|].
  destruct (String.eqb_spec k' k) as [-> | Hne]; [reflexivity|].
  intros [H | H]; [congruence|]. simpl. now rewrite IH.
Qed.

Lemma dict_set_keys_absent {V : Type} (d : list (string * V)) (k : string)
      (v : V) :
  ~ In k (map fst d) -> dict_set d k v = d ++ [(k, v)].
Proof.
  induction d as [|[k' v'] d IH]; simpl; intro H; [reflexivity|].
  destruct (String.eqb_spec k' k) as [-> | Hne]; [tauto|].
  f_equal. apply IH. tauto.
Qed.

Lemma dict_set_in {V : Type} (d : list (string * V)) (k k' : string)
      (v v' : V) :
  In (k', v') (dict_set d k v) -> (k', v') = (k, v) \/ In (k', v') d.
Proof.
  induction d as [|[k0 v0] d IH]; simpl.
  - intros [H | []]. left. now symmetry.
  - destruct (String.eqb k0 k); simpl.
    + intros [H | H]; [left; now symmetry | right; now right].
    + intros [H | H]; [right; now left|].
      destruct (IH H); [now left | right; now right].
Qed.

Lemma dict_set_NoDup {V : Type} (d : list (string * V)) (k : string) (v : V) :
  NoDup (map fst d) -> NoDup (map fst (dict_set d k v)).
Proof.
  intro Hnd. destruct (in_dec string_dec k (map fst d)) as [Hin | Hout].
  - now rewrite dict_set_keys_present.
  - rewrite dict_set_keys_absent by exact Hout. rewrite map_app. simpl.
    apply NoDup_app; [exact Hnd | repeat constructor; intros [] |].
    intros a Ha [<- | []]. contradiction.
Qed.

Lemma dict_set_keys_incl {V : Type} (d : list (string * V)) (k k' : string)
      (v : V) :
  In k' (map fst (dict_set d k v)) -> k' = k \/ In k' (map fst d).
Proof.
  intro H. apply in_map_iff in H. destruct H as [[k0 v0] [<- H]].
  apply dict_set_in in H. destruct H as [H | H].
  - inversion H. now left.
  - right. apply in_map_iff. now exists (k0, v0).
Qed.

(** *** Saving *)

Lemma config_data_full (d : list (string * config)) :
  (forall k c, In (k, c) d ->
               video_path c <> None /\ monitor_info c <> None /\
               cfg_fps c <> None) ->
  config_data d = inr d.
Proof.
  induction d as [|[k c] d IH]; intro H; [reflexivity|]. simpl.
  destruct (H k c (or_introl eq_refl)) as (Hp & Hi & Hf).
  destruct c as [[p|] [i|] [f|]]; simpl in *; try congruence.
  rewrite IH; [reflexivity|]. intros k' c' Hin. apply (H k' c'). now right.
Qed.

Lemma config_data_ok (d d' : list (string * config)) :
  config_data d = inr d' ->
  map assignment_view d' = map assignment_view d /\
  (forall k c, In (k, c) d' ->
               video_path c <> None /\ monitor_info c <> None /\
               cfg_fps c <> None) /\
  (forall k c, In (k, c) d -> writable c).
Proof.
  revert d'; induction d as [|[k c] d IH]; intros d' H; simpl in H.
  - inversion H; subst. split; [reflexivity|]. split; intros ? ? [].
  - destruct (video_path c) as [p|] eqn:Hp; [|discriminate].
    destruct (monitor_info c) as [i|] eqn:Hi; [|discriminate].
    destruct (config_data d) as [e | d0]; [discriminate|].
    inversion H; subst. destruct (IH d0 eq_refl) as (Hv & Hfull & Hw).
    split; [|split].
    + simpl. unfold assignment_view at 1 3. simpl. now rewrite Hp, Hi, Hv.
    + intros k' c' [Heq | Hin]; [|now apply (Hfull k')].
      inversion Heq; subst. simpl. repeat split; discriminate.
    + intros k' c' [Heq | Hin]; [|now apply (Hw k')].
      inversion Heq; subst. split; congruence.
Qed.

Lemma config_data_writable (d : list (string * config)) :
  (forall k c, In (k, c) d -> writable c) ->
  exists d', config_data d = inr d'.
Proof.
  induction d as [|[k c] d IH]; intro H; [now exists []|]. simpl.
  destruct (H k c (or_introl eq_refl)) as [Hp Hi].
  destruct (video_path c) as [p|]; [|congruence].
  destruct (monitor_info c) as [i|]; [|congruence].
  destruct IH as [d' ->]; [intros k' c' Hin; apply (H k' c'); now right|].
  eexists; reflexivity.
Qed.

Lemma config_data_fails (d : list (string * config)) (k : string)
      (c : config) :
  In (k, c) d -> ~ writable c ->
  exists key, config_data d = inl (KeyError key).
Proof.
  induction d as [|[k0 c0] d IH]; intros Hin Hw; [destruct Hin|]. simpl.
  destruct (video_path c0) as [p|] eqn:Hp; [|now eexists].
  destruct (monitor_info c0) as [i|] eqn:Hi; [|now eexists].
  destruct Hin as [Heq | Hin].
  - inversion Heq; subst. exfalso. apply Hw. split; congruence.
  - destruct (IH Hin Hw) as [key ->]. now eexists.
Qed.

Lemma save_config_writes (m : manager) :
  (forall k c, In (k, c) (monitor_configs m) -> writable c) ->
  exists d,
    save_config m = (None, set_config_file (Some d) m) /\
    config_data (monitor_configs m) = inr d.
Proof.
  intro Hw. destruct (config_data_writable _ Hw) as [d Hd].
  exists d. unfold save_config. now rewrite Hd.
Qed.

Lemma config_data_map (d d' : list (string * config)) :
  config_data d = inr d' ->
  d' = map (fun kc => (fst kc, saved_entry (snd kc))) d.
Proof.
  revert d'; induction d as [|[k c] d IH]; intros d' H; simpl in H.
  - now inversion H.
  - destruct (video_path c) as [p|] eqn:Hp; [|discriminate].
    destruct (monitor_info c) as [i|] eqn:Hi; [|discriminate].
    destruct (config_data d) as [e | d0]; [discriminate|].
    inversion H; subst. simpl. unfold saved_entry at 1.
    now rewrite Hp, Hi, (IH d0 eq_refl).
Qed.

(** X17. [save_config] either writes or raises, never half of each.  When
    every entry has its path and its monitor, the file receives the entries
    of the window, key by key and in their order, each with its path, its
    monitor and its rate as configured -- the rate 30 for an entry that has
    none -- and saving what was written gives the same file again.  When
    one entry lacks its path or its monitor, the call raises the [KeyError]
    and file and window are as before. *)
Theorem save_config_outcome (m : manager) :
  ((forall k c, In (k, c) (monitor_configs m) -> writable c) ->
   exists d,
     save_config m = (None, set_config_file (Some d) m) /\
     d = map (fun kc => (fst kc, saved_entry (snd kc))) (monitor_configs m) /\
     map assignment_view d = map assignment_view (monitor_configs m) /\
     (forall k c, In (k, c) d -> cfg_fps c <> None) /\
     config_data d = inr d) /\
  (forall k c, In (k, c) (monitor_configs m) -> ~ writable c ->
     exists key, save_config m = (Some (KeyError key), m)).
Proof.
  split.
  - intro Hw. destruct (save_config_writes m Hw) as (d & Hs & Hd).
    exists d. destruct (config_data_ok _ Hd) as (Hv & Hfull & _).
    split; [exact Hs|]. split; [exact (config_data_map _ Hd)|].
    split; [exact Hv|].
    split; [intros k c Hin; apply (Hfull k c Hin)|].
    now apply config_data_full.
  - intros k c Hin Hw. unfold save_config.
    destruct (@config_data_fails _ _ _ Hin Hw) as [key ->]. now exists key.
Qed.

Lemma save_config_outcome_witness :
  save_config unrated_window =
    (None,
     set_config_file
       (Some [ ("monitor_65537", assignment "clip.mp4" primary_monitor 30);
               ("monitor_65539",
                assignment "clip.mp4" secondary_monitor 60) ])
       unrated_window).
Proof.
  destruct (proj1 (save_config_outcome unrated_window))
    as (d & Hs & Hd & _).
  - intros k c [Heq | [Heq | []]]; inversion Heq; subst; split; discriminate.
  - rewrite Hs, Hd. reflexivity.
Defined.

(** *** Selecting a video *)

(** X18. Selecting a video for a monitor stores the chosen path with the
    monitor of the widget and the rate 30 -- whatever rate was stored for
    that monitor before and whatever its combo box shows, which is left as
    it is -- and writes the file; an empty answer of the dialog changes
    nothing at all. *)
Theorem select_video_resets_rate (m : manager) (monitor_id file_path : string)
        (w : widget) :
  dict_get (monitor_widgets m) monitor_id = Some w ->
  (forall k c, In (k, c) (monitor_configs m) -> writable c) ->
  select_video m monitor_id "" = (None, m) /\
  (file_path <> "" ->
   exists m' d,
     select_video m monitor_id file_path = (None, m') /\
     dict_get (monitor_configs m') monitor_id =
       Some {| video_path := Some file_path;
               monitor_info := Some (widget_monitor_info w);
               cfg_fps := Some 30 |} /\
     config_file m' = Some d /\
     map assignment_view d = map assignment_view (monitor_configs m') /\
     combos m' = combos m).
Proof.
  intros Hw Hall. split; [reflexivity|]. intro Hne.
  unfold select_video. apply String.eqb_neq in Hne. rewrite Hne, Hw.
  cbn [monitor_configs set_monitor_widgets].
  set (entry := {| video_path := Some file_path;
                   monitor_info := Some (widget_monitor_info w);
                   cfg_fps := Some 30 |}).
  match goal with
  | |- context [save_config ?m2] =>
      destruct (save_config_writes m2) as (d & Hs & Hd)
  end.
  { cbn [monitor_configs set_monitor_configs]. intros k c Hin.
    apply dict_set_in in Hin. destruct Hin as [Heq | Hin].
    - inversion Heq; subst. split; discriminate.
    - now apply (Hall k). }
  destruct (config_data_ok _ Hd) as (Hv & _ & _).
  rewrite Hs. do 2 eexists. split; [reflexivity|].
  cbn [monitor_configs set_config_file set_monitor_configs config_file combos
       set_monitor_widgets].
  split; [apply dict_get_set_same|].
  split; [reflexivity|]. split; [exact Hv | reflexivity].
Qed.

Lemma select_video_resets_rate_witness :
  exists m' d,
    select_video window_with_video "monitor_65537" "other.mp4" = (None, m') /\
    dict_get (monitor_configs m') "monitor_65537" =
      Some (assignment "other.mp4" primary_monitor 30) /\
    config_file m' = Some d.
Proof.
  destruct (@select_video_resets_rate window_with_video "monitor_65537"
              "other.mp4"
              {| path_label := "No video selected"; fps_combo := 0;
                 widget_monitor_info := primary_monitor |} eq_refl)
    as (_ & H).
  - intros k c [Heq | []]. inversion Heq; subst. split; discriminate.
  - destruct H as (m' & d & Hs & Hg & Hf & _); [discriminate|].
    exists m', d. repeat split; assumption.
Defined.

(** *** Rates *)

Lemma combo_item_rate (i : nat) :
  (i < 4)%nat -> exists v, py_int (nth i combo_items "") = Some v.
Proof.
  intro H. destruct i as [|[|[|[|i]]]]; try lia; eexists; reflexivity.
Qed.

Lemma in_list_update {A : Type} (l : list A) (i : nat) (v x : A) :
  In x (list_update l i v) -> x = v \/ In x l.
Proof.
  revert i; induction l as [|a l IH]; intros [|i]; simpl; try tauto.
  - intros [H | H]; [left; now symmetry | right; now right].
  - intros [H | H]; [right; now left|].
    destruct (IH i H); [now left | right; now right].
Qed.

Lemma nth_error_list_update_other {A : Type} (l : list A) (i j : nat)
      (v : A) :
  i <> j -> nth_error (list_update l i v) j = nth_error l j.
Proof.
  revert i j; induction l as [|a l IH]; intros [|i] [|j] H; simpl;
    try reflexivity; try lia.
  apply IH. lia.
Qed.

Lemma config_data_get (d d' : list (string * config)) (k : string)
      (c : config) :
  config_data d = inr d' -> dict_get d k = Some c ->
  dict_get d' k =
    Some {| video_path := video_path c; monitor_info := monitor_info c;
            cfg_fps := Some (match cfg_fps c with
                             | Some f => f
                             | None => 30
                             end) |}.
Proof.
  revert d'; induction d as [|[k0 c0] d IH]; intros d' H Hg; simpl in *;
    [discriminate|].
  destruct (video_path c0) as [p|] eqn:Hp; [|discriminate].
  destruct (monitor_info c0) as [i|] eqn:Hi; [|discriminate].
  destruct (config_data d) as [e | d0]; [discriminate|].
  inversion H; subst. simpl. destruct (String.eqb k0 k).
  - inversion Hg; subst. now rewrite Hp, Hi.
  - now apply IH.
Qed.

(** [update_fps] for a monitor that has a video. *)
Lemma update_fps_stores (m : manager) (monitor_id : string) (c : nat)
      (cb : combo) (cfg : config) :
  nth_error (combos m) c = Some cb ->
  (combo_index cb < 4)%nat ->
  dict_get (monitor_configs m) monitor_id = Some cfg ->
  (forall k c, In (k, c) (monitor_configs m) -> writable c) ->
  exists v d,
    py_int (current_text cb) = Some v /\
    update_fps m monitor_id c =
      (None,
       set_config_file (Some d)
         (set_monitor_configs
            (dict_set (monitor_configs m) monitor_id
               {| video_path := video_path cfg;
                  monitor_info := monitor_info cfg;
                  cfg_fps := Some v |}) m)) /\
    config_data (dict_set (monitor_configs m) monitor_id
                   {| video_path := video_path cfg;
                      monitor_info := monitor_info cfg;
                      cfg_fps := Some v |}) = inr d.
Proof.
  intros Hc Hi Hg Hall. destruct (@combo_item_rate _ Hi) as [v Hv].
  unfold update_fps. rewrite Hc. unfold current_text. rewrite Hv, Hg.
  match goal with
  | |- context [save_config ?m2] =>
      destruct (save_config_writes m2) as (d & Hs & Hd)
  end.
  { cbn [monitor_configs set_monitor_configs]. intros k c0 Hin.
    apply dict_set_in in Hin. destruct Hin as [Heq | Hin].
    - inversion Heq; subst. apply dict_get_in in Hg.
      exact (Hall _ _ Hg).
    - exact (Hall _ _ Hin). }
  exists v, d. split; [reflexivity|]. split; [exact Hs | exact Hd].
Qed.

(** A change of index runs [update_fps] with the combo box of the closure. *)
Lemma set_current_index_changed (m : manager) (c i : nat) (cb : combo) :
  nth_error (combos m) c = Some cb ->
  i <> combo_index cb ->
  set_current_index m c i =
    update_fps
      (set_combos (list_update (combos m) c
                     {| combo_mid := combo_mid cb; combo_index := i |}) m)
      (combo_mid cb) (closure_fps_combo m).
Proof.
  intros Hc Hi. unfold set_current_index. rewrite Hc.
  apply Nat.eqb_neq in Hi. rewrite Hi. unfold fps_slot.
  cbn [combos set_combos]. rewrite (@nth_error_list_update _ _ _ _ _ Hc).
  unfold closure_fps_combo. cbn [combos set_combos combo_mid].
  now rewrite length_list_update.
Qed.

(** X19. The slot of a rate combo box reads the combo box created last, not
    its own (the lambda of line 247 captures the variable [fps_combo]):
    choosing a rate in any other combo box whose monitor has a video stores,
    and writes to the file, the rate the last combo box shows, while the
    combo box itself shows the rate chosen. *)
Theorem rate_taken_from_last_combo (m : manager) (c i : nat)
        (cb lastcb : combo) (cfg : config) :
  nth_error (combos m) c = Some cb ->
  nth_error (combos m) (closure_fps_combo m) = Some lastcb ->
  c <> closure_fps_combo m ->
  i <> combo_index cb ->
  (combo_index lastcb < 4)%nat ->
  dict_get (monitor_configs m) (combo_mid cb) = Some cfg ->
  (forall k c, In (k, c) (monitor_configs m) -> writable c) ->
  exists m' v d,
    set_current_index m c i = (None, m') /\
    py_int (current_text lastcb) = Some v /\
    dict_get (monitor_configs m') (combo_mid cb) =
      Some {| video_path := video_path cfg;
              monitor_info := monitor_info cfg;
              cfg_fps := Some v |} /\
    config_file m' = Some d /\
    dict_get d (combo_mid cb) =
      Some {| video_path := video_path cfg;
              monitor_info := monitor_info cfg;
              cfg_fps := Some v |} /\
    nth_error (combos m') c =
      Some {| combo_mid := combo_mid cb; combo_index := i |}.
Proof.
  intros Hc Hlast Hne Hi Hidx Hg Hall.
  rewrite (@set_current_index_changed _ _ _ _ Hc Hi).
  match goal with
  | |- context [update_fps ?m1 _ _] =>
      destruct (@update_fps_stores m1 (combo_mid cb) (closure_fps_combo m)
                  lastcb cfg) as (v & d & Hv & Hu & Hd)
  end; try assumption.
  { cbn [combos set_combos]. now rewrite nth_error_list_update_other. }
  rewrite Hu. eexists. exists v, d. split; [reflexivity|].
  cbn [monitor_configs set_config_file set_monitor_configs config_file combos
       set_combos].
  split; [exact Hv|]. split; [apply dict_get_set_same|].
  split; [reflexivity|]. split.
  - rewrite (@config_data_get _ _ _ _ Hd (dict_get_set_same _ _ _)). reflexivity.
  - apply (@nth_error_list_update _ _ _ _ _ Hc).
Qed.

Lemma rate_taken_from_last_combo_witness :
  exists m' d,
    set_current_index window_with_video 0 2 = (None, m') /\
    current_text {| combo_mid := "monitor_65539"; combo_index := 0 |} = "24" /\
    dict_get (monitor_configs m') "monitor_65537" =
      Some (assignment "clip.mp4" primary_monitor 24) /\
    config_file m' = Some d /\
    dict_get d "monitor_65537" =
      Some (assignment "clip.mp4" primary_monitor 24) /\
    option_map current_text (nth_error (combos m') 0) = Some "60".
Proof.
  destruct (@rate_taken_from_last_combo window_with_video 0 2
              {| combo_mid := "monitor_65537"; combo_index := 0 |}
              {| combo_mid := "monitor_65539"; combo_index := 0 |}
              (assignment "clip.mp4" primary_monitor 60)
              eq_refl eq_refl)
    as (m' & v & d & Hs & Hv & Hg & Hf & Hd & Hc).
  - discriminate.
  - discriminate.
  - simpl; lia.
  - reflexivity.
  - intros k c [Heq | []]. inversion Heq; subst. split; discriminate.
  - inversion Hv; subst v. exists m', d.
    split; [exact Hs|]. split; [reflexivity|]. split; [exact Hg|].
    split; [exact Hf|]. split; [exact Hd|]. now rewrite Hc.
Defined.

(** X20. A rate chosen before a video is selected is not kept: the choice
    stores and writes nothing, and selecting the video afterwards stores the
    rate 30 while the combo box goes on showing the rate chosen. *)
Theorem rate_before_video_is_lost (m : manager) (c i : nat) (cb : combo)
        (w : widget) (file_path : string) :
  nth_error (combos m) c = Some cb ->
  i <> combo_index cb ->
  (exists lastcb, nth_error (combos m) (closure_fps_combo m) = Some lastcb /\
                  (combo_index lastcb < 4)%nat) ->
  (i < 4)%nat ->
  dict_get (monitor_configs m) (combo_mid cb) = None ->
  dict_get (monitor_widgets m) (combo_mid cb) = Some w ->
  (forall k c, In (k, c) (monitor_configs m) -> writable c) ->
  file_path <> "" ->
  exists m1 m2,
    set_current_index m c i = (None, m1) /\
    monitor_configs m1 = monitor_configs m /\
    config_file m1 = config_file m /\
    select_video m1 (combo_mid cb) file_path = (None, m2) /\
    dict_get (monitor_configs m2) (combo_mid cb) =
      Some {| video_path := Some file_path;
              monitor_info := Some (widget_monitor_info w);
              cfg_fps := Some 30 |} /\
    nth_error (combos m2) c =
      Some {| combo_mid := combo_mid cb; combo_index := i |}.
Proof.
  intros Hc Hi (lastcb & Hlast & Hidx) Hi4 Hg Hw Hall Hne.
  rewrite (@set_current_index_changed _ _ _ _ Hc Hi).
  set (cb' := {| combo_mid := combo_mid cb; combo_index := i |}).
  set (m1 := set_combos (list_update (combos m) c cb') m).
  assert (Hu : update_fps m1 (combo_mid cb) (closure_fps_combo m) = (None, m1)).
  { unfold update_fps. cbn [combos m1 set_combos monitor_configs].
    destruct (Nat.eq_dec c (closure_fps_combo m)) as [<- | Hn].
    - rewrite (@nth_error_list_update _ _ _ _ _ Hc).
      destruct (@combo_item_rate i Hi4) as [v Hv].
      unfold current_text. cbn [combo_index cb']. now rewrite Hv, Hg.
    - rewrite nth_error_list_update_other, Hlast by exact Hn.
      destruct (@combo_item_rate _ Hidx) as [v Hv].
      unfold current_text. now rewrite Hv, Hg. }
  rewrite Hu. exists m1.
  unfold select_video. apply String.eqb_neq in Hne. rewrite Hne.
  cbn [monitor_widgets m1 set_combos]. rewrite Hw.
  match goal with
  | |- context [save_config ?m2] =>
      destruct (save_config_writes m2) as (d & Hs & Hd)
  end.
  { cbn [monitor_configs set_monitor_configs set_monitor_widgets m1
         set_combos]. intros k c0 Hin.
    apply dict_set_in in Hin. destruct Hin as [Heq | Hin].
    - inversion Heq; subst. split; discriminate.
    - exact (Hall _ _ Hin). }
  rewrite Hs. eexists. split; [reflexivity|].
  split; [reflexivity|]. split; [reflexivity|]. split; [reflexivity|].
  cbn [monitor_configs set_config_file set_monitor_configs combos
       set_monitor_widgets m1 set_combos].
  split; [apply dict_get_set_same|].
  apply (@nth_error_list_update _ _ _ _ _ Hc).
Qed.

Lemma rate_before_video_is_lost_witness :
  exists m1 m2,
    set_current_index sample_window 0 3 = (None, m1) /\
    select_video m1 "monitor_65537" "clip.mp4" = (None, m2) /\
    dict_get (monitor_configs m2) "monitor_65537" =
      Some (assignment "clip.mp4" primary_monitor 30) /\
    option_map current_text (nth_error (combos m2) 0) = Some "120".
Proof.
  destruct (@rate_before_video_is_lost sample_window 0 3
              {| combo_mid := "monitor_65537"; combo_index := 0 |}
              {| path_label := "No video selected"; fps_combo := 0;
                 widget_monitor_info := primary_monitor |}
              "clip.mp4" eq_refl)
    as (m1 & m2 & H1 & _ & _ & H2 & Hg & Hc).
  - discriminate.
  - eexists; split; [reflexivity | simpl; lia].
  - lia.
  - reflexivity.
  - reflexivity.
  - intros k c [].
  - discriminate.
  - exists m1, m2. split; [exact H1|]. split; [exact H2|].
    split; [exact Hg|]. now rewrite Hc.
Defined.

(** *** Loading *)

(** X21. Loading an entry of the file shows its rate in the combo box of
    its monitor, and by that very change overwrites it: when the combo box
    is not the one created last, the rate kept for the monitor, in the
    window and in the file, becomes the rate the last combo box shows at
    that moment. *)
Theorem loaded_rate_overwritten (m : manager) (monitor_id : string)
        (cfg : config) (info : monitor) (w : widget) (cb lastcb : combo)
        (i : nat) :
  dict_get (monitor_configs m) monitor_id = Some cfg ->
  monitor_info cfg = Some info ->
  dict_get (monitor_widgets m) monitor_id = Some w ->
  nth_error (combos m) (fps_combo w) = Some cb ->
  combo_mid cb = monitor_id ->
  find_text (py_str (match cfg_fps cfg with Some f => f | None => 30 end))
            combo_items 0 = Some i ->
  i <> combo_index cb ->
  fps_combo w <> closure_fps_combo m ->
  nth_error (combos m) (closure_fps_combo m) = Some lastcb ->
  (combo_index lastcb < 4)%nat ->
  (forall k c, In (k, c) (monitor_configs m) -> writable c) ->
  exists m' v d,
    load_entry m monitor_id = (None, m') /\
    py_int (current_text lastcb) = Some v /\
    dict_get (monitor_configs m') monitor_id =
      Some {| video_path := video_path cfg; monitor_info := Some info;
              cfg_fps := Some v |} /\
    config_file m' = Some d /\
    dict_get d monitor_id =
      Some {| video_path := video_path cfg; monitor_info := Some info;
              cfg_fps := Some v |} /\
    nth_error (combos m') (fps_combo w) =
      Some {| combo_mid := monitor_id; combo_index := i |}.
Proof.
  intros Hg Hinfo Hw Hc Hmid Hfind Hi Hne Hlast Hidx Hall.
  unfold load_entry. rewrite Hg, Hw.
  match goal with
  | |- context [set_current_text ?m0 _ _] => set (m1 := m0)
  end.
  unfold set_current_text. rewrite Hfind.
  assert (Hc1 : nth_error (combos m1) (fps_combo w) = Some cb) by exact Hc.
  rewrite (@set_current_index_changed m1 _ _ _ Hc1 Hi).
  match goal with
  | |- context [update_fps ?m2 _ _] =>
      destruct (@update_fps_stores m2 (combo_mid cb) (closure_fps_combo m1)
                  lastcb cfg) as (v & d & Hv & Hu & Hd)
  end.
  { cbn [combos set_combos m1 set_monitor_widgets].
    rewrite nth_error_list_update_other by exact Hne. exact Hlast. }
  { exact Hidx. }
  { rewrite Hmid. exact Hg. }
  { exact Hall. }
  rewrite Hu. rewrite Hinfo.
  cbn [monitor_widgets set_config_file set_monitor_configs set_combos m1
       set_monitor_widgets].
  rewrite dict_get_set_same.
  eexists. exists v, d. split; [reflexivity|].
  cbn [monitor_configs set_config_file set_monitor_configs config_file combos
       set_combos set_monitor_widgets m1].
  rewrite Hmid, <- Hinfo.
  split; [exact Hv|]. split; [apply dict_get_set_same|].
  split; [reflexivity|]. split.
  - rewrite Hmid in Hd.
    rewrite (@config_data_get _ _ _ _ Hd (dict_get_set_same _ _ _)).
    reflexivity.
  - rewrite <- Hmid. apply (@nth_error_list_update _ _ _ _ _ Hc).
Qed.

Lemma loaded_rate_overwritten_witness :
  exists m' d,
    load_entry (set_monitor_configs saved_rates
                  (init_ui two_displays (Some saved_rates)))
               "monitor_65537" = (None, m') /\
    dict_get (monitor_configs m') "monitor_65537" =
      Some (assignment "clip.mp4" primary_monitor 24) /\
    config_file m' = Some d /\
    dict_get d "monitor_65537" =
      Some (assignment "clip.mp4" primary_monitor 24) /\
    option_map current_text (nth_error (combos m') 0) = Some "60".
Proof.
  destruct (@loaded_rate_overwritten
              (set_monitor_configs saved_rates
                 (init_ui two_displays (Some saved_rates)))
              "monitor_65537"
              (assignment "clip.mp4" primary_monitor 60) primary_monitor
              {| path_label := "No video selected"; fps_combo := 0;
                 widget_monitor_info := primary_monitor |}
              {| combo_mid := "monitor_65537"; combo_index := 0 |}
              {| combo_mid := "monitor_65539"; combo_index := 0 |}
              2%nat eq_refl eq_refl eq_refl eq_refl eq_refl eq_refl)
    as (m' & v & d & Hs & Hv & Hg & Hf & Hd & Hc).
  - discriminate.
  - discriminate.
  - reflexivity.
  - simpl; lia.
  - intros k c [Heq | [Heq | []]]; inversion Heq; subst; split; discriminate.
  - inversion Hv; subst v. exists m', d.
    split; [exact Hs|]. split; [exact Hg|]. split; [exact Hf|].
    split; [exact Hd|]. cbn [fps_combo] in Hc. now rewrite Hc.
Defined.

(** The start of the application on the sample desktop with both monitors
    saved at 60: the first monitor comes out at 24. *)
Example start_overwrites_saved_rate :
  exists m',
    new_manager two_displays (Some saved_rates) = (None, m') /\
    map (fun kc => (fst kc, cfg_fps (snd kc))) (monitor_configs m') =
      [("monitor_65537", Some 24); ("monitor_65539", Some 60)] /\
    config_file m' = Some (monitor_configs m') /\
    map current_text (combos m') = ["60"; "60"].
Proof. eexists. repeat split; reflexivity. Qed.

Lemma dict_set_view (d : list (string * config)) (k : string)
      (c v : config) :
  dict_get d k = Some c ->
  video_path v = video_path c -> monitor_info v = monitor_info c ->
  map assignment_view (dict_set d k v) = map assignment_view d.
Proof.
  intros Hg Hp Hi. induction d as [|[k0 c0] d IH]; simpl in *;
    [discriminate|].
  destruct (String.eqb_spec k0 k) as [-> | Hne]; simpl.
  - inversion Hg; subst. unfold assignment_view at 1 3. simpl.
    now rewrite Hp, Hi.
  - now rewrite IH.
Qed.

Lemma save_config_configs (m : manager) :
  monitor_configs (snd (save_config m)) = monitor_configs m.
Proof.
  unfold save_config. now destruct (config_data (monitor_configs m)).
Qed.

Lemma update_fps_view (m : manager) (monitor_id : string) (c : nat) :
  map assignment_view (monitor_configs (snd (update_fps m monitor_id c))) =
  map assignment_view (monitor_configs m).
Proof.
  unfold update_fps. destruct (nth_error (combos m) c) as [cb|];
    [|reflexivity].
  destruct (py_int (current_text cb)) as [v|]; [|reflexivity].
  destruct (dict_get (monitor_configs m) monitor_id) as [cfg|] eqn:Hg;
    [|reflexivity].
  rewrite save_config_configs. cbn [monitor_configs set_monitor_configs].
  now apply (@dict_set_view _ _ cfg).
Qed.

Lemma set_current_index_view (m : manager) (c i : nat) :
  map assignment_view (monitor_configs (snd (set_current_index m c i))) =
  map assignment_view (monitor_configs m).
Proof.
  unfold set_current_index. destruct (nth_error (combos m) c) as [cb|] eqn:Hc;
    [|reflexivity].
  destruct (Nat.eqb i (combo_index cb)); [reflexivity|].
  unfold fps_slot.
  match goal with
  | |- context [nth_error (combos ?m1) c] =>
      destruct (nth_error (combos m1) c) as [cb'|]; [|reflexivity]
  end.
  now rewrite update_fps_view.
Qed.

Lemma load_entry_view (m : manager) (monitor_id : string) :
  map assignment_view (monitor_configs (snd (load_entry m monitor_id))) =
  map assignment_view (monitor_configs m).
Proof.
  unfold load_entry.
  destruct (dict_get (monitor_configs m) monitor_id) as [cfg|];
    [|reflexivity].
  destruct (dict_get (monitor_widgets m) monitor_id) as [w|]; [|reflexivity].
  match goal with
  | |- context [set_current_text ?m1 ?c ?t] =>
      assert (Hv : map assignment_view
                     (monitor_configs (snd (set_current_text m1 c t))) =
                   map assignment_view (monitor_configs m));
        [|destruct (set_current_text m1 c t) as [[e|] m2]]
  end.
  { unfold set_current_text.
    destruct (find_text _ combo_items 0) as [i|]; [|reflexivity].
    now rewrite set_current_index_view. }
  - exact Hv.
  - destruct (monitor_info cfg) as [info|]; [|exact Hv].
    destruct (dict_get (monitor_widgets m2) monitor_id) as [w2|]; exact Hv.
Qed.

Lemma load_entries_view (keys : list string) (m : manager) :
  map assignment_view (monitor_configs (snd (load_entries m keys))) =
  map assignment_view (monitor_configs m).
Proof.
  revert m; induction keys as [|k keys IH]; intro m; [reflexivity|].
  simpl. pose proof (load_entry_view m k) as Hv.
  destruct (load_entry m k) as [[e|] m']; [exact Hv|].
  now rewrite IH.
Qed.

(** X22. Whatever the file holds and however the load ends, the load never
    changes which video is assigned to which monitor: after [load_config]
    the window's configuration has the keys, paths and monitors of the file,
    in the order of the file; only rates can differ. *)
Theorem load_keeps_assignments (m : manager)
        (data : list (string * config)) :
  config_file m = Some data ->
  map assignment_view (monitor_configs (snd (load_config m))) =
  map assignment_view data.
Proof.
  intro Hf. unfold load_config. rewrite Hf. now rewrite load_entries_view.
Qed.

Lemma load_keeps_assignments_witness :
  map assignment_view
      (monitor_configs (snd (new_manager two_displays (Some saved_rates)))) =
  map assignment_view saved_rates.
Proof.
  exact (@load_keeps_assignments (init_ui two_displays (Some saved_rates))
           saved_rates eq_refl).
Defined.

(** *** What the window can produce *)

Lemma dict_set_keys_self {V : Type} (d : list (string * V)) (k : string)
      (v : V) :
  In k (map fst (dict_set d k v)).
Proof.
  destruct (in_dec string_dec k (map fst (dict_set d k v))) as [H | H];
    [exact H|].
  apply dict_get_none in H. rewrite dict_get_set_same in H. discriminate.
Qed.

Lemma dict_set_keys_mono {V : Type} (d : list (string * V)) (k k' : string)
      (v : V) :
  In k' (map fst d) -> In k' (map fst (dict_set d k v)).
Proof.
  intro Hin. destruct (string_dec k k') as [<- | Hne];
    [apply dict_set_keys_self|].
  destruct (in_dec string_dec k' (map fst (dict_set d k v))) as [H | H];
    [exact H|].
  apply dict_get_none in H. rewrite dict_get_set_other in H by exact Hne.
  apply dict_get_none in H. contradiction.
Qed.

Lemma dict_get_present {V : Type} (d : list (string * V)) (k : string) :
  In k (map fst d) -> exists v, dict_get d k = Some v.
Proof.
  intro Hin. destruct (dict_get d k) as [v|] eqn:Hg; [now exists v|].
  apply dict_get_none in Hg. contradiction.
Qed.

Lemma full_entry_writable (c : config) : full_entry c -> writable c.
Proof.
  intros ((p & Hp & _) & Hi & _). split; [congruence | exact Hi].
Qed.

Lemma save_config_full (m : manager) :
  (forall k c, In (k, c) (monitor_configs m) -> full_entry c) ->
  save_config m = (None, set_config_file (Some (monitor_configs m)) m).
Proof.
  intro H. unfold save_config. rewrite config_data_full; [reflexivity|].
  intros k c Hin. destruct (H k c Hin) as ((p & Hp & _) & Hi & Hf).
  split; [congruence | split; assumption].
Qed.

Lemma init_ui_combos (l : list monitor) (m : manager) :
  (forall cb, In cb (combos m) ->
              (combo_index cb < 4)%nat /\
              In (combo_mid cb) (map fst (monitor_widgets m))) ->
  let m' := fold_left add_monitor l m in
  monitor_configs m' = monitor_configs m /\
  config_file m' = config_file m /\
  forall cb, In cb (combos m') ->
             (combo_index cb < 4)%nat /\
             In (combo_mid cb) (map fst (monitor_widgets m')).
Proof.
  revert m; induction l as [|mon l IH]; intros m H; simpl.
  - repeat split; try reflexivity; apply H; assumption.
  - destruct (IH (add_monitor m mon)) as (Hc & Hf & Hcb).
    + unfold add_monitor.
      cbn [combos monitor_widgets set_monitor_widgets set_combos].
      intros cb Hin. apply in_app_or in Hin. destruct Hin as [Hin | [<- | []]].
      * destruct (H cb Hin) as [Hi Hk]. split; [exact Hi|].
        now apply dict_set_keys_mono.
      * split; [simpl; lia | apply dict_set_keys_self].
    + split; [exact Hc|]. split; [exact Hf | exact Hcb].
Qed.

Lemma window_ok_init (ds : list display) :
  window_ok (init_ui ds None).
Proof.
  unfold init_ui.
  match goal with
  | |- window_ok (fold_left add_monitor ?l ?m0) =>
      destruct (@init_ui_combos l m0) as (Hc & Hf & Hcb)
  end.
  { intros cb []. }
  unfold window_ok. rewrite Hc. simpl.
  split; [constructor|]. split; [intros k c []|]. split; [intros k []|].
  split; [exact Hcb | now left].
Qed.

Lemma select_video_ok (m : manager) (monitor_id file_path : string) :
  window_ok m -> In monitor_id (map fst (monitor_widgets m)) ->
  exists m',
    select_video m monitor_id file_path = (None, m') /\
    window_ok m' /\
    map fst (monitor_widgets m') = map fst (monitor_widgets m).
Proof.
  intros Hok Hin. pose proof Hok as (Hnd & Hfull & Hkeys & Hcb & Hfile).
  unfold select_video.
  destruct (String.eqb_spec file_path "") as [-> | Hne].
  { exists m. split; [reflexivity|]. split; [exact Hok | reflexivity]. }
  destruct (dict_get_present _ _ Hin) as [w Hw]. rewrite Hw.
  rewrite save_config_full.
  - eexists. split; [reflexivity|].
    cbn [monitor_configs monitor_widgets set_config_file set_monitor_configs
         set_monitor_widgets].
    split; [|now apply dict_set_keys_present].
    unfold window_ok.
    cbn [monitor_configs monitor_widgets set_config_file set_monitor_configs
         set_monitor_widgets combos config_file].
    rewrite (@dict_set_keys_present _ _ _ _ Hin).
    split; [now apply dict_set_NoDup|]. split.
    + intros k c Hc. apply dict_set_in in Hc. destruct Hc as [Heq | Hc].
      * inversion Heq; subst. split; [now exists file_path|].
        split; discriminate.
      * exact (Hfull _ _ Hc).
    + split; [|split; [exact Hcb | now right]].
      intros k Hk. apply dict_set_keys_incl in Hk.
      destruct Hk as [-> | Hk]; [exact Hin | now apply Hkeys].
  - cbn [monitor_configs set_monitor_configs set_monitor_widgets].
    intros k c Hc. apply dict_set_in in Hc. destruct Hc as [Heq | Hc].
    + inversion Heq; subst. split; [now exists file_path|].
      split; discriminate.
    + exact (Hfull _ _ Hc).
Qed.

Lemma set_current_index_ok (m : manager) (c i : nat) :
  window_ok m -> (i < 4)%nat ->
  exists m',
    set_current_index m c i = (None, m') /\
    window_ok m' /\
    map fst (monitor_widgets m') = map fst (monitor_widgets m).
Proof.
  intros Hok Hi. pose proof Hok as (Hnd & Hfull & Hkeys & Hcb & Hfile).
  destruct (nth_error (combos m) c) as [cb|] eqn:Hc.
  2:{ exists m. unfold set_current_index. rewrite Hc.
      split; [reflexivity|]. split; [exact Hok | reflexivity]. }
  destruct (Nat.eq_dec i (combo_index cb)) as [Heq | Hne].
  { exists m. unfold set_current_index. rewrite Hc.
    apply Nat.eqb_eq in Heq. rewrite Heq.
    split; [reflexivity|]. split; [exact Hok | reflexivity]. }
  rewrite (@set_current_index_changed _ _ _ _ Hc Hne).
  set (cb' := {| combo_mid := combo_mid cb; combo_index := i |}).
  set (m1 := set_combos (list_update (combos m) c cb') m).
  assert (Hcb1 : forall x, In x (combos m1) ->
                           (combo_index x < 4)%nat /\
                           In (combo_mid x) (map fst (monitor_widgets m1))).
  { cbn [combos m1 set_combos monitor_widgets]. intros x Hx.
    apply in_list_update in Hx. destruct Hx as [-> | Hx]; [|now apply Hcb].
    split; [exact Hi|]. apply (Hcb cb). eapply nth_error_In; eassumption. }
  assert (Hok1 : window_ok m1).
  { unfold window_ok. cbn [monitor_configs m1 set_combos monitor_widgets
                           config_file].
    split; [exact Hnd|]. split; [exact Hfull|]. split; [exact Hkeys|].
    split; [exact Hcb1 | exact Hfile]. }
  unfold update_fps.
  destruct (nth_error (combos m1) (closure_fps_combo m)) as [lastcb|] eqn:Hl.
  2:{ exists m1. split; [reflexivity|]. split; [exact Hok1 | reflexivity]. }
  destruct (@combo_item_rate (combo_index lastcb)) as [v Hv].
  { apply Hcb1. eapply nth_error_In; eassumption. }
  unfold current_text. rewrite Hv.
  destruct (dict_get (monitor_configs m1) (combo_mid cb)) as [cfg|] eqn:Hg.
  2:{ exists m1. split; [reflexivity|]. split; [exact Hok1 | reflexivity]. }
  cbn [monitor_configs m1 set_combos] in Hg.
  pose proof (dict_get_in _ _ Hg) as Hin.
  assert (Hk : In (combo_mid cb) (map fst (monitor_configs m))).
  { apply in_map_iff. now exists (combo_mid cb, cfg). }
  assert (Hfull' : forall k c0,
             In (k, c0)
                (dict_set (monitor_configs m) (combo_mid cb)
                   {| video_path := video_path cfg;
                      monitor_info := monitor_info cfg;
                      cfg_fps := Some v |}) -> full_entry c0).
  { intros k c0 Hc0. apply dict_set_in in Hc0. destruct Hc0 as [Heq | Hc0].
    - inversion Heq; subst. destruct (Hfull _ _ Hin) as (Hp & Hmi & _).
      split; [exact Hp|]. split; [exact Hmi | discriminate].
    - exact (Hfull _ _ Hc0). }
  rewrite save_config_full by exact Hfull'.
  eexists. split; [reflexivity|]. split; [|reflexivity].
  unfold window_ok.
  cbn [monitor_configs monitor_widgets set_config_file set_monitor_configs
       combos config_file m1 set_combos].
  rewrite (@dict_set_keys_present _ _ _ _ Hk).
  split; [exact Hnd|]. split; [exact Hfull'|]. split; [exact Hkeys|].
  split; [exact Hcb1 | now right].
Qed.

Lemma act_ok (m : manager) (a : action) :
  window_ok m -> offered m a ->
  exists m',
    act m a = (None, m') /\ window_ok m' /\
    map fst (monitor_widgets m') = map fst (monitor_widgets m).
Proof.
  intros Hok Ha. destruct a as [monitor_id file_path | c i]; simpl in *.
  - now apply select_video_ok.
  - now apply set_current_index_ok.
Qed.

Lemma offered_keys (m m' : manager) (a : action) :
  map fst (monitor_widgets m') = map fst (monitor_widgets m) ->
  offered m a -> offered m' a.
Proof.
  intros Hk. destruct a; simpl; [now rewrite Hk | trivial].
Qed.

Lemma acts_ok (l : list action) (m : manager) :
  window_ok m -> Forall (offered m) l ->
  exists m', acts m l = (None, m') /\ window_ok m'.
Proof.
  revert m; induction l as [|a l IH]; intros m Hok Hl.
  - now exists m.
  - inversion Hl as [|? ? Ha Hl']; subst. simpl.
    destruct (act_ok a Hok Ha) as (m1 & Hact & Hok1 & Hk). rewrite Hact.
    apply IH; [exact Hok1|].
    eapply Forall_impl; [|exact Hl']. intro b. now apply offered_keys.
Qed.

(** X23. Whatever the user does in a window that started without a file --
    select videos, choose rates, in any order -- no handler raises, every
    configured monitor has a non-empty path, its monitor and a rate, the
    keys are distinct, and the file holds exactly the configuration of the
    window: the configuration [start_wallpapers] hands to the player thread
    is complete. *)
Theorem window_keeps_config_complete (ds : list display) (l : list action) :
  Forall (offered (init_ui ds None)) l ->
  exists m',
    acts (init_ui ds None) l = (None, m') /\
    complete_config (monitor_configs m') /\
    (forall k c, In (k, c) (monitor_configs m') -> full_entry c) /\
    (monitor_configs m' = [] \/ config_file m' = Some (monitor_configs m')).
Proof.
  intro Hl. destruct (@acts_ok l _ (window_ok_init ds) Hl) as (m' & Ha & Hok).
  exists m'. split; [exact Ha|].
  destruct Hok as (Hnd & Hfull & _ & _ & Hfile).
  split; [|split; assumption].
  split; [exact Hnd|]. intros k c Hin _.
  now destruct (Hfull k c Hin) as (_ & Hi & _).
Qed.

Lemma window_keeps_config_complete_witness :
  exists m',
    acts (init_ui two_displays None)
         [ChooseRate 0 2; SelectVideo "monitor_65537" "clip.mp4";
          ChooseRate 1 3; ChooseRate 0 1] = (None, m') /\
    complete_config (monitor_configs m').
Proof.
  destruct (@window_keeps_config_complete two_displays
              [ChooseRate 0 2; SelectVideo "monitor_65537" "clip.mp4";
               ChooseRate 1 3; ChooseRate 0 1])
    as (m' & Ha & Hc & _).
  - repeat constructor; simpl; tauto.
  - exists m'. split; assumption.
Defined.
